(** * LittleSteps Forecaster: the forecast engine and its REST boundary

    A shallow embedding of the dashboard's forecast computation and of what
    the classroom cards and roster rows derive from it
    (client/src/pages/Dashboard.tsx), of the classroom routes and the
    creation of children (server/routes.ts), of the storage layer
    (server/storage.ts), of the insert schemas (shared/schema.ts) and of the
    seeding (server/seed.ts).

    Conventions.
    - Integer-valued JavaScript numbers (ids, ages, capacities, counters,
      array lengths) are [Z]; a number that can be [NaN] is [option Z] with
      [None] for [NaN].
    - The occupancy ratio is the exact quotient (see [quotient]); the
      occupancy percentage is computed in binary64 on the kernel's floats.
    - The JavaScript objects used as dictionaries keyed by classroom id
      ([stats], [data], [monthStats]) are [gmap Z _].
    - [forEach] over an array with a mutable accumulator is [foldl].
    - date-fns ([parseISO], [differenceInMonths], [addMonths], [format]) is
      not part of the repository: the engine is parametrised by it.
    - The classroom ids of a list read from the store are distinct
      ([primary_key]); the theorems about the per-classroom series and alerts
      assume it of the classroom list.
    - [Math.random()] is a stream of rationals; a function that can throw
      returns an [outcome]. *)

From Stdlib Require Import ZArith QArith Qround Floats List Ascii String.
From stdpp Require Import base list sorting gmap strings pretty.

Local Open Scope Z_scope.

(** ** Data model (shared/schema.ts) *)

Module Classroom.
Record t := mk {
  id : Z;
  name : string;
  color : string;
  minAgeMonths : Z;
  maxAgeMonths : Z;
  capacity : Z;
  ratio : string
}.
End Classroom.

Module Child.
Record t := mk {
  id : Z;
  name : string;
  birthDate : string;
  enrollmentDate : string
}.
End Child.

(** One value of the [stats] dictionary of [forecastStats]. *)
Module ClassStats.
Record t := mk {
  enrolled : list Child.t;
  graduatingSoon : list Child.t;
  graduatingNextMonth : Z
}.
Definition empty : t := mk [] [] 0.
End ClassStats.

(** ** Comparisons of a possibly-[NaN] number with an integer.
    Every comparison with [NaN] is [false]. *)

Definition num_geb (x : option Z) (y : Z) : bool :=
  match x with Some a => bool_decide (y ≤ a) | None => false end.

Definition num_ltb (x : option Z) (y : Z) : bool :=
  match x with Some a => bool_decide (a < y) | None => false end.

(** [(m - x) <= bound] *)
Definition sub_num_leb (m : Z) (x : option Z) (bound : Z) : bool :=
  match x with Some a => bool_decide (m - a ≤ bound) | None => false end.

(** One point of a classroom's trend series. *)
Module TrendPoint.
Record t := mk {
  month : string;
  enrolled : option Z;
  capacity : Z;
  isForecast : bool
}.
End TrendPoint.

Module Insight.
Inductive kind := critical | warning | opportunity.
Record t := mk {
  type : kind;
  message : string;
  classroomId : Z
}.
End Insight.

(** ** The occupancy ratio [enrolled / c.capacity]

    The quotient of two integers, with JavaScript's results for a zero
    divisor.  A finite quotient is kept as the exact rational: the engine only
    compares it with the literals [1], [0.9] and [0.6], and for integer
    operands of the size of an array length and of an [integer] column the
    correctly rounded binary64 quotient stands on the same side of each literal
    as the exact one ([ratio_thresholds_binary64] checks this by evaluation on
    a grid of operands). *)

Inductive quotient :=
  | Quot (q : Q)
  | Infinity (negative : bool)
  | NaN.

Definition js_div (a b : Z) : quotient :=
  if b =? 0 then (if a =? 0 then NaN else Infinity (a <? 0))
  else Quot (inject_Z a / inject_Z b)%Q.

(** [x > lit], [x >= lit], [x <= lit] *)
Definition quot_gtb (x : quotient) (lit : Q) : bool :=
  match x with
  | Quot q => negb (Qle_bool q lit)
  | Infinity negative => negb negative
  | NaN => false
  end.

Definition quot_geb (x : quotient) (lit : Q) : bool :=
  match x with
  | Quot q => Qle_bool lit q
  | Infinity negative => negb negative
  | NaN => false
  end.

Definition quot_leb (x : quotient) (lit : Q) : bool :=
  match x with
  | Quot q => Qle_bool q lit
  | Infinity negative => negative
  | NaN => false
  end.

(** ** Binary64 numbers: [Math.round((totalEnrolled / totalCapacity) * 100)] *)

(** The binary64 value of an integer. *)
Definition Z2F (z : Z) : float := SF2Prim (binary_normalize prec emax z 0 false).

(** The result of [Math.round]: an integer, [NaN] or an infinity. *)
Inductive rounded :=
  | RInt (z : Z)
  | RNaN
  | RInf (negative : bool).

(** [Math.round x] is the integer [floor (x + 1/2)], computed exactly. *)
Definition Math_round (x : float) : rounded :=
  match Prim2SF x with
  | S754_zero _ => RInt 0
  | S754_infinity s => RInf s
  | S754_nan => RNaN
  | S754_finite s m e =>
      let v := if s then Z.neg m else Z.pos m in
      match e with
      | Z.neg p => let d := Z.pow_pos 2 p in RInt ((2 * v + d) / (2 * d))
      | _ => RInt (v * 2 ^ e)
      end
  end.

(** ** [Array.prototype.sort(compareFn)]

    The built-in is a stable sort: [a] is placed before [b] when
    [compareFn(a, b) < 0], and elements that compare equal keep their input
    order.  For a consistent comparator the result is determined by that
    contract; it is computed here by stable insertion. *)

Section Sort.
Context {A : Type} (compareFn : A → A → Z).

Fixpoint sort_insert (x : A) (l : list A) : list A :=
  match l with
  | [] => [x]
  | y :: l' => if bool_decide (compareFn x y ≤ 0) then x :: l else y :: sort_insert x l'
  end.

Definition array_sort (l : list A) : list A := foldr sort_insert [] l.
End Sort.

(** ** The forecast engine (client/src/pages/Dashboard.tsx) *)

Section Engine.
Context {Date : Type}.
(** [parseISO]: the result may be an Invalid Date. *)
Variable parseISO : string → Date.
(** [differenceInMonths dateLeft dateRight]: whole months, [None] for [NaN]. *)
Variable differenceInMonths : Date → Date → option Z.
Variable addMonths : Date → Z → Date.
(** [format d "MMM yy"] *)
Variable format : Date → string.

Definition inBand (ageInMonths : option Z) (c : Classroom.t) : bool :=
  num_geb ageInMonths (Classroom.minAgeMonths c) && num_ltb ageInMonths (Classroom.maxAgeMonths c).

Definition getClassroomForChild (child : Child.t) (targetDate : Date)
    (classrooms : list Classroom.t) : option Z :=
  let ageInMonths := differenceInMonths targetDate (parseISO (Child.birthDate child)) in
  let classroom := find (inBand ageInMonths) classrooms in
  match classroom with
  | Some c => Some (Classroom.id c)
  | None => None
  end.

Definition getChildAgeInMonths (birthDate : string) (targetDate : Date) : option Z :=
  differenceInMonths targetDate (parseISO birthDate).

Section Forecast.
Variable classrooms : list Classroom.t.
Variable forecastDate : Date.

(** [classrooms.forEach(c => { stats[c.id] = {enrolled: [], ...} })] *)
Definition initStats : gmap Z ClassStats.t :=
  foldl (λ stats c, <[Classroom.id c := ClassStats.empty]> stats) ∅ classrooms.

(** The body of [children.forEach(child => ...)]. *)
Definition bucketChild (stats : gmap Z ClassStats.t) (child : Child.t) : gmap Z ClassStats.t :=
  match getClassroomForChild child forecastDate classrooms with
  | Some classId =>
      match stats !! classId with
      | Some s =>
          let s1 := ClassStats.mk (ClassStats.enrolled s ++ [child])
                      (ClassStats.graduatingSoon s) (ClassStats.graduatingNextMonth s) in
          let ageNow := getChildAgeInMonths (Child.birthDate child) forecastDate in
          let classroom := find (λ c, Classroom.id c =? classId) classrooms in
          let s2 :=
            match classroom with
            | Some c =>
                if sub_num_leb (Classroom.maxAgeMonths c) ageNow 3 then
                  let s' := ClassStats.mk (ClassStats.enrolled s1)
                              (ClassStats.graduatingSoon s1 ++ [child])
                              (ClassStats.graduatingNextMonth s1) in
                  if sub_num_leb (Classroom.maxAgeMonths c) ageNow 1 then
                    ClassStats.mk (ClassStats.enrolled s') (ClassStats.graduatingSoon s')
                      (ClassStats.graduatingNextMonth s' + 1)
                  else s'
                else s1
            | None => s1
            end in
          <[classId := s2]> stats
      | None => stats
      end
  | None => stats
  end.

(** [(a, b) => getChildAgeInMonths(b.birthDate) - getChildAgeInMonths(a.birthDate)];
    a [NaN] result is read as [+0] by the sort. *)
Definition byAgeDescending (a b : Child.t) : Z :=
  match getChildAgeInMonths (Child.birthDate b) forecastDate,
        getChildAgeInMonths (Child.birthDate a) forecastDate with
  | Some x, Some y => x - y
  | _, _ => 0
  end.

Definition sortEnrolled (s : ClassStats.t) : ClassStats.t :=
  ClassStats.mk (array_sort byAgeDescending (ClassStats.enrolled s))
    (ClassStats.graduatingSoon s) (ClassStats.graduatingNextMonth s).

Definition forecastStats (children : list Child.t) : gmap Z ClassStats.t :=
  let stats := initStats in
  let stats := foldl bucketChild stats children in
  sortEnrolled <$> stats.

(** [trendData]: one pass of the loop [for (let m = -12; m <= 12; m++)]. *)
Definition countChild (targetDate : Date) (monthStats : gmap Z (option Z)) (child : Child.t)
    : gmap Z (option Z) :=
  match getClassroomForChild child targetDate classrooms with
  | Some classId =>
      (* monthStats[classId]++ *)
      <[classId := match monthStats !! classId with
                   | Some (Some n) => Some (n + 1)
                   | _ => None
                   end]> monthStats
  | None => monthStats
  end.

Definition trendMonth (children : list Child.t) (data : gmap Z (list TrendPoint.t)) (m : Z)
    : gmap Z (list TrendPoint.t) :=
  let targetDate := addMonths forecastDate m in
  let monthLabel := format targetDate in
  let monthStats := foldl (λ ms c, <[Classroom.id c := Some 0]> ms) ∅ classrooms in
  let monthStats := foldl (countChild targetDate) monthStats children in
  foldl (λ data c,
           (* data[c.id].push({...}); data[c.id] was set for every classroom *)
           alter (λ points, points ++
                    [TrendPoint.mk monthLabel (mjoin (monthStats !! Classroom.id c))
                       (Classroom.capacity c) (bool_decide (0 < m))])
                 (Classroom.id c) data)
        data classrooms.

Definition trendData (children : list Child.t) : gmap Z (list TrendPoint.t) :=
  let data := foldl (λ data c, <[Classroom.id c := []]> data) ∅ classrooms in
  foldl (trendMonth children) data (seqZ (-12) 25).

(** The chart reads [trendData[classroom.id]?.[i]]. *)
Definition pointAt (data : gmap Z (list TrendPoint.t)) (c : Classroom.t) (i : nat)
    : option TrendPoint.t :=
  data !! Classroom.id c ≫= (.!! i).

(** Overall totals. *)
Definition totalCapacity : Z :=
  foldl (λ sum c, sum + Classroom.capacity c) 0 classrooms.

(** [Object.values(forecastStats)] *)
Definition Object_values {V} (o : gmap Z V) : list V := (map_to_list o).*2.

Definition totalEnrolled (stats : gmap Z ClassStats.t) : Z :=
  foldl (λ sum s, sum + Z.of_nat (length (ClassStats.enrolled s))) 0 (Object_values stats).

Definition totalVacancies (stats : gmap Z ClassStats.t) : Z :=
  totalCapacity - totalEnrolled stats.

Definition plural (n : Z) : string := if bool_decide (n ≠ 1) then "s" else "".

(** The body of [classrooms.forEach(c => ...)] in [capacityInsights]. *)
Definition pushInsight (stats : gmap Z ClassStats.t) (insights : list Insight.t)
    (c : Classroom.t) : list Insight.t :=
  match stats !! Classroom.id c with
  | None => insights
  | Some s =>
      let enrolled := Z.of_nat (length (ClassStats.enrolled s)) in
      let ratio := js_div enrolled (Classroom.capacity c) in
      let vacancies := Classroom.capacity c - enrolled in
      if quot_gtb ratio 1 then
        insights ++ [Insight.mk Insight.critical
          (Classroom.name c +:+ " is over capacity by " +:+ pretty (Z.abs vacancies)
             +:+ " spot" +:+ plural (Z.abs vacancies) +:+ ".")
          (Classroom.id c)]
      else if quot_geb ratio (9 # 10) then
        insights ++ [Insight.mk Insight.warning
          (Classroom.name c +:+ " is nearing capacity (" +:+ pretty vacancies
             +:+ " spot" +:+ plural vacancies +:+ " left).")
          (Classroom.id c)]
      else if quot_leb ratio (6 # 10) then
        insights ++ [Insight.mk Insight.opportunity
          (Classroom.name c +:+ " has high availability (" +:+ pretty vacancies
             +:+ " vacancies). Consider marketing.")
          (Classroom.id c)]
      else insights
  end.

Definition capacityInsights (stats : gmap Z ClassStats.t) : list Insight.t :=
  foldl (pushInsight stats) [] classrooms.

(** [capacityInsights.filter(insight => insight.classroomId === classroom.id)] *)
Definition classroomInsights (insights : list Insight.t) (c : Classroom.t) : list Insight.t :=
  filter (λ insight, Insight.classroomId insight = Classroom.id c) insights.

Definition totalCapacityPercentage (stats : gmap Z ClassStats.t) : rounded :=
  Math_round (PrimFloat.mul (PrimFloat.div (Z2F (totalEnrolled stats)) (Z2F totalCapacity))
                (Z2F 100)).

(** [child] is put in the bucket of [classId]. *)
Definition assignedTo (classId : Z) (child : Child.t) : Prop :=
  getClassroomForChild child forecastDate classrooms = Some classId.

#[global] Instance assignedTo_dec classId child : Decision (assignedTo classId child).
Proof. unfold assignedTo. apply _. Defined.

(** [(classroom.maxAgeMonths - ageNow) <= n] *)
Definition monthsLeftAtMost (n : Z) (classroom : Classroom.t) (child : Child.t) : bool :=
  sub_num_leb (Classroom.maxAgeMonths classroom)
    (getChildAgeInMonths (Child.birthDate child) forecastDate) n.

(** The same test for the classroom that
    [classrooms.find(c => c.id === classId)] yields. *)
Definition graduatesWithin (n : Z) (classId : Z) (child : Child.t) : bool :=
  match find (λ c, Classroom.id c =? classId) classrooms with
  | Some c => monthsLeftAtMost n c child
  | None => false
  end.

(** The classroom cards read
    [forecastStats[classroom.id] || { enrolled: [], graduatingSoon: [], graduatingNextMonth: 0 }]
    and [stats.enrolled.length]. *)
Definition statsFor (stats : gmap Z ClassStats.t) (c : Classroom.t) : ClassStats.t :=
  default ClassStats.empty (stats !! Classroom.id c).

Definition enrolledCount (stats : gmap Z ClassStats.t) (c : Classroom.t) : Z :=
  Z.of_nat (length (ClassStats.enrolled (statsFor stats c))).

End Forecast.
End Engine.

(** ** Record validation (shared/schema.ts) *)

(** A request body, as [express.json()] hands it to the route. *)
#[warnings="-register-all"]
Inductive json :=
  | JNull
  | JBool (b : bool)
  | JInt (n : Z)          (* a number without fractional part *)
  | JFraction             (* any other number *)
  | JString (s : string)
  | JArray (items : list json)
  | JObject (fields : list (string * json)).

(** [body[key]]: of duplicate keys [JSON.parse] keeps the last. *)
Definition field (key : string) (fields : list (string * json)) : option json :=
  snd <$> find (λ kv, bool_decide (fst kv = key)) (reverse fields).

Module InsertClassroom.
Record t := mk {
  name : string;
  color : string;
  minAgeMonths : Z;
  maxAgeMonths : Z;
  capacity : Z;
  ratio : string
}.
End InsertClassroom.

(** [Partial<InsertClassroom>]: [None] for a key that is not set. *)
Module ClassroomPatch.
Record t := mk {
  name : option string;
  color : option string;
  minAgeMonths : option Z;
  maxAgeMonths : option Z;
  capacity : option Z;
  ratio : option string
}.
Definition empty : t := mk None None None None None None.
Definition is_empty (p : t) : bool :=
  match p with
  | mk None None None None None None => true
  | _ => false
  end.
End ClassroomPatch.

(** What [createInsertSchema] derives for a [text(..).notNull()] column: a string. *)
Definition text_column (v : json) : option string :=
  match v with JString s => Some s | _ => None end.

(** A number that passed the schema of an [integer] column: a 4-byte
    integer, or a number that the column does not take (a fraction, or an
    integer outside of the range of a 4-byte integer). *)
Inductive number :=
  | Int4 (n : Z)
  | NotInt4.

(** What [createInsertSchema] derives for an [integer(..).notNull()] column: a
    number.  The releases of drizzle-zod differ on what else is asked of it,
    and the repository pins none: the later ones ask for an integer in the
    range of a 4-byte integer, the earlier ones for nothing more.
    [int4_checked] says which kind of release is in use.  No refinement on
    the sign is added anywhere in shared/schema.ts. *)
Definition integer_column (int4_checked : bool) (v : json) : option number :=
  match v with
  | JInt n =>
      if bool_decide (-2147483648 ≤ n ≤ 2147483647) then Some (Int4 n)
      else if int4_checked then None else Some NotInt4
  | JFraction => if int4_checked then None else Some NotInt4
  | _ => None
  end.

(** The [data] of a successful parse: [Unstorable] when an [integer] column
    holds a number that is not a 4-byte integer, which PostgreSQL refuses as a
    parameter of the statement. *)
Inductive parsed (A : Type) :=
  | Storable (data : A)
  | Unstorable.
Arguments Storable {A} data.
Arguments Unstorable {A}.

(** [insertClassroomSchema.safeParse(body)]: [None] when [success] is false.
    The six columns but [id] are required; other keys are stripped. *)
Definition insertClassroomSchema (int4_checked : bool) (body : json)
    : option (parsed InsertClassroom.t) :=
  match body with
  | JObject fields =>
      name ← field "name" fields ≫= text_column;
      color ← field "color" fields ≫= text_column;
      minAgeMonths ← field "minAgeMonths" fields ≫= integer_column int4_checked;
      maxAgeMonths ← field "maxAgeMonths" fields ≫= integer_column int4_checked;
      capacity ← field "capacity" fields ≫= integer_column int4_checked;
      ratio ← field "ratio" fields ≫= text_column;
      Some (match minAgeMonths, maxAgeMonths, capacity with
            | Int4 minAgeMonths, Int4 maxAgeMonths, Int4 capacity =>
                Storable (InsertClassroom.mk name color minAgeMonths maxAgeMonths capacity
                            ratio)
            | _, _, _ => Unstorable
            end)
  | _ => None
  end.

(** An optional key of [insertClassroomSchema.partial()]: absent, or present
    and of the column's type. The outer [None] is a parse failure. *)
Definition optional_key {A} (column : json → option A) (key : string)
    (fields : list (string * json)) : option (option A) :=
  match field key fields with
  | None => Some None
  | Some v => Some <$> column v
  end.

(** An optional [integer] key that the column takes: absent, or a 4-byte
    integer. *)
Definition storable_key (key : option number) : option (option Z) :=
  match key with
  | None => Some None
  | Some (Int4 n) => Some (Some n)
  | Some NotInt4 => None
  end.

Definition insertClassroomSchema_partial (int4_checked : bool) (body : json)
    : option (parsed ClassroomPatch.t) :=
  match body with
  | JObject fields =>
      name ← optional_key text_column "name" fields;
      color ← optional_key text_column "color" fields;
      minAgeMonths ← optional_key (integer_column int4_checked) "minAgeMonths" fields;
      maxAgeMonths ← optional_key (integer_column int4_checked) "maxAgeMonths" fields;
      capacity ← optional_key (integer_column int4_checked) "capacity" fields;
      ratio ← optional_key text_column "ratio" fields;
      Some (match storable_key minAgeMonths, storable_key maxAgeMonths,
                  storable_key capacity with
            | Some minAgeMonths, Some maxAgeMonths, Some capacity =>
                Storable (ClassroomPatch.mk name color minAgeMonths maxAgeMonths capacity
                            ratio)
            | _, _, _ => Unstorable
            end)
  | _ => None
  end.

(** The insert schema in words: the body is an object in which [name],
    [color] and [ratio] are strings and [minAgeMonths], [maxAgeMonths] and
    [capacity] are numbers (4-byte integers where the release asks for it).
    A key that is missing has no value of either kind. *)
Definition text_keys : list string := ["name"; "color"; "ratio"].
Definition integer_keys : list string := ["minAgeMonths"; "maxAgeMonths"; "capacity"].

Definition is_string (v : option json) : bool :=
  match v with Some (JString _) => true | _ => false end.

Definition is_number (v : option json) : bool :=
  match v with Some (JInt _) | Some JFraction => true | _ => false end.

Definition is_int4 (v : option json) : bool :=
  match v with
  | Some (JInt n) => bool_decide (-2147483648 ≤ n ≤ 2147483647)
  | _ => false
  end.

Definition well_typed_body (int4_checked : bool) (body : json) : bool :=
  match body with
  | JObject fields =>
      forallb (λ key, is_string (field key fields)) text_keys
      && forallb (λ key, (if int4_checked then is_int4 else is_number) (field key fields))
           integer_keys
  | _ => false
  end.

(** ** Storage (server/storage.ts)

    The [classrooms] table with the sequence behind its [serial] primary key.
    drizzle-orm and PostgreSQL are outside the repository; each query is
    modelled by the statement it issues.  The rows are in the order in which
    [SELECT * FROM classrooms], which has no [ORDER BY], reads them: an
    inserted row and the new version of an updated row are placed after the
    rows that are there, and a deleted row leaves the others in their order
    (no place freed by an earlier statement is taken again). *)

Record Db := mkDb {
  classrooms_table : list Classroom.t;
  classrooms_id_seq : Z
}.

(** The result of an [async] function: the value its promise resolves to, or
    the error it rejects with. *)
Inductive outcome (A : Type) :=
  | Returned (a : A)
  | Thrown (msg : string).
Arguments Returned {A} a.
Arguments Thrown {A} msg.

(** [db.select().from(classrooms)] *)
Definition getClassrooms (db : Db) : list Classroom.t := classrooms_table db.

(** What the [serial] primary key maintains: the ids of the table are
    distinct and below the next value of the sequence. *)
Definition primary_key (db : Db) : Prop :=
  NoDup (Classroom.id <$> classrooms_table db)
  ∧ ∀ row, row ∈ classrooms_table db → Classroom.id row < classrooms_id_seq db.

(** [INSERT INTO classrooms (...) VALUES (...) RETURNING *]: the id is the
    next value of the sequence. *)
Definition createClassroom (classroom : InsertClassroom.t) (db : Db) : Classroom.t * Db :=
  let created :=
    Classroom.mk (classrooms_id_seq db)
      (InsertClassroom.name classroom) (InsertClassroom.color classroom)
      (InsertClassroom.minAgeMonths classroom) (InsertClassroom.maxAgeMonths classroom)
      (InsertClassroom.capacity classroom) (InsertClassroom.ratio classroom) in
  (created, mkDb (classrooms_table db ++ [created]) (classrooms_id_seq db + 1)).

(** [SET] of the keys that [data] has. *)
Definition applyPatch (data : ClassroomPatch.t) (row : Classroom.t) : Classroom.t :=
  Classroom.mk (Classroom.id row)
    (default (Classroom.name row) (ClassroomPatch.name data))
    (default (Classroom.color row) (ClassroomPatch.color data))
    (default (Classroom.minAgeMonths row) (ClassroomPatch.minAgeMonths data))
    (default (Classroom.maxAgeMonths row) (ClassroomPatch.maxAgeMonths data))
    (default (Classroom.capacity row) (ClassroomPatch.capacity data))
    (default (Classroom.ratio row) (ClassroomPatch.ratio data)).

(** [db.update(classrooms).set(data).where(eq(classrooms.id, id)).returning()],
    of which the first row is returned.  An [UPDATE] needs at least one
    assignment: [set] throws [Error("No values to set")] for a [data] without
    any key, before a statement is issued.  Otherwise the statement is
    [UPDATE classrooms SET ... WHERE id = $1 RETURNING *]: the new version of
    an updated row is written after the rows of the table, so that the row is
    read last from then on. *)
Definition updateClassroom (id : Z) (data : ClassroomPatch.t) (db : Db)
    : outcome (option Classroom.t) * Db :=
  if ClassroomPatch.is_empty data then (Thrown "No values to set", db)
  else
    let returning :=
      applyPatch data <$> filter (λ row, Classroom.id row = id) (classrooms_table db) in
    let table :=
      filter (λ row, Classroom.id row ≠ id) (classrooms_table db) ++ returning in
    (Returned (head returning), mkDb table (classrooms_id_seq db)).

(** ** Routes (server/routes.ts) *)

Inductive payload :=
  | ClassroomJson (c : Classroom.t)
  | MessageJson (message : string)
  | ZodErrorJson.          (* [{ message: parsed.error.message }] *)

Record response := mkResponse {
  status : Z;
  body : payload
}.

(** The error with which PostgreSQL refuses a number that is not a 4-byte
    integer as the value of an [integer] column (its text, which quotes the
    number, is abridged).  The statement has no effect. *)
Definition integer_error : string := "error: invalid input for type integer".

(** [app.post("/api/classrooms", ...)]: an error thrown by the storage call
    rejects the handler's promise, and no response is sent. *)
Definition postClassroom (int4_checked : bool) (reqBody : json) (db : Db)
    : outcome response * Db :=
  match insertClassroomSchema int4_checked reqBody with
  | None => (Returned (mkResponse 400 ZodErrorJson), db)
  | Some Unstorable => (Thrown integer_error, db)
  | Some (Storable data) =>
      let '(classroom, db) := createClassroom data db in
      (Returned (mkResponse 201 (ClassroomJson classroom)), db)
  end.

Section Routes.
(** [parseInt(req.params.id)], [None] for [NaN]. *)
Variable parseInt : string → option Z.
Variable int4_checked : bool.

(** [app.patch("/api/classrooms/:id", ...)]: an error thrown by the storage
    call rejects the handler's promise. *)
Definition patchClassroom (idParam : string) (reqBody : json) (db : Db)
    : outcome response * Db :=
  match parseInt idParam with
  | None => (Returned (mkResponse 400 (MessageJson "Invalid id")), db)
  | Some id =>
      match insertClassroomSchema_partial int4_checked reqBody with
      | None => (Returned (mkResponse 400 ZodErrorJson), db)
      | Some Unstorable => (Thrown integer_error, db)
      | Some (Storable data) =>
          match updateClassroom id data db with
          | (Thrown msg, db) => (Thrown msg, db)
          | (Returned None, db) => (Returned (mkResponse 404 (MessageJson "Not found")), db)
          | (Returned (Some updated), db) => (Returned (mkResponse 200 (ClassroomJson updated)), db)
          end
      end
  end.
End Routes.

(** ** The classroom cards and roster rows (client/src/pages/Dashboard.tsx) *)

(** [formatAgeInMonths] on an integer number of months. *)
Definition formatAgeInMonths (totalMonths : Z) : string :=
  if bool_decide (totalMonths < 12) then pretty totalMonths +:+ " mos"
  else
    let years := totalMonths `div` 12 in
    let months := totalMonths `mod` 12 in
    if bool_decide (months = 0) then
      pretty years +:+ " year" +:+ (if bool_decide (1 < years) then "s" else "")
    else
      pretty years +:+ " year" +:+ (if bool_decide (1 < years) then "s" else "")
        +:+ " + " +:+ pretty months +:+ " mos".

Definition getCapacityColor (enrolled capacity : Z) : string :=
  let ratio := js_div enrolled capacity in
  if quot_gtb ratio 1 then "text-destructive font-bold"
  else if quot_geb ratio (9 # 10) then "text-orange-500 font-medium"
  else if quot_leb ratio (1 # 2) then "text-primary font-medium"
  else "text-muted-foreground".

(** [const isOverCapacity = enrolledCount > classroom.capacity] *)
Definition isOverCapacity (stats : gmap Z ClassStats.t) (c : Classroom.t) : bool :=
  bool_decide (Classroom.capacity c < enrolledCount stats c).

(** The status line of a classroom card. *)
Definition statusMessage (stats : gmap Z ClassStats.t) (c : Classroom.t) : string :=
  let enrolledCount := enrolledCount stats c in
  if isOverCapacity stats c then
    "Over capacity by " +:+ pretty (enrolledCount - Classroom.capacity c)
  else if bool_decide (Classroom.capacity c - enrolledCount ≤ 2) then
    "Only " +:+ pretty (Classroom.capacity c - enrolledCount) +:+ " spot"
      +:+ (if bool_decide (Classroom.capacity c - enrolledCount ≠ 1) then "s" else "")
      +:+ " left"
  else pretty (Classroom.capacity c - enrolledCount) +:+ " vacancies available".

Section RosterRow.
Context {Date : Type}.
Variable parseISO : string → Date.
Variable differenceInMonths : Date → Date → option Z.
Variable classrooms : list Classroom.t.
Variable forecastDate : Date.

(** [const monthsToGraduation = classroom.maxAgeMonths - ageInMonths] *)
Definition monthsToGraduation (classroom : Classroom.t) (child : Child.t) : option Z :=
  (λ ageInMonths, Classroom.maxAgeMonths classroom - ageInMonths)
    <$> getChildAgeInMonths parseISO differenceInMonths (Child.birthDate child) forecastDate.

(** [const isGraduatingSoon = monthsToGraduation <= 2] *)
Definition isGraduatingSoon (classroom : Classroom.t) (child : Child.t) : bool :=
  match monthsToGraduation classroom child with
  | Some m => bool_decide (m ≤ 2)
  | None => false
  end.

(** The text of the badge [isGraduatingSoon && index < classrooms.length - 1 && ...]
    of a row in the card at position [index]: [None] when the badge is not
    rendered; reading [.name] of a missing [classrooms[index+1]] throws. *)
Definition moveTooltip (index : nat) (classroom : Classroom.t) (child : Child.t)
    : outcome (option string) :=
  if isGraduatingSoon classroom child
     && bool_decide (Z.of_nat index < Z.of_nat (length classrooms) - 1) then
    match classrooms !! S index with
    | Some next =>
        let m := default 0 (monthsToGraduation classroom child) in
        Returned (Some ("Moves to " +:+ Classroom.name next +:+ " in " +:+ pretty m
                          +:+ " month" +:+ (if bool_decide (m ≠ 1) then "s" else "")))
    | None => Thrown "TypeError: Cannot read properties of undefined (reading 'name')"
    end
  else Returned None.

End RosterRow.

Section Search.
(** [String.prototype.toLowerCase] and [String.prototype.includes]:
    [includes s t] is whether [t] occurs in [s]. *)
Variable toLowerCase : string → string.
Variable includes : string → string → bool.

(** [child => !searchQuery || child.name.toLowerCase().includes(searchQuery.toLowerCase())];
    the empty string is the only query that is falsy. *)
Definition matchesSearch (searchQuery : string) (child : Child.t) : bool :=
  bool_decide (searchQuery = "")
  || includes (toLowerCase (Child.name child)) (toLowerCase searchQuery).

(** The rows of a card's roster: [stats.enrolled.filter(...)]. *)
Definition rosterRows (searchQuery : string) (stats : ClassStats.t) : list Child.t :=
  filter (λ child, matchesSearch searchQuery child = true) (ClassStats.enrolled stats).
End Search.

(** ** Storage and routes, continued (server/storage.ts, server/routes.ts) *)

(** [SELECT * FROM classrooms WHERE id = $1], of which the first row. *)
Definition getClassroom (id : Z) (db : Db) : option Classroom.t :=
  head (filter (λ row, Classroom.id row = id) (classrooms_table db)).

(** [DELETE FROM classrooms WHERE id = $1 RETURNING *]; [result.length > 0]. *)
Definition deleteClassroom (id : Z) (db : Db) : bool * Db :=
  let result := filter (λ row, Classroom.id row = id) (classrooms_table db) in
  (bool_decide (0 < length result)%nat,
   mkDb (filter (λ row, Classroom.id row ≠ id) (classrooms_table db)) (classrooms_id_seq db)).

(** What a handler sends: [res.status(s).json(body)] or [res.status(s).send()]. *)
Inductive reply :=
  | SendJson (r : response)
  | SendEmpty (status : Z).


Section MoreRoutes.
Variable parseInt : string → option Z.

(** [app.delete("/api/classrooms/:id", ...)] *)
Definition deleteClassroomRoute (idParam : string) (db : Db) : reply * Db :=
  match parseInt idParam with
  | None => (SendJson (mkResponse 400 (MessageJson "Invalid id")), db)
  | Some id =>
      let '(deleted, db') := deleteClassroom id db in
      if deleted then (SendEmpty 204, db')
      else (SendJson (mkResponse 404 (MessageJson "Not found")), db')
  end.
End MoreRoutes.

(** The [children] table. *)
Module InsertChild.
Record t := mk {
  name : string;
  birthDate : string;
  enrollmentDate : string
}.
End InsertChild.

(** [insertChildSchema.safeParse(body)]: three required [text] columns. *)
Definition insertChildSchema (body : json) : option InsertChild.t :=
  match body with
  | JObject fields =>
      name ← field "name" fields ≫= text_column;
      birthDate ← field "birthDate" fields ≫= text_column;
      enrollmentDate ← field "enrollmentDate" fields ≫= text_column;
      Some (InsertChild.mk name birthDate enrollmentDate)
  | _ => None
  end.

Record ChildDb := mkChildDb {
  children_table : list Child.t;
  children_id_seq : Z
}.

Definition createChild (child : InsertChild.t) (db : ChildDb) : Child.t * ChildDb :=
  let created :=
    Child.mk (children_id_seq db) (InsertChild.name child) (InsertChild.birthDate child)
      (InsertChild.enrollmentDate child) in
  (created, mkChildDb (children_table db ++ [created]) (children_id_seq db + 1)).

(** The body of a 201 or a 400 of [app.post("/api/children", ...)]. *)
Inductive child_payload :=
  | ChildJson (c : Child.t)
  | ChildZodErrorJson.

(** [app.post("/api/children", ...)] *)
Definition postChild (reqBody : json) (db : ChildDb) : (Z * child_payload) * ChildDb :=
  match insertChildSchema reqBody with
  | None => ((400, ChildZodErrorJson), db)
  | Some data =>
      let '(child, db) := createChild data db in
      ((201, ChildJson child), db)
  end.

(** ** Seeding (server/seed.ts) *)

Definition CLASSROOMS_DATA : list InsertClassroom.t :=
  [ InsertClassroom.mk "Infants" "bg-blue-100 text-blue-700 border-blue-200" 0 12 8 "1:4";
    InsertClassroom.mk "Wobblers" "bg-green-100 text-green-700 border-green-200" 12 24 10 "1:5";
    InsertClassroom.mk "Toddlers" "bg-yellow-100 text-yellow-700 border-yellow-200" 24 36 14 "1:7";
    InsertClassroom.mk "Preschool" "bg-orange-100 text-orange-700 border-orange-200" 36 48 20
      "1:10";
    InsertClassroom.mk "Pre-K" "bg-pink-100 text-pink-700 border-pink-200" 48 60 24 "1:12" ].

Definition firstNames : list string :=
  [ "Emma"; "Liam"; "Olivia"; "Noah"; "Ava"; "Oliver"; "Isabella"; "Elijah"; "Sophia";
    "Lucas"; "Mia"; "Mason"; "Amelia"; "Logan"; "Harper" ].

Definition lastNames : list string :=
  [ "Smith"; "Johnson"; "Williams"; "Brown"; "Jones"; "Garcia"; "Miller"; "Davis";
    "Rodriguez"; "Martinez" ].

(** [s.charAt(0)] *)
Definition charAt0 (s : string) : string :=
  match s with
  | String a _ => String a ""
  | EmptyString => ""
  end.

(** [arr[i]] for an integer [i]: [undefined] outside of the array. *)
Definition array_get {A} (arr : list A) (i : Z) : option A :=
  if bool_decide (0 ≤ i) then arr !! Z.to_nat i else None.

(** [db.insert(classrooms).values(rows)]: the rows get consecutive ids. *)
Definition insertClassrooms (rows : list InsertClassroom.t) (db : Db) : Db :=
  foldl (λ db row, (createClassroom row db).2) db rows.

Definition insertChildren (rows : list InsertChild.t) (db : ChildDb) : ChildDb :=
  foldl (λ db row, (createChild row db).2) db rows.

Section Seed.
Context {Date : Type}.
Variable addMonths : Date → Z → Date.
(** [format d "yyyy-MM-dd"] *)
Variable formatYMD : Date → string.
(** The successive values of [Math.random()], each a binary64 number in
    [0, 1), as rationals. *)
Variable random : nat → Q.
(** [new Date()] *)
Variable today : Date.

(** [rng(max)] on the [n]-th value of [Math.random()]:
    [Math.floor(Math.random() * max)].  The product is taken exactly; the
    binary64 product is the nearest number to it, which for [max] below
    [2^53] is in [0, max) as well. *)
Definition rng (n : nat) (max : Z) : Z := Qfloor (random n * inject_Z max).

(** One pass of the loop of [generateChildren], the first of its four random
    values being the [n]-th.  Reading [.charAt] of a missing [lastNames[i]]
    throws; a missing [firstNames[i]] is printed as [undefined]. *)
Definition generateChild (n : nat) : outcome InsertChild.t :=
  let ageInMonths := rng n 58 + 1 in
  let birthDate := addMonths today (- ageInMonths) in
  let firstName :=
    default "undefined" (array_get firstNames (rng (n + 1) (Z.of_nat (length firstNames)))) in
  match array_get lastNames (rng (n + 2) (Z.of_nat (length lastNames))) with
  | None => Thrown "TypeError: Cannot read properties of undefined (reading 'charAt')"
  | Some lastName =>
      Returned (InsertChild.mk (firstName +:+ " " +:+ charAt0 lastName +:+ ".")
                  (formatYMD birthDate)
                  (formatYMD (addMonths birthDate (rng (n + 3) 6 + 3))))
  end.

(** [for (let i = 0; i < 55; i++) { ... result.push(...) }], with [count]
    passes left and [n] values of [Math.random()] used. *)
Fixpoint generateLoop (count n : nat) (result : list InsertChild.t)
    : outcome (list InsertChild.t) :=
  match count with
  | O => Returned result
  | S count' =>
      match generateChild n with
      | Returned child => generateLoop count' (n + 4) (result ++ [child])
      | Thrown msg => Thrown msg
      end
  end.

Definition generateChildren : outcome (list InsertChild.t) := generateLoop 55 0 [].

(** [seed()] on the two tables: the classrooms are inserted before the
    children are generated. *)
Definition seed (db : Db * ChildDb) : outcome () * (Db * ChildDb) :=
  let existingClassrooms := getClassrooms db.1 in
  if bool_decide (0 < length existingClassrooms)%nat then (Returned (), db)
  else
    let classrooms_db := insertClassrooms CLASSROOMS_DATA db.1 in
    match generateChildren with
    | Returned rows => (Returned (), (classrooms_db, insertChildren rows db.2))
    | Thrown msg => (Thrown msg, (classrooms_db, db.2))
    end.

End Seed.

(** The sum of a list of integers. *)
Definition Zsum (l : list Z) : Z := foldr Z.add 0 l.

(** ** The percentage as the specification words it

    [round(100 × total enrolled / total capacity)], on the exact quotient and
    with ties rounded up as [Math.round] does; undefined for a zero capacity. *)
Definition spec_percentage (totalEnrolled totalCapacity : Z) : option Z :=
  if totalCapacity =? 0 then None
  else
    let n := 100 * totalEnrolled * Z.sgn totalCapacity in
    let d := Z.abs totalCapacity in
    Some ((2 * n + d) / (2 * d)).

(** ** A calendar to run the engine on

    A stand-in for date-fns on plain year-month-day dates ([None] is an Invalid
    Date), used to evaluate the engine on concrete inputs only: the
    theorems hold for every [parseISO], [differenceInMonths], [addMonths] and
    [format]. *)
Module Calendar.

Definition date : Type := option (Z * Z * Z).

Definition digit (a : ascii) : option Z :=
  let n := Z.of_N (N_of_ascii a) - 48 in
  if bool_decide (0 ≤ n ≤ 9) then Some n else None.

Definition number (l : list ascii) : option Z :=
  foldl (λ acc a, n ← acc; d ← digit a; Some (10 * n + d)) (Some 0) l.

Definition isLeap (y : Z) : bool :=
  bool_decide (y mod 4 = 0 ∧ (y mod 100 ≠ 0 ∨ y mod 400 = 0)).

Definition daysInMonth (y m : Z) : Z :=
  if bool_decide (m = 2) then (if isLeap y then 29 else 28)
  else if bool_decide (m ∈ [4; 6; 9; 11]) then 30 else 31.

(** [YYYY-MM-DD] *)
Definition parseISO (s : string) : date :=
  match list_ascii_of_string s with
  | [y1; y2; y3; y4; "-"; m1; m2; "-"; d1; d2]%char =>
      y ← number [y1; y2; y3; y4];
      m ← number [m1; m2];
      d ← number [d1; d2];
      if bool_decide (1 ≤ m ≤ 12 ∧ 1 ≤ d ≤ daysInMonth y m) then Some (y, m, d) else None
  | _ => None
  end.

(** Whole months from [dateRight] to [dateLeft], truncated towards zero. *)
Definition differenceInMonths (dateLeft dateRight : date) : option Z :=
  '(yl, ml, dl) ← dateLeft;
  '(yr, mr, dr) ← dateRight;
  let months := (yl - yr) * 12 + (ml - mr) in
  Some (if bool_decide (0 < months ∧ dl < dr) then months - 1
        else if bool_decide (months < 0 ∧ dr < dl) then months + 1
        else months).

Definition addMonths (d : date) (amount : Z) : date :=
  '(y, m, day) ← d;
  let total := y * 12 + (m - 1) + amount in
  let y' := total `div` 12 in
  let m' := total `mod` 12 + 1 in
  Some (y', m', Z.min day (daysInMonth y' m')).

Definition monthName (m : Z) : string :=
  default "" (["Jan"; "Feb"; "Mar"; "Apr"; "May"; "Jun"; "Jul"; "Aug"; "Sep"; "Oct"; "Nov"; "Dec"]
                !! Z.to_nat (m - 1)).

(** ["MMM yy"] *)
Definition format (d : date) : string :=
  match d with
  | Some (y, m, _) =>
      let yy := y `mod` 100 in
      monthName m +:+ " " +:+ (if bool_decide (yy < 10) then "0" else "") +:+ pretty yy
  | None => "Invalid Date"
  end.

(** ["yyyy-MM-dd"] *)
Definition formatYMD (d : date) : string :=
  match d with
  | Some (y, m, day) =>
      pretty y +:+ "-" +:+ (if bool_decide (m < 10) then "0" else "") +:+ pretty m
        +:+ "-" +:+ (if bool_decide (day < 10) then "0" else "") +:+ pretty day
  | None => "Invalid Date"
  end.

End Calendar.

Definition infants : Classroom.t := Classroom.mk 1 "Infants" "bg-blue-100" 0 12 8 "1:4".
Definition wobblers : Classroom.t := Classroom.mk 2 "Wobblers" "bg-green-100" 12 24 2 "1:5".
Definition toddlers : Classroom.t := Classroom.mk 3 "Toddlers" "bg-yellow-100" 24 36 2 "1:7".

Definition sample_classrooms : list Classroom.t := [infants; wobblers; toddlers].

Definition emma : Child.t := Child.mk 1 "Emma S." "2024-07-10" "2024-10-10".

(** On [sample_date] the ages are 11, 22, 13, 24, 65, 30 and 30 months. *)
Definition sample_children : list Child.t :=
  [ emma;
    Child.mk 2 "Liam J." "2023-08-05" "2023-12-05";
    Child.mk 3 "Olivia W." "2024-05-01" "2024-08-01";
    Child.mk 4 "Noah B." "2023-05-20" "2023-09-20";
    Child.mk 5 "Ava J." "2020-01-05" "2020-05-05";
    Child.mk 6 "Oliver G." "2022-11-30" "2023-02-28";
    Child.mk 7 "Mia M." "2022-12-01" "2023-03-01" ].

Definition sample_date : Calendar.date := Some (2025, 6, 10).

(** One classroom of 40 seats and 23 children of 17 months on [sample_date]. *)
Definition one_room : list Classroom.t :=
  [ Classroom.mk 1 "Toddlers" "bg-yellow-100" 12 36 40 "1:7" ].

Definition crowd : list Child.t :=
  (λ i, Child.mk i "Emma S." "2024-01-10" "2024-04-10") <$> seqZ 1 23.


(** Requests to run the routes on. *)
Definition zero_capacity_body : json :=
  JObject [ ("name", JString "Infants"); ("color", JString "bg-blue-100");
            ("minAgeMonths", JInt 0); ("maxAgeMonths", JInt 12);
            ("capacity", JInt 0); ("ratio", JString "1:4") ].

Definition negative_capacity_body : json :=
  JObject [ ("name", JString "Infants"); ("color", JString "bg-blue-100");
            ("minAgeMonths", JInt 0); ("maxAgeMonths", JInt 12);
            ("capacity", JInt (-5)); ("ratio", JString "1:4") ].

Definition fractional_capacity_body : json :=
  JObject [ ("name", JString "Infants"); ("color", JString "bg-blue-100");
            ("minAgeMonths", JInt 0); ("maxAgeMonths", JInt 12);
            ("capacity", JFraction); ("ratio", JString "1:4") ].

Definition rename_body : json := JObject [ ("name", JString "Babies"); ("id", JInt 99) ].

Definition rename_patch : ClassroomPatch.t :=
  ClassroomPatch.mk (Some "Babies") None None None None None.

Definition empty_db : Db := mkDb [] 1.

Definition sample_db : Db := mkDb sample_classrooms 4.

(** [parseInt] on a string of decimal digits. *)
Definition decimal (s : string) : option Z :=
  if bool_decide (s = "") then None else Calendar.number (list_ascii_of_string s).

(** Whether the binary64 quotient [e / c] compares with the literals [1],
    [0.9] and [0.6] as [js_div e c] does. *)
#[warnings="-inexact-float"]
Definition ratio_binary64_agrees (e c : Z) : bool :=
  let r := (Z2F e / Z2F c)%float in
  let q := js_div e c in
  bool_decide ((1 <? r)%float = quot_gtb q 1)
  && bool_decide ((0.9 <=? r)%float = quot_geb q (9 # 10))
  && bool_decide ((r <=? 0.6)%float = quot_leb q (6 # 10)).

(** Whether [Math.round((e / c) * 100)] is an integer nearest to [100 e / c]. *)
Definition percentage_is_nearest (e c : Z) : bool :=
  match Math_round (Z2F e / Z2F c * Z2F 100)%float with
  | RInt p => bool_decide (Z.abs (2 * c * p - 200 * e) ≤ c)
  | _ => false
  end.

(** Stand-ins for [toLowerCase] and [includes] on strings of ASCII
    characters, to evaluate the search on concrete names. *)
Definition ascii_toLowerCase (s : string) : string :=
  string_of_list_ascii
    ((λ a, let n := N_of_ascii a in
           if bool_decide (65 ≤ n ≤ 90)%N then ascii_of_N (n + 32) else a)
       <$> list_ascii_of_string s).

Fixpoint starts_with (t s : string) : bool :=
  match t, s with
  | EmptyString, _ => true
  | String a t', String b s' => bool_decide (a = b) && starts_with t' s'
  | String _ _, EmptyString => false
  end.

Fixpoint ascii_includes (s t : string) : bool :=
  starts_with t s
  || match s with
     | String _ s' => ascii_includes s' t
     | EmptyString => false
     end.

(** Whether no character of [s] is a space. *)
Fixpoint spaceless (s : string) : bool :=
  match s with
  | EmptyString => true
  | String a s' => negb (Ascii.eqb a " ") && spaceless s'
  end.

(** The sample children under other ids, names and enrollment dates. *)
Definition renamed_children : list Child.t :=
  (λ ch, Child.mk (Child.id ch + 100) "Anonymous" (Child.birthDate ch) "2025-01-01")
    <$> sample_children.

Definition next_month : Calendar.date := Some (2025, 7, 10).

Definition undated_child_fields : list (string * json) :=
  [ ("name", JString "Zoe K."); ("birthDate", JString "next spring");
    ("enrollmentDate", JString "2025-01-01") ].

Definition sample_child_db : ChildDb := mkChildDb sample_children 8.


(** Four months after [sample_date]: Oliver and Mia are 34 months old. *)
Definition autumn_date : Calendar.date := Some (2025, 10, 10).

(** A stream of values of [Math.random()] to run the seeding on. *)
Definition sample_random (n : nat) : Q := Z.of_nat ((37 * n + 11) mod 100) # 100.

(** Whether the binary64 quotient [e / c] compares with the literal [0.5] of
    [getCapacityColor] as [js_div e c] does. *)
Definition half_binary64_agrees (e c : Z) : bool :=
  bool_decide ((Z2F e / Z2F c <=? 0.5)%float = quot_leb (js_div e c) (1 # 2)).

(** * Properties *)

(** ** Lists and dictionaries *)

Lemma find_first {A} (f : A → bool) (l : list A) (x : A) :
  find f l = Some x ↔
  ∃ l1 l2, l = l1 ++ x :: l2 ∧ f x = true ∧ Forall (λ y, f y = false) l1.
Proof.
  induction l as [|y l IH]; simpl.
  - split; [done|]. intros (l1 & l2 & Hl & _). by destruct l1.
  - destruct (f y) eqn:Hy.
    + split.
      * intros [= ->]. by exists [], l.
      * intros (l1 & l2 & Hl & Hx & Hl1). destruct l1 as [|z l1]; simpl in Hl.
        -- by injection Hl as -> _.
        -- injection Hl as -> _. apply Forall_cons in Hl1 as [Hz _]. congruence.
    + rewrite IH. split.
      * intros (l1 & l2 & -> & Hx & Hl1). exists (y :: l1), l2. by repeat split; [|constructor].
      * intros (l1 & l2 & Hl & Hx & Hl1). destruct l1 as [|z l1]; simpl in Hl.
        -- injection Hl as -> _. congruence.
        -- injection Hl as -> ->. apply Forall_cons in Hl1 as [_ Hl1]. by exists l1, l2.
Qed.


Lemma find_id_NoDup (cls : list Classroom.t) (c : Classroom.t) :
  NoDup (Classroom.id <$> cls) → c ∈ cls →
  find (λ c', Classroom.id c' =? Classroom.id c) cls = Some c.
Proof.
  induction cls as [|c' cls IH]; simpl; intros Hnd Hin; [by apply elem_of_nil in Hin|].
  apply NoDup_cons in Hnd as [Hnotin Hnd].
  apply elem_of_cons in Hin as [->|Hin]; [by rewrite Z.eqb_refl|].
  destruct (Z.eqb_spec (Classroom.id c') (Classroom.id c)) as [Heq|_]; [|by apply IH].
  exfalso. apply Hnotin. rewrite Heq. by apply list_elem_of_fmap_2.
Qed.

(** [cls.forEach(c => { o[c.id] = v })] *)
Lemma foldl_init_lookup {V} (v : V) (cls : list Classroom.t) (o : gmap Z V) (k : Z) :
  foldl (λ o c, <[Classroom.id c := v]> o) o cls !! k
  = if decide (k ∈ Classroom.id <$> cls) then Some v else o !! k.
Proof.
  revert o. induction cls as [|c cls IH]; intros o.
  - rewrite decide_False; [done|]. rewrite fmap_nil. apply not_elem_of_nil.
  - rewrite fmap_cons. cbn [foldl]. rewrite IH.
    destruct (decide (k ∈ Classroom.id <$> cls)) as [Hin|Hnin].
    + rewrite decide_True; [done|]. apply elem_of_cons. by right.
    + destruct (decide (Classroom.id c = k)) as [<-|Hne].
      * rewrite lookup_insert_eq, decide_True; [done|]. apply elem_of_cons. by left.
      * rewrite lookup_insert_ne by done. rewrite decide_False; [done|].
        intros [?|?]%elem_of_cons; congruence.
Qed.

Lemma head_fmap {A B} (f : A → B) (l : list A) : head (f <$> l) = f <$> head l.
Proof. by destruct l. Qed.

Lemma filter_all {A} (P : A → Prop) `{!∀ x, Decision (P x)} (l : list A) :
  (∀ x, x ∈ l → P x) → filter P l = l.
Proof.
  induction l as [|x l IH]; intros HP; [done|].
  rewrite filter_cons, decide_True by (apply HP, elem_of_cons; by left).
  f_equal. apply IH. intros y Hy. apply HP, elem_of_cons. by right.
Qed.

Lemma filter_none {A} (P : A → Prop) `{!∀ x, Decision (P x)} (l : list A) :
  (∀ x, x ∈ l → ¬ P x) → filter P l = [].
Proof.
  induction l as [|x l IH]; intros HP; [done|].
  rewrite filter_cons, decide_False by (apply HP, elem_of_cons; by left).
  apply IH. intros y Hy. apply HP, elem_of_cons. by right.
Qed.

Lemma bool_of_iff (b : bool) (P : Prop) `{!Decision P} :
  (b = true ↔ P) → b = bool_decide P.
Proof.
  intros HP. destruct b; symmetry.
  - by apply bool_decide_eq_true, HP.
  - apply bool_decide_eq_false. by intros HP'%HP.
Qed.

(** ** [Array.prototype.sort] *)

Section SortFacts.
Context {A : Type} (compareFn : A → A → Z).

Lemma sort_insert_Permutation (x : A) (l : list A) :
  sort_insert compareFn x l ≡ₚ x :: l.
Proof.
  induction l as [|y l IH]; simpl; [done|].
  case_bool_decide; [done|]. rewrite IH. apply Permutation_swap.
Qed.

Lemma array_sort_Permutation (l : list A) : array_sort compareFn l ≡ₚ l.
Proof.
  induction l as [|x l IH]; simpl; [done|].
  by rewrite sort_insert_Permutation, IH.
Qed.

(** A comparator that subtracts keys sorts by descending key. *)
Lemma sort_insert_sorted (key : A → Z) (x : A) (l : list A) :
  (∀ y, y ∈ l → compareFn x y = key y - key x) →
  StronglySorted (λ a b, key b ≤ key a) l →
  StronglySorted (λ a b, key b ≤ key a) (sort_insert compareFn x l).
Proof.
  induction l as [|y l IH]; simpl; intros Hcmp Hl.
  - repeat constructor.
  - apply StronglySorted_inv in Hl as [Hl Hy].
    assert (compareFn x y = key y - key x) as Hxy by (apply Hcmp, elem_of_cons; by left).
    case_bool_decide as Hle.
    + constructor; [by constructor|].
      constructor; [lia|]. eapply Forall_impl; [exact Hy|]. simpl. lia.
    + constructor.
      * apply IH; [|done]. intros z Hz. apply Hcmp, elem_of_cons. by right.
      * rewrite sort_insert_Permutation. constructor; [lia|done].
Qed.

Lemma array_sort_sorted (key : A → Z) (l : list A) :
  (∀ x y, x ∈ l → y ∈ l → compareFn x y = key y - key x) →
  StronglySorted (λ a b, key b ≤ key a) (array_sort compareFn l).
Proof.
  induction l as [|x l IH]; simpl; intros Hcmp; [constructor|].
  apply sort_insert_sorted.
  - intros y Hy. rewrite array_sort_Permutation in Hy.
    apply Hcmp; apply elem_of_cons; auto.
  - apply IH. intros y z Hy Hz. apply Hcmp; apply elem_of_cons; auto.
Qed.

End SortFacts.

Lemma StronglySorted_lookup {A} (R : relation A) (l : list A) (i j : nat) (a b : A) :
  StronglySorted R l → (i < j)%nat → l !! i = Some a → l !! j = Some b → R a b.
Proof.
  intros Hl. revert i j. induction Hl as [|x l Hl IH Hx]; intros i j Hij Hi Hj; [done|].
  destruct j as [|j]; [lia|]. simpl in Hj. destruct i as [|i]; simpl in Hi.
  - injection Hi as <-. eapply Forall_forall in Hx; [done|]. by eapply list_elem_of_lookup_2.
  - apply (IH i j); [lia|done..].
Qed.

(** ** Sums *)

Lemma Zsum_cons (x : Z) (l : list Z) : Zsum (x :: l) = x + Zsum l.
Proof. done. Qed.


#[global] Instance Zsum_Permutation : Proper ((≡ₚ) ==> (=)) Zsum.
Proof. induction 1; rewrite ?Zsum_cons; lia. Qed.

Lemma Zsum_zero {A} (l : list A) : Zsum ((λ _, 0) <$> l) = 0.
Proof. induction l as [|x l IH]; [done|]. by rewrite fmap_cons, Zsum_cons, IH. Qed.

(** [l.reduce((sum, x) => sum + g(x), a)] *)
Lemma foldl_add_Zsum {A} (g : A → Z) (l : list A) (a : Z) :
  foldl (λ sum x, sum + g x) a l = a + Zsum (g <$> l).
Proof.
  revert a. induction l as [|x l IH]; intros a; [cbn; lia|].
  cbn [foldl]. rewrite IH, fmap_cons, Zsum_cons. lia.
Qed.

Lemma Zsum_fmap_add {A} (g h : A → Z) (l : list A) :
  Zsum ((λ x, g x + h x) <$> l) = Zsum (g <$> l) + Zsum (h <$> l).
Proof.
  induction l as [|x l IH]; [done|]. rewrite !fmap_cons, !Zsum_cons, IH. lia.
Qed.

Lemma Zsum_fmap_ext {A} (g h : A → Z) (l : list A) :
  (∀ x, x ∈ l → g x = h x) → Zsum (g <$> l) = Zsum (h <$> l).
Proof.
  induction l as [|x l IH]; intros Hgh; [done|].
  rewrite !fmap_cons, !Zsum_cons, IH, Hgh; [done|apply elem_of_cons; by left|].
  intros y Hy. apply Hgh, elem_of_cons. by right.
Qed.

Lemma Zsum_indicator_le_1 (o : option Z) (ks : list Z) :
  NoDup ks → 0 ≤ Zsum ((λ k, if decide (o = Some k) then 1 else 0) <$> ks) ≤ 1.
Proof.
  induction ks as [|k ks IH]; intros Hnd; [cbn; lia|].
  apply NoDup_cons in Hnd as [Hk Hnd]. specialize (IH Hnd).
  rewrite fmap_cons, Zsum_cons. case_decide as Ho; [|lia].
  rewrite (Zsum_fmap_ext _ (λ _, 0)); [rewrite Zsum_zero; lia|].
  intros k' Hk'. rewrite decide_False; [done|]. intros ->. congruence.
Qed.

(** Buckets with distinct keys hold at most as many items as there are. *)
Lemma Zsum_buckets_le {A} (f : A → option Z) (ks : list Z) (l : list A) :
  NoDup ks →
  Zsum ((λ k, Z.of_nat (length (filter (λ x, f x = Some k) l))) <$> ks)
  ≤ Z.of_nat (length l).
Proof.
  intros Hnd. induction l as [|x l IH].
  - rewrite (Zsum_fmap_ext _ (λ _, 0)) by done. rewrite Zsum_zero. simpl. lia.
  - rewrite (Zsum_fmap_ext _
      (λ k, (if decide (f x = Some k) then 1 else 0)
            + Z.of_nat (length (filter (λ x, f x = Some k) l)))).
    + rewrite Zsum_fmap_add. pose proof (Zsum_indicator_le_1 (f x) ks Hnd).
      simpl length. lia.
    + intros k _. rewrite filter_cons. case_decide; simpl; lia.
Qed.

(** ** Bucketing *)

Section EngineFacts.
Context {Date : Type}.
Variable parseISO : string → Date.
Variable differenceInMonths : Date → Date → option Z.
Variable addMonths : Date → Z → Date.
Variable format : Date → string.

Local Abbreviation age ch d := (getChildAgeInMonths parseISO differenceInMonths (Child.birthDate ch) d).
Local Abbreviation classroomOf := (getClassroomForChild parseISO differenceInMonths).
Local Abbreviation assigned := (assignedTo parseISO differenceInMonths).
Local Abbreviation within := (graduatesWithin parseISO differenceInMonths).
Local Abbreviation bucket := (bucketChild parseISO differenceInMonths).
Local Abbreviation forecast := (forecastStats parseISO differenceInMonths).
Local Abbreviation trend := (trendData parseISO differenceInMonths addMonths format).
Local Abbreviation ids cls := (Classroom.id <$> cls).

Lemma inBand_spec (a : option Z) (c : Classroom.t) :
  inBand a c = true ↔
  ∃ n, a = Some n ∧ Classroom.minAgeMonths c ≤ n < Classroom.maxAgeMonths c.
Proof.
  unfold inBand, num_geb, num_ltb. destruct a as [n|]; simpl.
  - rewrite andb_true_iff, !bool_decide_eq_true. split.
    + intros [? ?]. exists n. split; [done|lia].
    + intros (? & [= <-] & ?). lia.
  - split; [done|]. by intros (? & ? & _).
Qed.

Lemma classroomOf_Some (cls : list Classroom.t) (d : Date) (ch : Child.t) (k : Z) :
  classroomOf ch d cls = Some k ↔
  ∃ c, find (inBand (age ch d)) cls = Some c ∧ Classroom.id c = k.
Proof.
  unfold getClassroomForChild, getChildAgeInMonths.
  destruct (find _ cls) as [c|]; split.
  - intros [= <-]. by exists c.
  - by intros (? & [= <-] & <-).
  - done.
  - by intros (? & ? & _).
Qed.

Lemma classroomOf_in_ids (cls : list Classroom.t) (d : Date) (ch : Child.t) (k : Z) :
  classroomOf ch d cls = Some k → k ∈ ids cls.
Proof.
  intros (c & Hfind & <-)%classroomOf_Some.
  apply find_some in Hfind as [Hin _]. apply list_elem_of_fmap_2. by apply list_elem_of_In.
Qed.

(** The effect of [children.forEach] on one entry of [stats]. *)
Lemma bucket_fold_lookup (cls : list Classroom.t) (d : Date) (chs : list Child.t)
    (stats : gmap Z ClassStats.t) (k : Z) :
  foldl (bucket cls d) stats chs !! k
  = (λ s, ClassStats.mk
            (ClassStats.enrolled s ++ filter (assigned cls d k) chs)
            (ClassStats.graduatingSoon s
               ++ filter (λ ch, assigned cls d k ch ∧ within cls d 3 k ch = true) chs)
            (ClassStats.graduatingNextMonth s
               + Z.of_nat (length (filter (λ ch, assigned cls d k ch ∧ within cls d 3 k ch = true
                                                  ∧ within cls d 1 k ch = true) chs))))
    <$> stats !! k.
Proof.
  revert stats. induction chs as [|ch chs IH]; intros stats.
  - simpl. destruct (stats !! k) as [[e g n]|]; simpl; [|done].
    by rewrite !filter_nil, !app_nil_r, Z.add_0_r.
  - cbn [foldl]. rewrite IH. clear IH.
    unfold bucketChild at 1.
    destruct (classroomOf ch d cls) as [k'|] eqn:Hk'.
    + destruct (decide (k' = k)) as [->|Hne].
      * destruct (stats !! k) as [[e g n]|] eqn:Hs; simpl; [|by rewrite Hs].
        rewrite lookup_insert_eq. simpl.
        rewrite !(filter_cons_True _ ch) by done.
        unfold graduatesWithin, monthsLeftAtMost.
        destruct (find _ cls) as [c|]; simpl.
        -- destruct (sub_num_leb _ _ 3) eqn:H3; [destruct (sub_num_leb _ _ 1) eqn:H1|]; simpl.
           ++ rewrite !filter_cons_True by done. simpl.
              rewrite <-!app_assoc. simpl. f_equal. f_equal. lia.
           ++ rewrite filter_cons_True by done.
              rewrite (filter_cons_False _ ch) by (intros (_ & _ & ?); congruence).
              by rewrite <-!app_assoc.
           ++ rewrite !filter_cons_False by (intros ?; destruct_and?; congruence).
              by rewrite <-!app_assoc.
        -- rewrite !filter_cons_False by (intros ?; destruct_and?; congruence).
           by rewrite <-!app_assoc.
      * assert (stats !! k = match stats !! k' with
                            | Some s => _ | None => stats end !! k) as <-.
        { destruct (stats !! k'); [by rewrite lookup_insert_ne|done]. }
        destruct (stats !! k) as [[e g n]|]; simpl; [|done].
        rewrite !filter_cons_False; [done|..]; unfold assignedTo; rewrite Hk'; intros ?; destruct_and?; congruence.
    + destruct (stats !! k) as [[e g n]|]; simpl; [|done].
      rewrite !filter_cons_False; [done|..]; unfold assignedTo; rewrite Hk'; intros ?; destruct_and?; congruence.
Qed.

Local Abbreviation byAge := (byAgeDescending parseISO differenceInMonths).

(** Every entry of [forecastStats], in closed form. *)
Lemma forecast_lookup (cls : list Classroom.t) (d : Date) (chs : list Child.t) (k : Z) :
  forecast cls d chs !! k
  = if decide (k ∈ ids cls) then
      Some (ClassStats.mk
              (array_sort (byAge d) (filter (assigned cls d k) chs))
              (filter (λ ch, assigned cls d k ch ∧ within cls d 3 k ch = true) chs)
              (Z.of_nat (length (filter (λ ch, assigned cls d k ch ∧ within cls d 3 k ch = true
                                               ∧ within cls d 1 k ch = true) chs))))
    else None.
Proof.
  unfold forecastStats, initStats.
  rewrite lookup_fmap, bucket_fold_lookup, foldl_init_lookup.
  case_decide; simpl; [|done]. unfold sortEnrolled. simpl. do 2 f_equal. 
Qed.

Lemma forecast_enrolled_elem (cls : list Classroom.t) (d : Date) (chs : list Child.t)
    (k : Z) (s : ClassStats.t) (ch : Child.t) :
  forecast cls d chs !! k = Some s →
  ch ∈ ClassStats.enrolled s ↔ ch ∈ chs ∧ classroomOf ch d cls = Some k.
Proof.
  rewrite forecast_lookup. case_decide; [|done]. intros [= <-]. simpl.
  rewrite array_sort_Permutation, list_elem_of_filter. unfold assignedTo.
  split; intros [? ?]; by split.
Qed.

Lemma forecast_enrolled_length (cls : list Classroom.t) (d : Date) (chs : list Child.t)
    (c : Classroom.t) :
  c ∈ cls →
  enrolledCount (forecast cls d chs) c
  = Z.of_nat (length (filter (assigned cls d (Classroom.id c)) chs)).
Proof.
  intros Hc. unfold enrolledCount, statsFor. rewrite forecast_lookup.
  rewrite decide_True by by apply list_elem_of_fmap_2.
  simpl. by rewrite array_sort_Permutation.
Qed.

Lemma assigned_age (cls : list Classroom.t) (d : Date) (k : Z) (ch : Child.t) :
  assigned cls d k ch → ∃ a, age ch d = Some a.
Proof.
  intros (c & Hfind & _)%classroomOf_Some.
  apply find_some in Hfind as [_ (a & Ha & _)%inBand_spec]. eauto.
Qed.

(** ** Assignment of a child to a classroom *)

(** C1. A child is assigned to the first classroom, in list order, whose
    half-open band [minAgeMonths, maxAgeMonths) contains the child's age in
    whole months at the target date, and is on the roster of that classroom
    only; when no band contains the age (or the age is [NaN]) the child is
    assigned to no classroom and is on no roster. *)
Theorem assignment_first_matching_band
    (cls : list Classroom.t) (chs : list Child.t) (d : Date) (ch : Child.t) :
  (∀ pre c post a,
      cls = pre ++ c :: post →
      age ch d = Some a →
      Classroom.minAgeMonths c ≤ a < Classroom.maxAgeMonths c →
      (∀ c', c' ∈ pre →
             ¬ (Classroom.minAgeMonths c' ≤ a < Classroom.maxAgeMonths c')) →
      classroomOf ch d cls = Some (Classroom.id c)
      ∧ (∃ s, forecast cls d chs !! Classroom.id c = Some s)
      ∧ (∀ k s, forecast cls d chs !! k = Some s →
                ch ∈ ClassStats.enrolled s ↔ ch ∈ chs ∧ k = Classroom.id c))
  ∧ ((∀ c a, c ∈ cls → age ch d = Some a →
             ¬ (Classroom.minAgeMonths c ≤ a < Classroom.maxAgeMonths c)) →
      classroomOf ch d cls = None
      ∧ (∀ k s, forecast cls d chs !! k = Some s → ch ∉ ClassStats.enrolled s)).
Proof.
  split.
  - intros pre c post a -> Ha Hband Hpre.
    assert (classroomOf ch d (pre ++ c :: post) = Some (Classroom.id c)) as Hassign.
    { apply classroomOf_Some. exists c. split; [|done].
      apply find_first. exists pre, post. split; [done|]. split.
      - apply inBand_spec. eauto.
      - apply Forall_forall. intros c' Hc'. apply not_true_is_false.
        intros (a' & Ha' & Hband')%inBand_spec.
        apply (Hpre c' Hc'). congruence. }
    split; [done|]. split.
    + rewrite forecast_lookup. rewrite decide_True; [eauto|].
      by eapply classroomOf_in_ids.
    + intros k s Hs. rewrite (forecast_enrolled_elem _ _ _ _ _ _ Hs), Hassign.
      split; intros [? ?]; split; congruence.
  - intros Hnone.
    assert (classroomOf ch d cls = None) as Hassign.
    { destruct (classroomOf ch d cls) as [k|] eqn:Hk; [|done].
      apply classroomOf_Some in Hk as (c & Hfind & _).
      apply find_some in Hfind as [Hin (a & Ha & Hband)%inBand_spec].
      destruct (Hnone c a); [by apply list_elem_of_In|done..]. }
    split; [done|]. intros k s Hs.
    rewrite (forecast_enrolled_elem _ _ _ _ _ _ Hs), Hassign. by intros [_ ?].
Qed.

(** ** Graduation *)

Lemma within_NoDup (cls : list Classroom.t) (d : Date) (n : Z) (c : Classroom.t) (ch : Child.t) :
  NoDup (ids cls) → c ∈ cls →
  within cls d n (Classroom.id c) ch = monthsLeftAtMost parseISO differenceInMonths d n c ch.
Proof. intros Hnd Hc. unfold graduatesWithin. by rewrite find_id_NoDup. Qed.

Lemma monthsLeftAtMost_spec (d : Date) (n : Z) (c : Classroom.t) (ch : Child.t) (a : Z) :
  age ch d = Some a →
  monthsLeftAtMost parseISO differenceInMonths d n c ch = true
  ↔ Classroom.maxAgeMonths c - a ≤ n.
Proof.
  intros Ha. unfold monthsLeftAtMost, sub_num_leb. rewrite Ha.
  apply bool_decide_eq_true.
Qed.

Local Abbreviation monthsLeft d c n :=
  (λ ch, monthsLeftAtMost parseISO differenceInMonths d n c ch = true).

(** C5. In a classroom's entry of [forecastStats] the enrolled children are
    the children of the input list whose first matching band, in list order,
    is the classroom's.  Such a child has an age inside the band, is in the
    graduating-soon list exactly when the classroom's [maxAgeMonths] minus
    that age is at most 3, and passes the next-month test exactly when the
    difference is at most 1; the graduating-soon list holds nobody else, and
    the graduating-next-month count is the number of input children placed in
    the classroom that pass the next-month test.  A child of the list aged 11
    months, with a classroom of band [0, 12) and no earlier classroom whose
    band contains 11, is enrolled there, is in its graduating-soon list, has
    one month left and is counted as graduating next month. *)
Theorem graduating_soon_and_next_month
    (cls : list Classroom.t) (chs : list Child.t) (d : Date) (c : Classroom.t) :
  NoDup (ids cls) → c ∈ cls →
  let s := statsFor (forecast cls d chs) c in
  (∀ ch, ch ∈ ClassStats.enrolled s
         ↔ ch ∈ chs ∧ classroomOf ch d cls = Some (Classroom.id c))
  ∧ (∀ ch, ch ∈ chs → classroomOf ch d cls = Some (Classroom.id c) →
       ∃ a, age ch d = Some a
            ∧ Classroom.minAgeMonths c ≤ a < Classroom.maxAgeMonths c
            ∧ (ch ∈ ClassStats.graduatingSoon s ↔ Classroom.maxAgeMonths c - a ≤ 3)
            ∧ (monthsLeft d c 1 ch ↔ Classroom.maxAgeMonths c - a ≤ 1))
  ∧ (∀ ch, ch ∈ ClassStats.graduatingSoon s → ch ∈ ClassStats.enrolled s)
  ∧ ClassStats.graduatingNextMonth s
    = Z.of_nat (length (filter (λ ch, classroomOf ch d cls = Some (Classroom.id c)
                                      ∧ monthsLeft d c 1 ch) chs))
  ∧ (∀ ch, ch ∈ ClassStats.enrolled s →
       ∃ a, age ch d = Some a
            ∧ (monthsLeft d c 3 ch ↔ Classroom.maxAgeMonths c - a ≤ 3)
            ∧ (monthsLeft d c 1 ch ↔ Classroom.maxAgeMonths c - a ≤ 1)
            ∧ (ch ∈ ClassStats.graduatingSoon s ↔ Classroom.maxAgeMonths c - a ≤ 3))
  ∧ ClassStats.graduatingNextMonth s
    = Z.of_nat (length (filter (monthsLeft d c 1) (ClassStats.enrolled s)))
  ∧ (∀ ch, ch ∈ ClassStats.enrolled s → age ch d = Some 11 →
           Classroom.maxAgeMonths c = 12 →
           ch ∈ ClassStats.graduatingSoon s
           ∧ ch ∈ filter (monthsLeft d c 1) (ClassStats.enrolled s)
           ∧ 1 ≤ ClassStats.graduatingNextMonth s)
  ∧ (∀ ch before after, ch ∈ chs → age ch d = Some 11 →
       cls = before ++ c :: after →
       Classroom.minAgeMonths c = 0 → Classroom.maxAgeMonths c = 12 →
       (∀ c', c' ∈ before →
              ¬ (Classroom.minAgeMonths c' ≤ 11 < Classroom.maxAgeMonths c')) →
       classroomOf ch d cls = Some (Classroom.id c)
       ∧ ch ∈ ClassStats.enrolled s
       ∧ ch ∈ ClassStats.graduatingSoon s
       ∧ monthsLeft d c 1 ch
       ∧ 1 ≤ ClassStats.graduatingNextMonth s).
Proof.
  intros Hnd Hc s.
  assert (s = ClassStats.mk
            (array_sort (byAge d) (filter (assigned cls d (Classroom.id c)) chs))
            (filter (λ ch, assigned cls d (Classroom.id c) ch ∧ monthsLeft d c 3 ch) chs)
            (Z.of_nat (length (filter (λ ch, assigned cls d (Classroom.id c) ch
                                             ∧ monthsLeft d c 3 ch ∧ monthsLeft d c 1 ch) chs)))) as Hs.
  { unfold s, statsFor. rewrite forecast_lookup.
    rewrite decide_True by by apply list_elem_of_fmap_2. simpl. f_equal.
    - apply list_filter_iff. intros ch. by rewrite within_NoDup.
    - do 2 f_equal. apply list_filter_iff. intros ch. by rewrite !within_NoDup. }
  assert (∀ ch, ch ∈ ClassStats.enrolled s ↔ ch ∈ chs ∧ assigned cls d (Classroom.id c) ch) as Hin.
  { intros ch. rewrite Hs. simpl. rewrite array_sort_Permutation, list_elem_of_filter.
    split; intros [? ?]; by split. }
  assert (∀ ch, assigned cls d (Classroom.id c) ch →
            ∃ a, age ch d = Some a
                 ∧ Classroom.minAgeMonths c ≤ a < Classroom.maxAgeMonths c) as Hband.
  { intros ch (c0 & Hfind & Hid)%classroomOf_Some.
    apply find_some in Hfind as [Hc0%list_elem_of_In Hb].
    assert (c0 = c) as ->.
    { pose proof (find_id_NoDup cls c0 Hnd Hc0) as H0.
      pose proof (find_id_NoDup cls c Hnd Hc) as H1.
      rewrite Hid in H0. congruence. }
    by apply inBand_spec in Hb. }
  assert (∀ ch a, age ch d = Some a → monthsLeft d c 1 ch → monthsLeft d c 3 ch) as H13.
  { intros ch a Ha. rewrite !(monthsLeftAtMost_spec _ _ _ _ _ Ha). lia. }
  assert (ClassStats.graduatingNextMonth s
          = Z.of_nat (length (filter (monthsLeft d c 1) (ClassStats.enrolled s)))) as Hcount.
  { rewrite Hs. simpl. f_equal. rewrite array_sort_Permutation, list_filter_filter.
    f_equal. apply list_filter_iff. intros ch. split; [by intros (? & ? & ?)|].
    intros [H1 Ha]. destruct (assigned_age _ _ _ _ Ha) as [a Hage]. eauto. }
  assert (∀ ch, ch ∈ ClassStats.enrolled s →
            ch ∈ ClassStats.graduatingSoon s ↔ monthsLeft d c 3 ch) as Hsoon.
  { intros ch [Hch Ha]%Hin. rewrite Hs. simpl. rewrite list_elem_of_filter.
    split; [by intros [[? ?] ?]|by intros ?]. }
  assert (∀ ch, ch ∈ ClassStats.enrolled s → age ch d = Some 11 →
            Classroom.maxAgeMonths c = 12 →
            ch ∈ ClassStats.graduatingSoon s
            ∧ ch ∈ filter (monthsLeft d c 1) (ClassStats.enrolled s)
            ∧ 1 ≤ ClassStats.graduatingNextMonth s) as Heleven.
  { intros ch Hch Ha Hmax.
    assert (monthsLeft d c 1 ch) as H1.
    { rewrite (monthsLeftAtMost_spec _ _ _ _ _ Ha). lia. }
    assert (ch ∈ filter (monthsLeft d c 1) (ClassStats.enrolled s)) as Hf
      by by apply list_elem_of_filter.
    split; [apply Hsoon; eauto|]. split; [done|].
    rewrite Hcount. apply list_elem_of_lookup in Hf as [i Hi%lookup_lt_Some]. lia. }
  split; [exact Hin|]. split.
  { intros ch Hch Ha. destruct (Hband ch Ha) as (a & Hage & Hrange).
    exists a. split; [done|]. split; [done|].
    rewrite (Hsoon ch (proj2 (Hin ch) (conj Hch Ha))).
    by rewrite !(monthsLeftAtMost_spec _ _ _ _ _ Hage). }
  split.
  { intros ch. rewrite Hs at 1. simpl. rewrite list_elem_of_filter.
    intros [[Ha _] Hch]. by apply Hin. }
  split.
  { rewrite Hs. simpl. do 2 f_equal. apply list_filter_iff. intros ch.
    split; [by intros (? & ? & ?)|].
    intros [Ha H1]. destruct (assigned_age _ _ _ _ Ha) as [a Hage]. eauto. }
  split.
  { intros ch Hch. destruct (proj1 (Hin ch) Hch) as [_ [a Ha]%assigned_age].
    exists a. split; [done|]. rewrite (Hsoon ch Hch).
    by rewrite !(monthsLeftAtMost_spec _ _ _ _ _ Ha). }
  split; [exact Hcount|]. split; [exact Heleven|].
  intros ch before after Hch Ha Hcls Hmin Hmax Hbefore.
  assert (classroomOf ch d cls = Some (Classroom.id c)) as Hplaced.
  { apply classroomOf_Some. exists c. split; [|done].
    apply find_first. exists before, after. split; [done|]. split.
    - apply inBand_spec. exists 11. split; [done|lia].
    - apply Forall_forall. intros c' Hc'. apply not_true_is_false.
      intros (n & Hn & Hrange)%inBand_spec. apply (Hbefore c' Hc').
      rewrite Ha in Hn. injection Hn as <-. lia. }
  assert (ch ∈ ClassStats.enrolled s) as Henrolled by by apply Hin.
  destruct (Heleven ch Henrolled Ha Hmax) as (? & [? _]%list_elem_of_filter & ?).
  done.
Qed.

(** ** Rosters *)

Lemma roster_sorted (cls : list Classroom.t) (d : Date) (chs : list Child.t) (k : Z) :
  StronglySorted (λ a b, default 0 (age b d) ≤ default 0 (age a d))
    (array_sort (byAge d) (filter (assigned cls d k) chs)).
Proof.
  apply array_sort_sorted. intros x y [Hx _]%list_elem_of_filter [Hy _]%list_elem_of_filter.
  apply assigned_age in Hx as [ax Hax]. apply assigned_age in Hy as [ay Hay].
  unfold byAgeDescending. by rewrite Hax, Hay.
Qed.

(** C7. Reordering the child list changes no roster as a collection (the two
    rosters are permutations of each other, so they have the same members),
    and every roster is in order of descending age in whole months at the
    target date. *)
Theorem roster_order_independent_and_oldest_first
    (cls : list Classroom.t) (d : Date) (chs chs' : list Child.t)
    (k : Z) (s : ClassStats.t) :
  chs ≡ₚ chs' →
  forecast cls d chs !! k = Some s →
  (∃ s', forecast cls d chs' !! k = Some s'
         ∧ ClassStats.enrolled s ≡ₚ ClassStats.enrolled s'
         ∧ (∀ ch, ch ∈ ClassStats.enrolled s ↔ ch ∈ ClassStats.enrolled s'))
  ∧ (∀ i j a b, (i < j)%nat →
        ClassStats.enrolled s !! i = Some a →
        ClassStats.enrolled s !! j = Some b →
        ∃ x y, age a d = Some x ∧ age b d = Some y ∧ y ≤ x).
Proof.
  intros Hperm. rewrite forecast_lookup. case_decide as Hk; [|done]. intros [= <-].
  simpl. split.
  - eexists. rewrite forecast_lookup, decide_True by done. split; [done|]. simpl.
    assert (array_sort (byAge d) (filter (assigned cls d k) chs)
            ≡ₚ array_sort (byAge d) (filter (assigned cls d k) chs')) as Hp
      by by rewrite !array_sort_Permutation, Hperm.
    split; [done|]. intros ch. by rewrite Hp.
  - intros i j a b Hij Ha Hb.
    assert (a ∈ filter (assigned cls d k) chs) as [[x Hx]%assigned_age _]%list_elem_of_filter.
    { rewrite <-(array_sort_Permutation (byAge d)). by eapply list_elem_of_lookup_2. }
    assert (b ∈ filter (assigned cls d k) chs) as [[y Hy]%assigned_age _]%list_elem_of_filter.
    { rewrite <-(array_sort_Permutation (byAge d)). by eapply list_elem_of_lookup_2. }
    exists x, y. split; [done|]. split; [done|].
    pose proof (StronglySorted_lookup _ _ i j a b (roster_sorted cls d chs k) Hij Ha Hb) as Hle.
    simpl in Hle. by rewrite Hx, Hy in Hle.
Qed.

(** ** Trend series *)

Local Abbreviation count := (countChild parseISO differenceInMonths).

(** The point that month [m] adds to the series of classroom [c]. *)
Local Abbreviation point cls d chs m :=
  (λ c, TrendPoint.mk (format (addMonths d m))
     (Some (Z.of_nat (length (filter (assigned cls (addMonths d m) (Classroom.id c)) chs))))
     (Classroom.capacity c) (bool_decide (0 < m))).

Lemma count_fold_lookup (cls : list Classroom.t) (d : Date) (chs : list Child.t)
    (monthStats : gmap Z (option Z)) (k n : Z) :
  monthStats !! k = Some (Some n) →
  foldl (count cls d) monthStats chs !! k
  = Some (Some (n + Z.of_nat (length (filter (assigned cls d k) chs)))).
Proof.
  revert monthStats n. induction chs as [|ch chs IH]; intros ms n Hk.
  - cbn. rewrite Hk. do 2 f_equal. lia.
  - cbn [foldl]. unfold countChild at 2.
    destruct (classroomOf ch d cls) as [k'|] eqn:Hk'.
    + destruct (decide (k' = k)) as [->|Hne].
      * rewrite (IH _ (n + 1)) by by rewrite lookup_insert_eq, Hk.
        rewrite filter_cons_True by done. do 2 f_equal. simpl length. lia.
      * rewrite (IH _ n) by by rewrite lookup_insert_ne.
        rewrite filter_cons_False; [done|]. unfold assignedTo. congruence.
    + rewrite (IH _ n) by done.
      rewrite filter_cons_False; [done|]. unfold assignedTo. congruence.
Qed.

(** [cls.forEach(c => { data[c.id].push(pt(c)) })] *)
Lemma push_fold_lookup {V} (pt : Classroom.t → V) (cls : list Classroom.t)
    (data : gmap Z (list V)) (k : Z) :
  foldl (λ data c, alter (λ points, points ++ [pt c]) (Classroom.id c) data) data cls !! k
  = (λ points, points ++ (pt <$> filter (λ c, Classroom.id c = k) cls)) <$> data !! k.
Proof.
  revert data. induction cls as [|c cls IH]; intros data.
  - cbn. destruct (data !! k); simpl; [|done]. by rewrite app_nil_r.
  - cbn [foldl]. rewrite IH. destruct (decide (Classroom.id c = k)) as [<-|Hne].
    + rewrite lookup_alter_eq, filter_cons_True by done.
      destruct (data !! Classroom.id c); simpl; [|done]. by rewrite <-app_assoc.
    + rewrite lookup_alter_ne, filter_cons_False by done. done.
Qed.

Lemma trendMonth_lookup (cls : list Classroom.t) (d : Date) (chs : list Child.t)
    (data : gmap Z (list TrendPoint.t)) (m k : Z) :
  trendMonth parseISO differenceInMonths addMonths format cls d chs data m !! k
  = (λ points, points ++ (point cls d chs m <$> filter (λ c, Classroom.id c = k) cls))
    <$> data !! k.
Proof.
  unfold trendMonth. rewrite push_fold_lookup. destruct (data !! k); simpl; [|done].
  do 2 f_equal. apply list_fmap_ext. intros i c [_ Hc]%list_elem_of_lookup_2%list_elem_of_filter.
  f_equal. rewrite (count_fold_lookup _ _ _ _ _ 0).
  - simpl. do 2 f_equal.
  - rewrite foldl_init_lookup, decide_True; [done|]. by apply list_elem_of_fmap_2.
Qed.

Lemma trendMonths_lookup (cls : list Classroom.t) (d : Date) (chs : list Child.t)
    (data : gmap Z (list TrendPoint.t)) (months : list Z) (k : Z) :
  foldl (trendMonth parseISO differenceInMonths addMonths format cls d chs) data months !! k
  = (λ points, points ++ concat ((λ m, point cls d chs m <$> filter (λ c, Classroom.id c = k) cls)
                                    <$> months))
    <$> data !! k.
Proof.
  revert data. induction months as [|m months IH]; intros data.
  - cbn. destruct (data !! k); simpl; [|done]. by rewrite app_nil_r.
  - cbn [foldl]. rewrite IH, trendMonth_lookup.
    destruct (data !! k); simpl; [|done]. by rewrite <-app_assoc.
Qed.

Lemma filter_id_NoDup (cls : list Classroom.t) (c : Classroom.t) :
  NoDup (ids cls) → c ∈ cls → filter (λ c', Classroom.id c' = Classroom.id c) cls = [c].
Proof.
  induction cls as [|c' cls IH]; intros Hnd Hc; [by apply elem_of_nil in Hc|].
  rewrite fmap_cons in Hnd. apply NoDup_cons in Hnd as [Hc' Hnd].
  assert (∀ x, x ∈ cls → Classroom.id x ≠ Classroom.id c') as Hother.
  { intros x Hx Heq. apply Hc'. rewrite <-Heq. by apply list_elem_of_fmap_2. }
  apply elem_of_cons in Hc as [->|Hc].
  - rewrite filter_cons_True by done. f_equal.
    apply elem_of_nil_inv. intros x [Hx1 Hx2]%list_elem_of_filter. by eapply Hother.
  - rewrite filter_cons_False; [by apply IH|]. intros Heq. by eapply Hother.
Qed.

(** The series of a classroom, in closed form. *)
Lemma trend_lookup (cls : list Classroom.t) (d : Date) (chs : list Child.t) (c : Classroom.t) :
  NoDup (ids cls) → c ∈ cls →
  trend cls d chs !! Classroom.id c = Some ((λ m, point cls d chs m c) <$> seqZ (-12) 25).
Proof.
  intros Hnd Hc. unfold trendData.
  rewrite trendMonths_lookup, foldl_init_lookup.
  rewrite decide_True by by apply list_elem_of_fmap_2.
  rewrite filter_id_NoDup by done. generalize (seqZ (-12) 25). intros months.
  simpl. f_equal.
  induction months as [|m months IH]; [done|]. rewrite !fmap_cons. simpl. by rewrite IH.
Qed.

Lemma pointAt_trend (cls : list Classroom.t) (d : Date) (chs : list Child.t)
    (c : Classroom.t) (i : nat) :
  NoDup (ids cls) → c ∈ cls → (i < 25)%nat →
  pointAt (trend cls d chs) c i = Some (point cls d chs (Z.of_nat i - 12) c).
Proof.
  intros Hnd Hc Hi. unfold pointAt. rewrite trend_lookup by done.
  cbn [mbind option_bind]. rewrite list_lookup_fmap, lookup_seqZ_lt by lia. simpl.
  by replace (-12 + Z.of_nat i) with (Z.of_nat i - 12) by lia.
Qed.

(** C4. The trend series of a classroom has exactly 25 points, the point at
    index [i] being that of month offset [i - 12] (offsets -12 to 12); its
    enrolled count is the size of the classroom's roster when the forecast is
    computed afresh at the shifted date, its capacity is the classroom's, and
    it is flagged as forecast exactly when the offset is greater than 0. *)
Theorem trend_series_25_points
    (cls : list Classroom.t) (d : Date) (chs : list Child.t) (c : Classroom.t) :
  NoDup (ids cls) → c ∈ cls →
  ∃ points,
    trend cls d chs !! Classroom.id c = Some points
    ∧ length points = 25%nat
    ∧ ∀ i, (i < 25)%nat →
        let m := Z.of_nat i - 12 in
        points !! i
        = Some (TrendPoint.mk (format (addMonths d m))
                  (Some (enrolledCount (forecast cls (addMonths d m) chs) c))
                  (Classroom.capacity c)
                  (bool_decide (0 < m))).
Proof.
  intros Hnd Hc. eexists. split; [by apply trend_lookup|]. split.
  - by rewrite length_fmap, length_seqZ.
  - intros i Hi m. rewrite list_lookup_fmap, lookup_seqZ_lt by lia. simpl.
    rewrite forecast_enrolled_length by done.
    by replace (-12 + Z.of_nat i) with m by lia.
Qed.

(** ** Counting *)

Lemma Zsum_rosters_le (cls : list Classroom.t) (d : Date) (chs : list Child.t)
    (ks : list Z) :
  NoDup ks →
  Zsum ((λ k, Z.of_nat (length (filter (assigned cls d k) chs))) <$> ks)
  ≤ Z.of_nat (length chs).
Proof. intros Hnd. apply (Zsum_buckets_le (λ ch, classroomOf ch d cls) ks chs Hnd). Qed.

Lemma totalEnrolled_Zsum (stats : gmap Z ClassStats.t) :
  totalEnrolled stats
  = Zsum ((λ s, Z.of_nat (length (ClassStats.enrolled s))) <$> Object_values stats).
Proof. unfold totalEnrolled. rewrite foldl_add_Zsum. lia. Qed.

Lemma totalEnrolled_forecast (cls : list Classroom.t) (d : Date) (chs : list Child.t) :
  totalEnrolled (forecast cls d chs)
  = Zsum ((λ k, Z.of_nat (length (filter (assigned cls d k) chs)))
            <$> (map_to_list (forecast cls d chs)).*1).
Proof.
  rewrite totalEnrolled_Zsum. unfold Object_values.
  rewrite <-!list_fmap_compose. apply Zsum_fmap_ext.
  intros [k s] Hks%elem_of_map_to_list. simpl.
  rewrite forecast_lookup in Hks. case_decide; [|done]. injection Hks as <-. simpl.
  by rewrite array_sort_Permutation.
Qed.

Lemma forecast_keys (cls : list Classroom.t) (d : Date) (chs : list Child.t) :
  NoDup (ids cls) → (map_to_list (forecast cls d chs)).*1 ≡ₚ ids cls.
Proof.
  intros Hnd. apply NoDup_Permutation; [apply NoDup_fst_map_to_list|done|].
  intros k. rewrite list_elem_of_fmap. split.
  - intros ([k' s] & -> & Hks%elem_of_map_to_list). simpl.
    rewrite forecast_lookup in Hks. by case_decide.
  - intros Hk. eexists (k, _). split; [done|]. apply elem_of_map_to_list.
    by rewrite forecast_lookup, decide_True.
Qed.

Lemma Zsum_enrolledCount (cls : list Classroom.t) (d : Date) (chs : list Child.t) :
  Zsum (enrolledCount (forecast cls d chs) <$> cls)
  = Zsum ((λ k, Z.of_nat (length (filter (assigned cls d k) chs))) <$> ids cls).
Proof.
  rewrite <-list_fmap_compose. apply Zsum_fmap_ext. intros c Hc. simpl.
  by apply forecast_enrolled_length.
Qed.

(** C10. Whatever the bands (overlapping or not), a child is on the roster of
    at most one classroom, so the roster sizes of the classrooms, and the
    engine's [totalEnrolled], add up to at most the number of children; the
    same holds for the enrolled counts of the classrooms at each of the 25
    points of the trend series. *)
Theorem rosters_disjoint_and_bounded
    (cls : list Classroom.t) (d : Date) (chs : list Child.t) :
  NoDup (ids cls) →
  (∀ ch k1 k2 s1 s2,
      forecast cls d chs !! k1 = Some s1 → forecast cls d chs !! k2 = Some s2 →
      ch ∈ ClassStats.enrolled s1 → ch ∈ ClassStats.enrolled s2 → k1 = k2)
  ∧ Zsum (enrolledCount (forecast cls d chs) <$> cls) ≤ Z.of_nat (length chs)
  ∧ totalEnrolled (forecast cls d chs) ≤ Z.of_nat (length chs)
  ∧ (∀ i, (i < 25)%nat →
       (∀ c, c ∈ cls → ∃ p n, pointAt (trend cls d chs) c i = Some p
                              ∧ TrendPoint.enrolled p = Some n)
       ∧ Zsum ((λ c, default 0 (pointAt (trend cls d chs) c i ≫= TrendPoint.enrolled)) <$> cls)
         ≤ Z.of_nat (length chs)).
Proof.
  intros Hnd. repeat split.
  - intros ch k1 k2 s1 s2 Hs1 Hs2 [_ H1]%(forecast_enrolled_elem _ _ _ _ _ _ Hs1)
      [_ H2]%(forecast_enrolled_elem _ _ _ _ _ _ Hs2). congruence.
  - rewrite Zsum_enrolledCount. by apply Zsum_rosters_le.
  - rewrite totalEnrolled_forecast. apply Zsum_rosters_le, NoDup_fst_map_to_list.
  - intros c Hc. rewrite pointAt_trend by done. eauto.
  - etrans; [|apply (Zsum_rosters_le cls (addMonths d (Z.of_nat i - 12)) chs (ids cls) Hnd)].
    rewrite <-list_fmap_compose. apply Z.eq_le_incl, Zsum_fmap_ext.
    intros c Hc. simpl. by rewrite pointAt_trend.
Qed.

End EngineFacts.

(** ** Capacity alerts *)

Lemma ratio_le_pos (n : Z) (p : positive) (a : Z) (b : positive) :
  Qle_bool (inject_Z n / inject_Z (Z.pos p)) (a # b) = true ↔ n * Z.pos b ≤ a * Z.pos p.
Proof. rewrite Qle_bool_iff. unfold Qle, Qdiv, Qmult, Qinv, inject_Z. simpl. lia. Qed.

Lemma ratio_ge_pos (n : Z) (p : positive) (a : Z) (b : positive) :
  Qle_bool (a # b) (inject_Z n / inject_Z (Z.pos p)) = true ↔ a * Z.pos p ≤ n * Z.pos b.
Proof. rewrite Qle_bool_iff. unfold Qle, Qdiv, Qmult, Qinv, inject_Z. simpl. lia. Qed.

Lemma ratio_gt_1 (n cap : Z) :
  0 ≤ n → 0 ≤ cap → quot_gtb (js_div n cap) 1 = true ↔ cap < n.
Proof.
  intros Hn Hcap. unfold js_div. destruct cap as [|p|p]; [|clear Hcap|lia].
  - simpl. destruct (Z.eqb_spec n 0) as [->|Hne]; simpl; [done|].
    destruct (Z.ltb_spec n 0); simpl; [lia|]. split; [lia|done].
  - simpl. rewrite negb_true_iff, <-not_true_iff_false. change 1%Q with (1 # 1).
    rewrite ratio_le_pos. lia.
Qed.

Lemma ratio_ge_09 (n cap : Z) :
  0 < cap → quot_geb (js_div n cap) (9 # 10) = true ↔ 9 * cap ≤ 10 * n.
Proof.
  intros Hcap. unfold js_div. destruct cap as [|p|p]; [lia| |lia]. simpl.
  rewrite ratio_ge_pos. lia.
Qed.

Lemma ratio_le_06 (n cap : Z) :
  0 < cap → quot_leb (js_div n cap) (6 # 10) = true ↔ 10 * n ≤ 6 * cap.
Proof.
  intros Hcap. unfold js_div. destruct cap as [|p|p]; [lia| |lia]. simpl.
  rewrite ratio_le_pos. lia.
Qed.

(** The quotient by a negative capacity is at most zero. *)
Lemma ratio_negative_capacity (n cap : Z) :
  0 ≤ n → cap < 0 →
  quot_gtb (js_div n cap) 1 = false
  ∧ quot_geb (js_div n cap) (9 # 10) = false
  ∧ quot_leb (js_div n cap) (6 # 10) = true.
Proof.
  intros Hn Hcap. unfold js_div. destruct cap as [|p|p]; [lia|lia|]. simpl.
  assert (inject_Z n / inject_Z (Z.neg p) <= 0)%Q as Hle.
  { unfold Qle, Qdiv, Qmult, Qinv, inject_Z. simpl. lia. }
  split; [|split].
  - apply negb_false_iff, Qle_bool_iff. apply (Qle_trans _ 0); [done|]. by unfold Qle.
  - apply not_true_iff_false. rewrite Qle_bool_iff. intros H09.
    pose proof (Qle_trans _ _ _ H09 Hle) as H0. by unfold Qle in H0.
  - apply Qle_bool_iff. apply (Qle_trans _ 0); [done|]. by unfold Qle.
Qed.

Section CapacityFacts.
Context (cls : list Classroom.t) (stats : gmap Z ClassStats.t).

Lemma pushInsight_app (insights : list Insight.t) (c : Classroom.t) :
  pushInsight stats insights c = insights ++ pushInsight stats [] c.
Proof.
  unfold pushInsight. destruct (stats !! Classroom.id c); [|by rewrite app_nil_r].
  repeat case_match; by rewrite ?app_nil_r.
Qed.

Lemma foldl_pushInsight (insights : list Insight.t) :
  foldl (pushInsight stats) insights cls = insights ++ concat (pushInsight stats [] <$> cls).
Proof.
  revert insights. induction cls as [|c cls' IH]; intros insights; simpl.
  - by rewrite app_nil_r.
  - by rewrite IH, pushInsight_app, <-app_assoc.
Qed.

(** The alerts are produced classroom by classroom, in list order. *)
Lemma capacityInsights_concat :
  capacityInsights cls stats = concat (pushInsight stats [] <$> cls).
Proof. apply foldl_pushInsight. Qed.

Lemma pushInsight_classroomId (c : Classroom.t) (a : Insight.t) :
  a ∈ pushInsight stats [] c → Insight.classroomId a = Classroom.id c.
Proof.
  unfold pushInsight. destruct (stats !! Classroom.id c); [|by intros ?%elem_of_nil].
  repeat case_match; simpl; try (by intros ?%elem_of_nil);
    by intros ->%list_elem_of_singleton.
Qed.

Lemma filter_pushInsight (k : Z) (c : Classroom.t) :
  filter (λ a, Insight.classroomId a = k) (pushInsight stats [] c)
  = if decide (Classroom.id c = k) then pushInsight stats [] c else [].
Proof.
  pose proof (pushInsight_classroomId c) as Hid.
  induction (pushInsight stats [] c) as [|a l IH]; [by case_decide|].
  assert (Insight.classroomId a = Classroom.id c) as Ha by (apply Hid, elem_of_cons; by left).
  assert (∀ a', a' ∈ l → Insight.classroomId a' = Classroom.id c) as Hl
    by (intros a' Ha'; apply Hid, elem_of_cons; by right).
  rewrite filter_cons, (IH Hl). repeat case_decide; congruence.
Qed.

Lemma classroomInsights_capacityInsights (c : Classroom.t) :
  NoDup (Classroom.id <$> cls) → c ∈ cls →
  classroomInsights (capacityInsights cls stats) c = pushInsight stats [] c.
Proof.
  rewrite capacityInsights_concat. unfold classroomInsights.
  induction cls as [|c' cls' IH]; intros Hnd Hc; [by apply elem_of_nil in Hc|].
  rewrite fmap_cons in Hnd. apply NoDup_cons in Hnd as [Hc' Hnd].
  rewrite fmap_cons. simpl. rewrite filter_app, filter_pushInsight.
  apply elem_of_cons in Hc as [->|Hc].
  - rewrite decide_True by done.
    rewrite (elem_of_nil_inv (filter _ (concat _))); [by rewrite app_nil_r|].
    intros a [Ha Hin]%list_elem_of_filter. apply Hc'.
    apply list_elem_of_In, in_concat in Hin as (l & Hl & Hal). apply list_elem_of_In in Hl, Hal.
    apply list_elem_of_fmap in Hl as (x & -> & Hx). apply pushInsight_classroomId in Hal.
    rewrite <-Ha, Hal. by apply list_elem_of_fmap_2.
  - rewrite decide_False; [by apply IH|]. intros Heq. apply Hc'. rewrite Heq.
    by apply list_elem_of_fmap_2.
Qed.

End CapacityFacts.

Lemma pushInsight_cases (stats : gmap Z ClassStats.t) (c : Classroom.t) :
  is_Some (stats !! Classroom.id c) →
  let enrolled := enrolledCount stats c in
  let ratio := js_div enrolled (Classroom.capacity c) in
  let vacancies := Classroom.capacity c - enrolled in
  pushInsight stats [] c
  = if quot_gtb ratio 1 then
      [Insight.mk Insight.critical
         (Classroom.name c +:+ " is over capacity by " +:+ pretty (Z.abs vacancies)
            +:+ " spot" +:+ plural (Z.abs vacancies) +:+ ".")
         (Classroom.id c)]
    else if quot_geb ratio (9 # 10) then
      [Insight.mk Insight.warning
         (Classroom.name c +:+ " is nearing capacity (" +:+ pretty vacancies
            +:+ " spot" +:+ plural vacancies +:+ " left).")
         (Classroom.id c)]
    else if quot_leb ratio (6 # 10) then
      [Insight.mk Insight.opportunity
         (Classroom.name c +:+ " has high availability (" +:+ pretty vacancies
            +:+ " vacancies). Consider marketing.")
         (Classroom.id c)]
    else [].
Proof.
  intros [s Hs]. unfold pushInsight, enrolledCount, statsFor. rewrite Hs. simpl.
  by repeat case_match.
Qed.

Lemma pushInsight_kinds (stats : gmap Z ClassStats.t) (c : Classroom.t) :
  is_Some (stats !! Classroom.id c) →
  let ratio := js_div (enrolledCount stats c) (Classroom.capacity c) in
  Insight.type <$> pushInsight stats [] c
  = if quot_gtb ratio 1 then [Insight.critical]
    else if quot_geb ratio (9 # 10) then [Insight.warning]
    else if quot_leb ratio (6 # 10) then [Insight.opportunity]
    else [].
Proof.
  intros Hs ratio. rewrite pushInsight_cases by done. fold ratio. by repeat case_match.
Qed.

Section DashboardFacts.
Context {Date : Type}.
Variable parseISO : string → Date.
Variable differenceInMonths : Date → Date → option Z.

Local Abbreviation forecast := (forecastStats parseISO differenceInMonths).
Local Abbreviation ids cls := (Classroom.id <$> cls).

Lemma forecast_is_Some (cls : list Classroom.t) (d : Date) (chs : list Child.t)
    (c : Classroom.t) :
  c ∈ cls → is_Some (forecast cls d chs !! Classroom.id c).
Proof.
  intros Hc. rewrite forecast_lookup, decide_True; [eauto|]. by apply list_elem_of_fmap_2.
Qed.

Lemma enrolledCount_nonneg (stats : gmap Z ClassStats.t) (c : Classroom.t) :
  0 ≤ enrolledCount stats c.
Proof. unfold enrolledCount. lia. Qed.

(** C2. For a classroom of positive capacity the alerts shown for it contain
    a critical one exactly when the enrolled count is greater than the
    capacity; that alert reports [enrolled - capacity] spots over; with
    enrolled equal to capacity the alert is the warning. *)
Theorem critical_alert_iff_over_capacity
    (cls : list Classroom.t) (d : Date) (chs : list Child.t) (c : Classroom.t) :
  NoDup (ids cls) → c ∈ cls → 0 < Classroom.capacity c →
  let stats := forecast cls d chs in
  let enrolled := enrolledCount stats c in
  let alerts := classroomInsights (capacityInsights cls stats) c in
  ((∃ a, a ∈ alerts ∧ Insight.type a = Insight.critical)
     ↔ Classroom.capacity c < enrolled)
  ∧ (Classroom.capacity c < enrolled →
       alerts = [Insight.mk Insight.critical
                   (Classroom.name c +:+ " is over capacity by "
                      +:+ pretty (enrolled - Classroom.capacity c)
                      +:+ " spot" +:+ plural (enrolled - Classroom.capacity c) +:+ ".")
                   (Classroom.id c)])
  ∧ (enrolled = Classroom.capacity c →
       alerts = [Insight.mk Insight.warning
                   (Classroom.name c +:+ " is nearing capacity (0 spots left).")
                   (Classroom.id c)]).
Proof.
  intros Hnd Hc Hcap stats enrolled alerts.
  assert (alerts = pushInsight stats [] c) as ->
    by by apply classroomInsights_capacityInsights.
  rewrite pushInsight_cases by by apply forecast_is_Some.
  fold stats. fold enrolled.
  pose proof (enrolledCount_nonneg stats c) as Hn. fold enrolled in Hn.
  pose proof (ratio_gt_1 enrolled (Classroom.capacity c) Hn (Z.lt_le_incl _ _ Hcap)) as Hgt.
  pose proof (ratio_ge_09 enrolled (Classroom.capacity c) Hcap) as Hge.
  destruct (quot_gtb _ 1).
  - assert (Classroom.capacity c < enrolled) as Hover by by apply Hgt.
    split; [|split].
    + split; [done|]. intros _. eexists. split; [apply list_elem_of_singleton; done|done].
    + intros _. by replace (Z.abs (Classroom.capacity c - enrolled))
        with (enrolled - Classroom.capacity c) by lia.
    + lia.
  - assert (¬ Classroom.capacity c < enrolled) as Hnot by (rewrite <-Hgt; done).
    split; [|split].
    + split; [|done]. intros (a & Ha & Hcrit).
      repeat case_match; try (by apply elem_of_nil in Ha);
        apply list_elem_of_singleton in Ha as ->; done.
    + done.
    + intros Heq. rewrite (proj2 Hge) by lia.
      by replace (Classroom.capacity c - enrolled) with 0 by lia.
Qed.

(** C6 (as amended). The alerts shown for a classroom are at most one; which
    one is decided by the first rule that applies to the ratio of enrolled
    children to capacity: critical when the ratio is above 1, else warning
    when the ratio is at least 0.9, else opportunity when the ratio is at most
    0.6, else none.  For a non-negative capacity the ratio is above 1 exactly
    when more children are enrolled than the capacity (for capacity 0: when a
    child is enrolled; with nobody enrolled there is no alert).  For a
    negative capacity the enrolled children always exceed the capacity, and
    the alert is opportunity, not critical. *)
Theorem at_most_one_alert_by_priority
    (cls : list Classroom.t) (d : Date) (chs : list Child.t) (c : Classroom.t) :
  NoDup (ids cls) → c ∈ cls →
  let stats := forecast cls d chs in
  let enrolled := enrolledCount stats c in
  let ratio := js_div enrolled (Classroom.capacity c) in
  let alerts := classroomInsights (capacityInsights cls stats) c in
  (length alerts ≤ 1)%nat
  ∧ Insight.type <$> alerts
    = (if quot_gtb ratio 1 then [Insight.critical]
       else if quot_geb ratio (9 # 10) then [Insight.warning]
       else if quot_leb ratio (6 # 10) then [Insight.opportunity]
       else [])
  ∧ (0 ≤ Classroom.capacity c →
       quot_gtb ratio 1 = true ↔ Classroom.capacity c < enrolled)
  ∧ (0 < Classroom.capacity c →
       (quot_geb ratio (9 # 10) = true ↔ 9 * Classroom.capacity c ≤ 10 * enrolled)
       ∧ (quot_leb ratio (6 # 10) = true ↔ 10 * enrolled ≤ 6 * Classroom.capacity c))
  ∧ (Classroom.capacity c = 0 →
       Insight.type <$> alerts
       = if bool_decide (enrolled = 0) then [] else [Insight.critical])
  ∧ (Classroom.capacity c < 0 →
       Classroom.capacity c < enrolled
       ∧ Insight.type <$> alerts = [Insight.opportunity]).
Proof.
  intros Hnd Hc stats enrolled ratio alerts.
  assert (alerts = pushInsight stats [] c) as Halerts
    by by apply classroomInsights_capacityInsights.
  assert (is_Some (stats !! Classroom.id c)) as Hsome by by apply forecast_is_Some.
  pose proof (pushInsight_kinds stats c Hsome) as Hkinds.
  rewrite <-Halerts in Hkinds. fold enrolled in Hkinds. fold ratio in Hkinds.
  pose proof (enrolledCount_nonneg stats c) as Hn. fold enrolled in Hn.
  split.
  { rewrite Halerts, pushInsight_cases by done. by repeat case_match; simpl; lia. }
  split; [exact Hkinds|].
  split; [intros Hcap; by apply ratio_gt_1|].
  split; [intros Hcap; split; [by apply ratio_ge_09|by apply ratio_le_06]|].
  split.
  - intros Hzero. rewrite Hkinds. unfold ratio, js_div. rewrite Hzero, Z.eqb_refl.
    case_bool_decide as Hnone.
    + by rewrite Hnone.
    + destruct (Z.eqb_spec enrolled 0); [done|].
      destruct (Z.ltb_spec enrolled 0); [lia|]. done.
  - intros Hneg. split; [lia|]. rewrite Hkinds. unfold ratio.
    by destruct (ratio_negative_capacity enrolled (Classroom.capacity c) Hn Hneg)
      as (-> & -> & ->).
Qed.

(** ** Totals *)

Lemma totalCapacity_Zsum (cls : list Classroom.t) :
  totalCapacity cls = Zsum (Classroom.capacity <$> cls).
Proof. unfold totalCapacity. rewrite foldl_add_Zsum. lia. Qed.

Lemma totalEnrolled_per_classroom (cls : list Classroom.t) (d : Date) (chs : list Child.t) :
  NoDup (ids cls) →
  totalEnrolled (forecast cls d chs) = Zsum (enrolledCount (forecast cls d chs) <$> cls).
Proof.
  intros Hnd. by rewrite totalEnrolled_forecast, Zsum_enrolledCount, forecast_keys.
Qed.

Lemma forecast_no_classroom (d : Date) (chs : list Child.t) : forecast [] d chs = ∅.
Proof.
  apply map_eq. intros k. rewrite forecast_lookup, lookup_empty.
  rewrite decide_False; [done|]. rewrite fmap_nil. apply not_elem_of_nil.
Qed.

(** C8 (as amended). The total capacity is the sum of the classroom
    capacities, the total enrolled is the sum of the roster sizes of the
    classrooms, the total vacancies are their difference (negative when more
    children are enrolled than there are seats), and the occupancy percentage
    is [Math.round] of the binary64 product of the binary64 quotient
    [totalEnrolled / totalCapacity] and [100]; it is [NaN] when there is no
    classroom. *)
Theorem totals_and_percentage
    (cls : list Classroom.t) (d : Date) (chs : list Child.t) :
  NoDup (ids cls) →
  let stats := forecast cls d chs in
  totalCapacity cls = Zsum (Classroom.capacity <$> cls)
  ∧ totalEnrolled stats = Zsum (enrolledCount stats <$> cls)
  ∧ totalEnrolled stats
    = Zsum ((λ s, Z.of_nat (length (ClassStats.enrolled s))) <$> Object_values stats)
  ∧ totalVacancies cls stats = totalCapacity cls - totalEnrolled stats
  ∧ (totalCapacity cls < totalEnrolled stats → totalVacancies cls stats < 0)
  ∧ totalCapacityPercentage cls stats
    = Math_round (Z2F (totalEnrolled stats) / Z2F (totalCapacity cls) * Z2F 100)%float
  ∧ (cls = [] → totalCapacityPercentage cls stats = RNaN).
Proof.
  intros Hnd stats. split; [apply totalCapacity_Zsum|].
  split; [by apply totalEnrolled_per_classroom|].
  split; [apply totalEnrolled_Zsum|].
  split; [done|]. split; [unfold totalVacancies; lia|]. split; [done|].
  intros ->. unfold stats. rewrite forecast_no_classroom. by vm_compute.
Qed.

End DashboardFacts.

(** C8, as stated, fails for the percentage, which is not always the
    exactly rounded one: with 23 of
    40 seats taken the exact percentage is 57.5, which rounds to 58, while
    the binary64 product [(23 / 40) * 100] lies just below 57.5. *)
Lemma percentage_23_of_40 :
  let stats := forecastStats Calendar.parseISO Calendar.differenceInMonths
                 one_room sample_date crowd in
  totalCapacity one_room = 40
  ∧ totalEnrolled stats = 23
  ∧ spec_percentage (totalEnrolled stats) (totalCapacity one_room) = Some 58
  ∧ totalCapacityPercentage one_room stats = RInt 57.
Proof. by vm_compute. Qed.

(** ** The primary key

    The classroom list the dashboard fetches has distinct ids: the table
    starts empty and the storage operations keep the ids distinct. *)

Lemma primary_key_empty (n : Z) : primary_key (mkDb [] n).
Proof.
  split; [constructor|]. by intros row Hrow%elem_of_nil.
Qed.

Lemma createClassroom_primary_key (classroom : InsertClassroom.t) (db : Db) :
  primary_key db → primary_key (createClassroom classroom db).2.
Proof.
  intros [Hnd Hlt]. unfold createClassroom. split; simpl.
  - rewrite fmap_app. apply NoDup_app. split; [done|]. split; [|by apply NoDup_singleton].
    intros id (row & -> & Hrow%Hlt)%list_elem_of_fmap Hid%list_elem_of_singleton.
    simpl in Hid. lia.
  - intros row [Hrow%Hlt| ->%list_elem_of_singleton]%elem_of_app; simpl; lia.
Qed.

Lemma applyPatch_id (data : ClassroomPatch.t) (row : Classroom.t) :
  Classroom.id (applyPatch data row) = Classroom.id row.
Proof. done. Qed.

Lemma updateClassroom_table (id : Z) (data : ClassroomPatch.t) (db : Db) :
  ClassroomPatch.is_empty data = false →
  updateClassroom id data db
  = (Returned (head (applyPatch data
                       <$> filter (λ row, Classroom.id row = id) (classrooms_table db))),
     mkDb (filter (λ row, Classroom.id row ≠ id) (classrooms_table db)
             ++ (applyPatch data <$> filter (λ row, Classroom.id row = id) (classrooms_table db)))
       (classrooms_id_seq db)).
Proof. intros Hdata. unfold updateClassroom. by rewrite Hdata. Qed.

(** The rows of the table after an update are, in another order, the rows
    before it with the patch applied to those of the id. *)
Lemma updateClassroom_Permutation (id : Z) (data : ClassroomPatch.t) (db : Db) :
  ClassroomPatch.is_empty data = false →
  classrooms_table (updateClassroom id data db).2
  ≡ₚ (λ row, if bool_decide (Classroom.id row = id) then applyPatch data row else row)
       <$> classrooms_table db.
Proof.
  intros Hdata. rewrite updateClassroom_table by done. simpl.
  induction (classrooms_table db) as [|row table IH]; [done|].
  rewrite fmap_cons, !filter_cons. case_bool_decide as Hid.
  - rewrite decide_False, decide_True by tauto. rewrite fmap_cons.
    by rewrite <-Permutation_middle, IH.
  - rewrite decide_True, decide_False by done. simpl. by rewrite IH.
Qed.

Lemma updateClassroom_ids (id : Z) (data : ClassroomPatch.t) (db : Db) :
  Classroom.id <$> classrooms_table (updateClassroom id data db).2
  ≡ₚ Classroom.id <$> classrooms_table db.
Proof.
  destruct (ClassroomPatch.is_empty data) eqn:Hdata;
    [by unfold updateClassroom; rewrite Hdata|].
  rewrite updateClassroom_Permutation by done.
  rewrite <-list_fmap_compose.
  rewrite (list_fmap_ext _ Classroom.id (classrooms_table db)); [done|].
  intros i row _. simpl. by case_bool_decide.
Qed.

Lemma updateClassroom_primary_key (id : Z) (data : ClassroomPatch.t) (db : Db) :
  primary_key db → primary_key (updateClassroom id data db).2.
Proof.
  intros [Hnd Hlt]. split; [by rewrite updateClassroom_ids|].
  intros row Hrow%(list_elem_of_fmap_2 Classroom.id). rewrite updateClassroom_ids in Hrow.
  apply list_elem_of_fmap in Hrow as (row0 & -> & Hrow0%Hlt).
  unfold updateClassroom. by destruct (ClassroomPatch.is_empty data).
Qed.

Lemma getClassrooms_NoDup (db : Db) :
  primary_key db → NoDup (Classroom.id <$> getClassrooms db).
Proof. by intros [Hnd _]. Qed.



(** Fetching by id after an update. *)
Lemma getClassroom_update (id id' : Z) (data : ClassroomPatch.t) (db : Db) :
  ClassroomPatch.is_empty data = false →
  getClassroom id' (updateClassroom id data db).2
  = if decide (id' = id) then applyPatch data <$> getClassroom id db
    else getClassroom id' db.
Proof.
  intros Hdata. unfold getClassroom. rewrite updateClassroom_table by done. simpl.
  rewrite filter_app. case_decide as Hid.
  - subst id'. rewrite (filter_none (λ row, Classroom.id row = id) (filter _ _)).
    2:{ by intros row [Hne _]%list_elem_of_filter. }
    rewrite app_nil_l, filter_all; [by rewrite head_fmap|].
    by intros row (row0 & -> & [Hrow0 _]%list_elem_of_filter)%list_elem_of_fmap.
  - rewrite (filter_none _ (applyPatch data <$> _)).
    2:{ intros row (row0 & -> & [Hrow0 _]%list_elem_of_filter)%list_elem_of_fmap.
        simpl. congruence. }
    rewrite app_nil_r, list_filter_filter_l; [done|]. intros row. congruence.
Qed.


(** ** Validation *)

Lemma text_column_cases (v : option json) :
  (∃ s, v ≫= text_column = Some s ∧ v = Some (JString s) ∧ is_string v = true)
  ∨ (v ≫= text_column = None ∧ is_string v = false).
Proof. destruct v as [[]|]; simpl; eauto. Qed.

Lemma integer_column_cases (int4_checked : bool) (v : option json) :
  (∃ n, v ≫= integer_column int4_checked = Some (Int4 n) ∧ v = Some (JInt n)
        ∧ -2147483648 ≤ n ≤ 2147483647
        ∧ is_int4 v = true ∧ is_number v = true)
  ∨ (v ≫= integer_column int4_checked = Some NotInt4
     ∧ int4_checked = false ∧ is_int4 v = false ∧ is_number v = true)
  ∨ (v ≫= integer_column int4_checked = None
     ∧ is_int4 v = false ∧ (if int4_checked then is_int4 v else is_number v) = false).
Proof.
  destruct v as [[| |n| | | |]|], int4_checked; simpl; try case_bool_decide; simpl;
    eauto 10.
Qed.

(** [safeParse] fails exactly on the bodies that are not well typed, and
    its [data] can be stored exactly when the three numbers are 4-byte
    integers. *)
Lemma insertClassroomSchema_cases (int4_checked : bool) (fields : list (string * json)) :
  let int4 key := is_int4 (field key fields) in
  match insertClassroomSchema int4_checked (JObject fields) with
  | None => well_typed_body int4_checked (JObject fields) = false
  | Some Unstorable =>
      well_typed_body int4_checked (JObject fields) = true ∧ int4_checked = false
      ∧ int4 "minAgeMonths" && int4 "maxAgeMonths" && int4 "capacity" = false
  | Some (Storable data) =>
      well_typed_body int4_checked (JObject fields) = true
      ∧ int4 "minAgeMonths" && int4 "maxAgeMonths" && int4 "capacity" = true
      ∧ field "name" fields = Some (JString (InsertClassroom.name data))
      ∧ field "color" fields = Some (JString (InsertClassroom.color data))
      ∧ field "minAgeMonths" fields = Some (JInt (InsertClassroom.minAgeMonths data))
      ∧ field "maxAgeMonths" fields = Some (JInt (InsertClassroom.maxAgeMonths data))
      ∧ field "capacity" fields = Some (JInt (InsertClassroom.capacity data))
      ∧ field "ratio" fields = Some (JString (InsertClassroom.ratio data))
  end.
Proof.
  intros int4. unfold int4, insertClassroomSchema, well_typed_body, text_keys, integer_keys.
  cbn [forallb].
  destruct (text_column_cases (field "name" fields)) as [(name & -> & -> & _)|[-> ->]];
    [|done].
  destruct (text_column_cases (field "color" fields)) as [(color & -> & -> & _)|[-> ->]];
    [|done].
  destruct (integer_column_cases int4_checked (field "minAgeMonths" fields))
    as [(a & -> & -> & Ia & Ha & Ha')|[(-> & Ea & Ha & Ha')|(-> & Ha & Ha')]];
    destruct (integer_column_cases int4_checked (field "maxAgeMonths" fields))
    as [(b & -> & -> & Ib & Hb & Hb')|[(-> & Eb & Hb & Hb')|(-> & Hb & Hb')]];
    destruct (integer_column_cases int4_checked (field "capacity" fields))
    as [(c & -> & -> & Ic & Hc & Hc')|[(-> & Ec & Hc & Hc')|(-> & Hc & Hc')]];
    destruct (text_column_cases (field "ratio" fields)) as [(ratio & -> & -> & _)|[-> Hr]];
    cbn [mbind option_bind is_string andb] in *;
    destruct int4_checked; try discriminate;
    rewrite ?Ha, ?Hb, ?Hc, ?Ha', ?Hb', ?Hc', ?Hr; cbn [andb];
    rewrite ?andb_false_r; repeat split; done.
Qed.

Lemma forallb_false_elem {A} (f : A → bool) (l : list A) (x : A) :
  x ∈ l → f x = false → forallb f l = false.
Proof.
  intros Hx Hf. apply not_true_iff_false. rewrite forallb_forall. intros Hall.
  apply list_elem_of_In in Hx. rewrite (Hall x Hx) in Hf. done.
Qed.

(** C3, as stated, fails: a capacity of zero or less is not rejected with a 400;
    the schema checks the type of [capacity] only, whatever the release of
    drizzle-zod.  The classroom is stored, the response is 201, and the
    engine computes with it ([0 / 0] for the ratio and for the
    percentage). *)
Lemma post_accepts_zero_capacity :
  let created := Classroom.mk 1 "Infants" "bg-blue-100" 0 12 0 "1:4" in
  let stats := forecastStats Calendar.parseISO Calendar.differenceInMonths
                 [created] sample_date [] in
  postClassroom true zero_capacity_body empty_db
  = (Returned (mkResponse 201 (ClassroomJson created)), mkDb [created] 2)
  ∧ postClassroom false zero_capacity_body empty_db
    = (Returned (mkResponse 201 (ClassroomJson created)), mkDb [created] 2)
  ∧ js_div (enrolledCount stats created) (Classroom.capacity created) = NaN
  ∧ capacityInsights [created] stats = []
  ∧ totalCapacityPercentage [created] stats = RNaN.
Proof. by vm_compute. Qed.

Section ValidationFacts.
Context {Date : Type}.
Variable parseISO : string → Date.
Variable differenceInMonths : Date → Date → option Z.

Local Abbreviation forecast := (forecastStats parseISO differenceInMonths).

(** C3 (as amended). [POST /api/classrooms] checks presence and JSON types
    only, in every release of drizzle-zod.  A body whose six fields are
    present, the texts strings and the numbers 4-byte integers, is accepted
    whatever the sign of [capacity]: the classroom is stored under the next
    id, returned with status 201, listed, and it reaches the forecast engine,
    which gives it an entry of [forecastStats], divides by its capacity
    (no alert for an empty classroom of capacity zero, the critical alert
    for one with children) and gives a classroom of negative capacity the
    alert for high availability.  A 400 is the answer exactly when the body
    is not well typed: when it is not an object, or one of [name], [color],
    [ratio] is missing or not a string, or one of [minAgeMonths],
    [maxAgeMonths], [capacity] is missing or not a number.  A number that is
    not a 4-byte integer is never stored (the answer is 400 where the
    release checks it).  Nothing is stored unless the answer is 201. *)
Theorem post_classroom_checks_types_only
    (int4_checked : bool) (fields : list (string * json)) (name color ratio : string)
    (minAgeMonths maxAgeMonths capacity : Z) (db : Db) :
  field "name" fields = Some (JString name) →
  field "color" fields = Some (JString color) →
  field "minAgeMonths" fields = Some (JInt minAgeMonths) →
  field "maxAgeMonths" fields = Some (JInt maxAgeMonths) →
  field "capacity" fields = Some (JInt capacity) →
  field "ratio" fields = Some (JString ratio) →
  -2147483648 ≤ minAgeMonths ≤ 2147483647 →
  -2147483648 ≤ maxAgeMonths ≤ 2147483647 →
  -2147483648 ≤ capacity ≤ 2147483647 →
  let created :=
    Classroom.mk (classrooms_id_seq db) name color minAgeMonths maxAgeMonths capacity ratio in
  let db' := mkDb (classrooms_table db ++ [created]) (classrooms_id_seq db + 1) in
  postClassroom int4_checked (JObject fields) db
  = (Returned (mkResponse 201 (ClassroomJson created)), db')
  ∧ created ∈ getClassrooms db'
  ∧ (primary_key db → ∀ d chs,
       let cls := getClassrooms db' in
       let stats := forecast cls d chs in
       let kinds := Insight.type <$> classroomInsights (capacityInsights cls stats) created in
       is_Some (stats !! Classroom.id created)
       ∧ (capacity = 0 →
            kinds = if bool_decide (enrolledCount stats created = 0) then []
                    else [Insight.critical])
       ∧ (capacity < 0 → kinds = [Insight.opportunity]))
  ∧ (∀ body db0,
       ((postClassroom int4_checked body db0).1 = Returned (mkResponse 400 ZodErrorJson)
        ↔ well_typed_body int4_checked body = false)
       ∧ ((∀ c, (postClassroom int4_checked body db0).1
                ≠ Returned (mkResponse 201 (ClassroomJson c))) →
          (postClassroom int4_checked body db0).2 = db0))
  ∧ (∀ body db0, (∀ fs, body ≠ JObject fs) →
       postClassroom int4_checked body db0 = (Returned (mkResponse 400 ZodErrorJson), db0))
  ∧ (∀ fs db0 key, key ∈ text_keys → is_string (field key fs) = false →
       postClassroom int4_checked (JObject fs) db0
       = (Returned (mkResponse 400 ZodErrorJson), db0))
  ∧ (∀ fs db0 key, key ∈ integer_keys → is_number (field key fs) = false →
       postClassroom int4_checked (JObject fs) db0
       = (Returned (mkResponse 400 ZodErrorJson), db0))
  ∧ (∀ fs db0 key, key ∈ integer_keys → is_int4 (field key fs) = false →
       (postClassroom int4_checked (JObject fs) db0).2 = db0
       ∧ (int4_checked = true →
          (postClassroom int4_checked (JObject fs) db0).1
          = Returned (mkResponse 400 ZodErrorJson))).
Proof.
  intros Hname Hcolor Hmin Hmax Hcap Hratio Imin Imax Icap created db'.
  assert (∀ body db0,
            (postClassroom int4_checked body db0).1 = Returned (mkResponse 400 ZodErrorJson)
            ↔ well_typed_body int4_checked body = false) as H400.
  { intros body db0. unfold postClassroom.
    destruct body as [| | | | | |fs]; try done.
    pose proof (insertClassroomSchema_cases int4_checked fs) as Hcases.
    cbv beta zeta in Hcases.
    destruct (insertClassroomSchema int4_checked (JObject fs)) as [[data|]|].
    - destruct Hcases as [-> _]. by destruct (createClassroom data db0).
    - destruct Hcases as [-> _]. by split.
    - by rewrite Hcases. }
  assert (∀ body db0,
            well_typed_body int4_checked body = false →
            postClassroom int4_checked body db0
            = (Returned (mkResponse 400 ZodErrorJson), db0)) as Hrefused.
  { intros body db0 Hbody. apply H400 with (db0 := db0) in Hbody. revert Hbody.
    unfold postClassroom. by destruct (insertClassroomSchema _ _) as [[data|]|]. }
  split; [|split; [|split; [|split; [|split; [|split; [|split]]]]]].
  - unfold postClassroom, insertClassroomSchema.
    rewrite Hname, Hcolor, Hmin, Hmax, Hcap, Hratio. simpl.
    by rewrite !bool_decide_eq_true_2 by done.
  - unfold db', getClassrooms. simpl. apply elem_of_app. right. by apply list_elem_of_singleton.
  - intros Hkey d chs cls stats kinds.
    assert (primary_key db') as [Hnd _].
    { apply (createClassroom_primary_key
               (InsertClassroom.mk name color minAgeMonths maxAgeMonths capacity ratio) db Hkey). }
    assert (created ∈ cls) as Hin.
    { unfold cls, db', getClassrooms. simpl. apply elem_of_app. right.
      by apply list_elem_of_singleton. }
    pose proof (forecast_is_Some parseISO differenceInMonths cls d chs created Hin) as Hsome.
    split; [done|]. unfold kinds.
    rewrite classroomInsights_capacityInsights by done.
    rewrite pushInsight_cases by done. fold stats.
    change (Classroom.capacity created) with capacity.
    pose proof (enrolledCount_nonneg stats created) as Hn. split.
    + intros Hzero. rewrite Hzero. unfold js_div. rewrite Z.eqb_refl.
      case_bool_decide as Hnone.
      * by rewrite Hnone.
      * destruct (Z.eqb_spec (enrolledCount stats created) 0); [done|].
        destruct (Z.ltb_spec (enrolledCount stats created) 0); [lia|]. done.
    + intros Hneg.
      by destruct (ratio_negative_capacity (enrolledCount stats created) capacity Hn Hneg)
        as (-> & -> & ->).
  - intros body db0. split; [apply H400|]. unfold postClassroom.
    destruct (insertClassroomSchema _ _) as [[data|]|]; simpl; try done.
    intros Hnot. by destruct (Hnot (createClassroom data db0).1).
  - intros body db0 Hbody. apply Hrefused. destruct body; try done. by destruct (Hbody fields0).
  - intros fs db0 key Hkey Hfield. apply Hrefused. unfold well_typed_body.
    by rewrite (forallb_false_elem _ _ key Hkey Hfield).
  - intros fs db0 key Hkey Hfield. apply Hrefused. unfold well_typed_body.
    rewrite (forallb_false_elem _ integer_keys key Hkey), andb_false_r; [done|].
    destruct int4_checked; [|done]. by destruct (field key fs) as [[]|].
  - intros fs db0 key Hkey Hfield.
    pose proof (insertClassroomSchema_cases int4_checked fs) as Hcases.
    cbv beta zeta in Hcases.
    assert (is_int4 (field "minAgeMonths" fs) && is_int4 (field "maxAgeMonths" fs)
            && is_int4 (field "capacity" fs) = false) as Hint4.
    { unfold integer_keys in Hkey.
      repeat (apply elem_of_cons in Hkey as [->|Hkey];
              [rewrite Hfield; by rewrite ?andb_false_r|]).
      by apply elem_of_nil in Hkey. }
    unfold postClassroom.
    destruct (insertClassroomSchema int4_checked (JObject fs)) as [[data|]|]; simpl.
    + destruct Hcases as (_ & Htrue & _). congruence.
    + destruct Hcases as (_ & -> & _). done.
    + done.
Qed.

End ValidationFacts.

(** C9: the claim holds of every patch that sets a field, and the code has a
    defect on the patch that sets none.  With the body [{}], or one with
    unknown keys only, [updateClassroom] does not return [undefined] for an
    absent identifier (a 404) nor the unchanged record for one that exists
    (a 200): [set] throws before the table is read, the handler's promise
    rejects and no response is written, where every other path of the
    handler answers 400, 404 or 200. *)
Lemma empty_patch_is_refused :
  insertClassroomSchema_partial true (JObject []) = Some (Storable ClassroomPatch.empty)
  ∧ insertClassroomSchema_partial true (JObject [("id", JInt 99)])
    = Some (Storable ClassroomPatch.empty)
  ∧ updateClassroom 7 ClassroomPatch.empty sample_db = (Thrown "No values to set", sample_db)
  ∧ patchClassroom decimal true "7" (JObject []) sample_db
    = (Thrown "No values to set", sample_db)
  ∧ patchClassroom decimal false "7" (JObject []) sample_db
    = (Thrown "No values to set", sample_db)
  ∧ patchClassroom decimal true "2" (JObject []) sample_db
    = (Thrown "No values to set", sample_db)
  ∧ (7 ∉ Classroom.id <$> classrooms_table sample_db)
  ∧ getClassroom 2 sample_db = Some wobblers.
Proof.
  repeat split; try done. apply (bool_decide_unpack _). by vm_compute.
Qed.


(** ** The binary64 arithmetic on a grid *)

(** For capacities from -20 to 200 and enrolled counts from 0 to 200 the
    binary64 quotient stands on the same side of [1], [0.9] and [0.6] as the
    exact one. *)
Lemma ratio_thresholds_binary64 :
  forallb (λ c, forallb (λ e, ratio_binary64_agrees e c) (seqZ 0 201)) (seqZ (-20) 221) = true.
Proof. by vm_compute. Qed.

(** For capacities from 1 to 200 and enrolled counts from 0 to 200 the
    percentage shown is an integer nearest to the exact percentage. *)
Lemma percentage_nearest_on_grid :
  forallb (λ c, forallb (λ e, percentage_is_nearest e c) (seqZ 0 201)) (seqZ 1 200) = true.
Proof. by vm_compute. Qed.

(** * The engine on the sample data *)

Local Abbreviation sample_forecast :=
  (forecastStats Calendar.parseISO Calendar.differenceInMonths sample_classrooms).
Local Abbreviation sample_trend :=
  (trendData Calendar.parseISO Calendar.differenceInMonths Calendar.addMonths Calendar.format
     sample_classrooms).

Lemma sample_ids_NoDup : NoDup (Classroom.id <$> sample_classrooms).
Proof. apply (bool_decide_unpack _). by vm_compute. Defined.

Lemma sample_db_primary_key : primary_key sample_db.
Proof.
  split; [exact sample_ids_NoDup|]. intros row Hrow. simpl in Hrow.
  repeat (apply elem_of_cons in Hrow as [->|Hrow]; [simpl; lia|]).
  by apply elem_of_nil in Hrow.
Qed.

Example sample_rosters :
  (λ kv, (kv.1, Child.id <$> ClassStats.enrolled kv.2,
          Child.id <$> ClassStats.graduatingSoon kv.2,
          ClassStats.graduatingNextMonth kv.2))
    <$> map_to_list (sample_forecast sample_date sample_children)
  = [(3, [6; 7; 4], [], 0); (2, [2; 3], [2], 0); (1, [1], [1], 1)].
Proof. by vm_compute. Qed.

Example sample_insights :
  capacityInsights sample_classrooms (sample_forecast sample_date sample_children)
  = [ Insight.mk Insight.opportunity
        "Infants has high availability (7 vacancies). Consider marketing." 1;
      Insight.mk Insight.warning "Wobblers is nearing capacity (0 spots left)." 2;
      Insight.mk Insight.critical "Toddlers is over capacity by 1 spot." 3 ].
Proof. by vm_compute. Qed.

Example post_accepts_negative_capacity :
  let created := Classroom.mk 1 "Infants" "bg-blue-100" 0 12 (-5) "1:4" in
  let stats := forecastStats Calendar.parseISO Calendar.differenceInMonths
                 [created] sample_date [] in
  postClassroom true negative_capacity_body empty_db
  = (Returned (mkResponse 201 (ClassroomJson created)), mkDb [created] 2)
  ∧ capacityInsights [created] stats
    = [ Insight.mk Insight.opportunity
          "Infants has high availability (-5 vacancies). Consider marketing." 1 ].
Proof. by vm_compute. Qed.

(** C6, as stated, fails for a negative capacity: a classroom created with
    capacity -5 (see [post_accepts_negative_capacity]) in which Emma is
    enrolled holds more children than its capacity, and its one alert is the
    opportunity alert, not the critical one. *)
Lemma over_capacity_without_critical_alert :
  let c := Classroom.mk 1 "Infants" "bg-blue-100" 0 12 (-5) "1:4" in
  let stats := forecastStats Calendar.parseISO Calendar.differenceInMonths
                 [c] sample_date [emma] in
  let enrolled := enrolledCount stats c in
  let alerts := classroomInsights (capacityInsights [c] stats) c in
  enrolled = 1
  ∧ Classroom.capacity c < enrolled
  ∧ alerts
    = [ Insight.mk Insight.opportunity
          "Infants has high availability (-6 vacancies). Consider marketing." 1 ]
  ∧ ¬ (Classroom.capacity c < enrolled → Insight.type <$> alerts = [Insight.critical]).
Proof.
  repeat split; try by vm_compute.
  intros Hclaim. by specialize (Hclaim eq_refl).
Qed.

(** The renamed classroom is read last afterwards. *)
Example sample_patch :
  patchClassroom decimal true "2" rename_body sample_db
  = (Returned (mkResponse 200
                 (ClassroomJson (Classroom.mk 2 "Babies" "bg-green-100" 12 24 2 "1:5"))),
     mkDb [infants; toddlers; Classroom.mk 2 "Babies" "bg-green-100" 12 24 2 "1:5"] 4)
  ∧ patchClassroom decimal true "7" rename_body sample_db
    = (Returned (mkResponse 404 (MessageJson "Not found")), sample_db).
Proof. by vm_compute. Qed.

(** A capacity that is not a 4-byte integer is refused by the schema or by
    the database, according to the release. *)
Example fractional_capacity_is_not_stored :
  postClassroom true fractional_capacity_body sample_db
  = (Returned (mkResponse 400 ZodErrorJson), sample_db)
  ∧ postClassroom false fractional_capacity_body sample_db
    = (Thrown integer_error, sample_db).
Proof. by vm_compute. Qed.

(** Emma, 11 months old, is in the band [0, 12) of the first classroom. *)
Lemma assignment_witness :
  getClassroomForChild Calendar.parseISO Calendar.differenceInMonths emma sample_date
    sample_classrooms = Some (Classroom.id infants)
  ∧ (∃ s, sample_forecast sample_date sample_children !! Classroom.id infants = Some s)
  ∧ (∀ k s, sample_forecast sample_date sample_children !! k = Some s →
            emma ∈ ClassStats.enrolled s ↔ emma ∈ sample_children ∧ k = Classroom.id infants).
Proof.
  apply (proj1 (assignment_first_matching_band Calendar.parseISO Calendar.differenceInMonths
                  sample_classrooms sample_children sample_date emma)
           [] infants [wobblers; toddlers] 11).
  - reflexivity.
  - reflexivity.
  - simpl. lia.
  - intros c' Hc'. by apply elem_of_nil in Hc'.
Defined.

Lemma critical_alert_witness :
  let stats := sample_forecast sample_date sample_children in
  let enrolled := enrolledCount stats toddlers in
  let alerts := classroomInsights (capacityInsights sample_classrooms stats) toddlers in
  ((∃ a, a ∈ alerts ∧ Insight.type a = Insight.critical)
     ↔ Classroom.capacity toddlers < enrolled)
  ∧ (Classroom.capacity toddlers < enrolled →
       alerts = [Insight.mk Insight.critical
                   (Classroom.name toddlers +:+ " is over capacity by "
                      +:+ pretty (enrolled - Classroom.capacity toddlers)
                      +:+ " spot" +:+ plural (enrolled - Classroom.capacity toddlers) +:+ ".")
                   (Classroom.id toddlers)])
  ∧ (enrolled = Classroom.capacity toddlers →
       alerts = [Insight.mk Insight.warning
                   (Classroom.name toddlers +:+ " is nearing capacity (0 spots left).")
                   (Classroom.id toddlers)]).
Proof.
  apply (critical_alert_iff_over_capacity Calendar.parseISO Calendar.differenceInMonths
           sample_classrooms sample_date sample_children toddlers).
  - exact sample_ids_NoDup.
  - by apply (list_elem_of_lookup_2 _ 2).
  - simpl. lia.
Defined.

(** A classroom of capacity zero is created and reaches the engine; it has
    no child on the sample date and no alert. *)
Lemma post_classroom_witness :
  let created := Classroom.mk 4 "Infants" "bg-blue-100" 0 12 0 "1:4" in
  let db' := mkDb (sample_classrooms ++ [created]) (4 + 1) in
  let cls := getClassrooms db' in
  let stats := forecastStats Calendar.parseISO Calendar.differenceInMonths cls sample_date
                 sample_children in
  postClassroom true zero_capacity_body sample_db
  = (Returned (mkResponse 201 (ClassroomJson created)), db')
  ∧ created ∈ cls
  ∧ is_Some (stats !! Classroom.id created)
  ∧ Insight.type <$> classroomInsights (capacityInsights cls stats) created
    = (if bool_decide (enrolledCount stats created = 0) then [] else [Insight.critical]).
Proof.
  destruct (post_classroom_checks_types_only Calendar.parseISO Calendar.differenceInMonths
              true
              [ ("name", JString "Infants"); ("color", JString "bg-blue-100");
                ("minAgeMonths", JInt 0); ("maxAgeMonths", JInt 12);
                ("capacity", JInt 0); ("ratio", JString "1:4") ]
              "Infants" "bg-blue-100" "1:4" 0 12 0 sample_db)
    as (Hcreated & Hlisted & Hengine & _); try reflexivity; try lia.
  destruct (Hengine sample_db_primary_key sample_date sample_children)
    as (Hentry & Hzero & _).
  split; [exact Hcreated|]. split; [exact Hlisted|]. split; [exact Hentry|].
  exact (Hzero eq_refl).
Defined.

Lemma trend_series_witness :
  ∃ points,
    sample_trend sample_date sample_children !! Classroom.id toddlers = Some points
    ∧ length points = 25%nat
    ∧ ∀ i, (i < 25)%nat →
        let m := Z.of_nat i - 12 in
        points !! i
        = Some (TrendPoint.mk (Calendar.format (Calendar.addMonths sample_date m))
                  (Some (enrolledCount
                           (sample_forecast (Calendar.addMonths sample_date m) sample_children)
                           toddlers))
                  (Classroom.capacity toddlers)
                  (bool_decide (0 < m))).
Proof.
  apply (trend_series_25_points Calendar.parseISO Calendar.differenceInMonths
           Calendar.addMonths Calendar.format
           sample_classrooms sample_date sample_children toddlers).
  - exact sample_ids_NoDup.
  - by apply (list_elem_of_lookup_2 _ 2).
Defined.

Lemma graduating_witness :
  let s := statsFor (sample_forecast sample_date sample_children) infants in
  getChildAgeInMonths Calendar.parseISO Calendar.differenceInMonths
    (Child.birthDate emma) sample_date = Some 11
  ∧ getClassroomForChild Calendar.parseISO Calendar.differenceInMonths
      emma sample_date sample_classrooms = Some (Classroom.id infants)
  ∧ emma ∈ ClassStats.enrolled s
  ∧ emma ∈ ClassStats.graduatingSoon s
  ∧ monthsLeftAtMost Calendar.parseISO Calendar.differenceInMonths sample_date
      1 infants emma = true
  ∧ 1 ≤ ClassStats.graduatingNextMonth s.
Proof.
  split; [reflexivity|].
  destruct (graduating_soon_and_next_month Calendar.parseISO Calendar.differenceInMonths
              sample_classrooms sample_children sample_date infants)
    as (_ & _ & _ & _ & _ & _ & _ & Hscenario).
  - exact sample_ids_NoDup.
  - by apply (list_elem_of_lookup_2 _ 0).
  - apply (Hscenario emma [] (tl sample_classrooms)).
    + by apply (list_elem_of_lookup_2 _ 0).
    + reflexivity.
    + reflexivity.
    + reflexivity.
    + reflexivity.
    + intros c' Hc'. by apply elem_of_nil in Hc'.
Defined.

Lemma one_alert_witness :
  let stats := sample_forecast sample_date sample_children in
  let enrolled := enrolledCount stats wobblers in
  let ratio := js_div enrolled (Classroom.capacity wobblers) in
  let alerts := classroomInsights (capacityInsights sample_classrooms stats) wobblers in
  (length alerts ≤ 1)%nat
  ∧ Insight.type <$> alerts
    = (if quot_gtb ratio 1 then [Insight.critical]
       else if quot_geb ratio (9 # 10) then [Insight.warning]
       else if quot_leb ratio (6 # 10) then [Insight.opportunity]
       else [])
  ∧ (0 ≤ Classroom.capacity wobblers →
       quot_gtb ratio 1 = true ↔ Classroom.capacity wobblers < enrolled)
  ∧ (0 < Classroom.capacity wobblers →
       (quot_geb ratio (9 # 10) = true ↔ 9 * Classroom.capacity wobblers ≤ 10 * enrolled)
       ∧ (quot_leb ratio (6 # 10) = true ↔ 10 * enrolled ≤ 6 * Classroom.capacity wobblers))
  ∧ (Classroom.capacity wobblers = 0 →
       Insight.type <$> alerts
       = if bool_decide (enrolled = 0) then [] else [Insight.critical])
  ∧ (Classroom.capacity wobblers < 0 →
       Classroom.capacity wobblers < enrolled
       ∧ Insight.type <$> alerts = [Insight.opportunity]).
Proof.
  apply (at_most_one_alert_by_priority Calendar.parseISO Calendar.differenceInMonths
           sample_classrooms sample_date sample_children wobblers).
  - exact sample_ids_NoDup.
  - by apply (list_elem_of_lookup_2 _ 1).
Defined.

Lemma roster_witness :
  let s := statsFor (sample_forecast sample_date sample_children) toddlers in
  (∃ s', sample_forecast sample_date (reverse sample_children) !! Classroom.id toddlers = Some s'
         ∧ ClassStats.enrolled s ≡ₚ ClassStats.enrolled s'
         ∧ (∀ ch, ch ∈ ClassStats.enrolled s ↔ ch ∈ ClassStats.enrolled s'))
  ∧ (∀ i j a b, (i < j)%nat →
        ClassStats.enrolled s !! i = Some a →
        ClassStats.enrolled s !! j = Some b →
        ∃ x y, getChildAgeInMonths Calendar.parseISO Calendar.differenceInMonths
                 (Child.birthDate a) sample_date = Some x
               ∧ getChildAgeInMonths Calendar.parseISO Calendar.differenceInMonths
                   (Child.birthDate b) sample_date = Some y
               ∧ y ≤ x).
Proof.
  apply (roster_order_independent_and_oldest_first
           Calendar.parseISO Calendar.differenceInMonths
           sample_classrooms sample_date sample_children (reverse sample_children)).
  - symmetry. apply reverse_Permutation.
  - by vm_compute.
Defined.

Lemma totals_witness :
  let stats := sample_forecast sample_date sample_children in
  totalCapacity sample_classrooms = Zsum (Classroom.capacity <$> sample_classrooms)
  ∧ totalEnrolled stats = Zsum (enrolledCount stats <$> sample_classrooms)
  ∧ totalEnrolled stats
    = Zsum ((λ s, Z.of_nat (length (ClassStats.enrolled s))) <$> Object_values stats)
  ∧ totalVacancies sample_classrooms stats = totalCapacity sample_classrooms - totalEnrolled stats
  ∧ (totalCapacity sample_classrooms < totalEnrolled stats →
       totalVacancies sample_classrooms stats < 0)
  ∧ totalCapacityPercentage sample_classrooms stats
    = Math_round (Z2F (totalEnrolled stats) / Z2F (totalCapacity sample_classrooms)
                  * Z2F 100)%float
  ∧ (sample_classrooms = [] → totalCapacityPercentage sample_classrooms stats = RNaN).
Proof.
  apply (totals_and_percentage Calendar.parseISO Calendar.differenceInMonths
           sample_classrooms sample_date sample_children).
  exact sample_ids_NoDup.
Defined.

Lemma counting_witness :
  (∀ ch k1 k2 s1 s2,
      sample_forecast sample_date sample_children !! k1 = Some s1 →
      sample_forecast sample_date sample_children !! k2 = Some s2 →
      ch ∈ ClassStats.enrolled s1 → ch ∈ ClassStats.enrolled s2 → k1 = k2)
  ∧ Zsum (enrolledCount (sample_forecast sample_date sample_children) <$> sample_classrooms)
    ≤ Z.of_nat (length sample_children)
  ∧ totalEnrolled (sample_forecast sample_date sample_children)
    ≤ Z.of_nat (length sample_children)
  ∧ (∀ i, (i < 25)%nat →
       (∀ c, c ∈ sample_classrooms →
             ∃ p n, pointAt (sample_trend sample_date sample_children) c i = Some p
                    ∧ TrendPoint.enrolled p = Some n)
       ∧ Zsum ((λ c, default 0 (pointAt (sample_trend sample_date sample_children) c i
                                  ≫= TrendPoint.enrolled)) <$> sample_classrooms)
         ≤ Z.of_nat (length sample_children)).
Proof.
  apply (rosters_disjoint_and_bounded Calendar.parseISO Calendar.differenceInMonths
           Calendar.addMonths Calendar.format sample_classrooms sample_date sample_children).
  exact sample_ids_NoDup.
Defined.

(** * Further properties of the engine *)

Lemma Zsum_indicator_elem (k : Z) (ks : list Z) :
  NoDup ks → k ∈ ks → Zsum ((λ k', if decide (Some k = Some k') then 1 else 0) <$> ks) = 1.
Proof.
  induction ks as [|k0 ks IH]; intros Hnd Hk; [by apply elem_of_nil in Hk|].
  apply NoDup_cons in Hnd as [Hk0 Hnd]. rewrite fmap_cons, Zsum_cons.
  apply elem_of_cons in Hk as [->|Hk].
  - rewrite decide_True by done. rewrite (Zsum_fmap_ext _ (λ _, 0)); [by rewrite Zsum_zero|].
    intros k' Hk'. rewrite decide_False; [done|]. intros [= ->]. done.
  - rewrite decide_False by (intros [= ->]; done). rewrite IH by done. lia.
Qed.

(** Buckets with distinct keys that cover the keys in use hold every item
    that has a key. *)
Lemma Zsum_buckets_eq {A} (f : A → option Z) (ks : list Z) (l : list A) :
  NoDup ks →
  (∀ x k, x ∈ l → f x = Some k → k ∈ ks) →
  Zsum ((λ k, Z.of_nat (length (filter (λ x, f x = Some k) l))) <$> ks)
  = Z.of_nat (length (filter (λ x, is_Some (f x)) l)).
Proof.
  intros Hnd. induction l as [|x l IH]; intros Hks.
  - rewrite (Zsum_fmap_ext _ (λ _, 0)) by done. by rewrite Zsum_zero.
  - rewrite (Zsum_fmap_ext _
      (λ k, (if decide (f x = Some k) then 1 else 0)
            + Z.of_nat (length (filter (λ x, f x = Some k) l)))).
    + rewrite Zsum_fmap_add, IH.
      2:{ intros y k Hy. apply Hks, elem_of_cons. by right. }
      rewrite filter_cons. destruct (f x) as [k|] eqn:Hfx.
      * rewrite Zsum_indicator_elem; [|done|].
        -- rewrite decide_True by done. simpl length. lia.
        -- apply (Hks x); [apply elem_of_cons; by left|done].
      * rewrite (Zsum_fmap_ext _ (λ _, 0)) by (intros; by rewrite decide_False).
        rewrite Zsum_zero, decide_False; [lia|]. by intros [? ?].
    + intros k _. rewrite filter_cons. case_decide; simpl; lia.
Qed.

Lemma length_filter_complement {A} (P : A → Prop) `{!∀ x, Decision (P x)} (l : list A) :
  (length (filter P l) + length (filter (λ x, ¬ P x) l) = length l)%nat.
Proof. by rewrite <-length_app, filter_app_complement. Qed.

Lemma filter_sublist_impl {A} (P Q : A → Prop)
    `{!∀ x, Decision (P x), !∀ x, Decision (Q x)} (l : list A) :
  (∀ x, P x → Q x) → filter P l `sublist_of` filter Q l.
Proof.
  intros HPQ. rewrite <-(list_filter_filter_l P Q) by done. apply sublist_filter.
Qed.

Section MoreEngineFacts.
Context {Date : Type}.
Variable parseISO : string → Date.
Variable differenceInMonths : Date → Date → option Z.

Local Abbreviation age ch d := (getChildAgeInMonths parseISO differenceInMonths (Child.birthDate ch) d).
Local Abbreviation classroomOf := (getClassroomForChild parseISO differenceInMonths).
Local Abbreviation assigned := (assignedTo parseISO differenceInMonths).
Local Abbreviation within := (graduatesWithin parseISO differenceInMonths).
Local Abbreviation forecast := (forecastStats parseISO differenceInMonths).
Local Abbreviation byAge := (byAgeDescending parseISO differenceInMonths).
Local Abbreviation ids cls := (Classroom.id <$> cls).

(** The enrolled total is the number of children that some band contains. *)
Lemma totalEnrolled_placed (cls : list Classroom.t) (d : Date) (chs : list Child.t) :
  totalEnrolled (forecast cls d chs)
  = Z.of_nat (length (filter (λ ch, is_Some (classroomOf ch d cls)) chs)).
Proof.
  rewrite totalEnrolled_forecast.
  apply (Zsum_buckets_eq (λ ch, classroomOf ch d cls)); [apply NoDup_fst_map_to_list|].
  intros ch k _ Hk%classroomOf_in_ids. apply list_elem_of_fmap.
  eexists (k, _). split; [done|]. apply elem_of_map_to_list.
  by rewrite forecast_lookup, decide_True.
Qed.

(** X1. Every child is counted exactly once in [totalEnrolled] when some
    band contains its age and not at all otherwise: the enrolled total and
    the number of children without a classroom add up to the number of
    children. *)
Theorem every_child_counted_once
    (cls : list Classroom.t) (d : Date) (chs : list Child.t) :
  totalEnrolled (forecast cls d chs)
  = Z.of_nat (length (filter (λ ch, is_Some (classroomOf ch d cls)) chs))
  ∧ totalEnrolled (forecast cls d chs)
    + Z.of_nat (length (filter (λ ch, classroomOf ch d cls = None) chs))
    = Z.of_nat (length chs).
Proof.
  split; [apply totalEnrolled_placed|]. rewrite totalEnrolled_placed.
  pose proof (length_filter_complement (λ ch, is_Some (classroomOf ch d cls)) chs) as Hlen.
  rewrite (list_filter_iff (λ ch, classroomOf ch d cls = None)
             (λ ch, ¬ is_Some (classroomOf ch d cls))).
  - lia.
  - intros ch. by rewrite eq_None_not_Some.
Qed.

(** X2. In every entry of [forecastStats] the graduating-soon children are
    among the enrolled ones, each enrolled child is a child of the input
    list, and the counter of children graduating next month is between 0 and
    the number of graduating-soon children. *)
Theorem stats_entry_invariants
    (cls : list Classroom.t) (d : Date) (chs : list Child.t) (k : Z) (s : ClassStats.t) :
  forecast cls d chs !! k = Some s →
  ClassStats.graduatingSoon s ⊆+ ClassStats.enrolled s
  ∧ ClassStats.enrolled s ⊆+ chs
  ∧ 0 ≤ ClassStats.graduatingNextMonth s
      ≤ Z.of_nat (length (ClassStats.graduatingSoon s))
  ∧ (length (ClassStats.graduatingSoon s) ≤ length (ClassStats.enrolled s))%nat.
Proof.
  rewrite forecast_lookup. case_decide; [|done]. intros [= <-]. simpl.
  split; [|split; [|split]].
  - rewrite array_sort_Permutation.
    apply sublist_submseteq, filter_sublist_impl. by intros ch [? _].
  - rewrite array_sort_Permutation. apply sublist_submseteq, sublist_filter.
  - split; [lia|]. apply inj_le, sublist_length, filter_sublist_impl.
    by intros ch (? & ? & _).
  - rewrite array_sort_Permutation. apply sublist_length, filter_sublist_impl.
    by intros ch [? _].
Qed.

Lemma classroomOf_birthDate (cls : list Classroom.t) (d : Date) (ch ch' : Child.t) :
  Child.birthDate ch = Child.birthDate ch' → classroomOf ch d cls = classroomOf ch' d cls.
Proof. intros Hbirth. unfold getClassroomForChild. by rewrite Hbirth. Qed.

Lemma monthsLeft_mono (d : Date) (n n' : Z) (c : Classroom.t) (ch : Child.t) :
  n ≤ n' →
  monthsLeftAtMost parseISO differenceInMonths d n c ch = true →
  monthsLeftAtMost parseISO differenceInMonths d n' c ch = true.
Proof.
  intros Hn. unfold monthsLeftAtMost, sub_num_leb.
  destruct (getChildAgeInMonths _ _ _ _); [|done].
  rewrite !bool_decide_eq_true. lia.
Qed.

Lemma isGraduatingSoon_monthsLeft (d : Date) (c : Classroom.t) (ch : Child.t) :
  isGraduatingSoon parseISO differenceInMonths d c ch
  = monthsLeftAtMost parseISO differenceInMonths d 2 c ch.
Proof.
  unfold isGraduatingSoon, monthsToGraduation, monthsLeftAtMost, sub_num_leb.
  by destruct (getChildAgeInMonths _ _ _ _).
Qed.

(** Children counted under [P] and not hidden by [T] are counted under [Q]. *)
Lemma filter_length_hidden {A} (P Q S T : A → Prop)
    `{!∀ x, Decision (P x), !∀ x, Decision (Q x),
      !∀ x, Decision (S x), !∀ x, Decision (T x)} (l : list A) :
  (∀ x, T x → S x) → (∀ x, P x → S x) → (∀ x, P x → T x → Q x) →
  (length (filter P l) + length (filter T l)
   ≤ length (filter Q l) + length (filter S l))%nat.
Proof.
  intros HTS HPS HPTQ. induction l as [|x l IH]; [done|].
  rewrite !filter_cons.
  destruct (decide (P x)), (decide (Q x)), (decide (S x)), (decide (T x));
    simpl; try lia; exfalso; naive_solver.
Qed.

(** X3. The rows of a classroom card are the enrolled children that match
    the search box.  The rows marked as graduating soon (at most 2 months
    left) are at most as many as the graduating-soon list of [forecastStats]
    (at most 3 months left), to which they all belong.  The badge count of
    children graduating next month is computed before the search filter: it
    is at most the marked rows plus the enrolled children that the search
    hides, so at most the marked rows when the search box is empty or every
    enrolled child matches. *)
Theorem highlighted_rows_between_badge_and_graduating_soon
    (toLowerCase : string → string) (includes : string → string → bool)
    (cls : list Classroom.t) (d : Date) (chs : list Child.t) (c : Classroom.t)
    (searchQuery : string) :
  NoDup (ids cls) → c ∈ cls →
  let s := statsFor (forecast cls d chs) c in
  let rows := rosterRows toLowerCase includes searchQuery s in
  let highlighted :=
    filter (λ ch, isGraduatingSoon parseISO differenceInMonths d c ch = true) rows in
  (length highlighted ≤ length (ClassStats.graduatingSoon s))%nat
  ∧ (∀ ch, ch ∈ highlighted → ch ∈ ClassStats.graduatingSoon s)
  ∧ rows `sublist_of` ClassStats.enrolled s
  ∧ ClassStats.graduatingNextMonth s
    ≤ Z.of_nat (length highlighted)
      + (Z.of_nat (length (ClassStats.enrolled s)) - Z.of_nat (length rows))
  ∧ ((∀ ch, ch ∈ ClassStats.enrolled s →
            matchesSearch toLowerCase includes searchQuery ch = true) →
       rows = ClassStats.enrolled s
       ∧ ClassStats.graduatingNextMonth s ≤ Z.of_nat (length highlighted))
  ∧ (searchQuery = "" →
       rows = ClassStats.enrolled s
       ∧ ClassStats.graduatingNextMonth s ≤ Z.of_nat (length highlighted)).
Proof.
  intros Hnd Hc s rows highlighted.
  set (matches := λ ch, matchesSearch toLowerCase includes searchQuery ch = true).
  assert (ClassStats.enrolled s ≡ₚ filter (assigned cls d (Classroom.id c)) chs) as Henrolled.
  { unfold s, statsFor. rewrite forecast_lookup.
    rewrite decide_True by by apply list_elem_of_fmap_2. simpl.
    by rewrite array_sort_Permutation. }
  assert (rows ≡ₚ filter (λ ch, matches ch ∧ assigned cls d (Classroom.id c) ch) chs)
    as Hrows.
  { unfold rows, rosterRows. fold matches. by rewrite Henrolled, list_filter_filter. }
  assert (highlighted
          ≡ₚ filter (λ ch, monthsLeftAtMost parseISO differenceInMonths d 2 c ch = true
                           ∧ matches ch ∧ assigned cls d (Classroom.id c) ch) chs) as Hhigh.
  { unfold highlighted. rewrite Hrows, list_filter_filter.
    erewrite list_filter_iff; [done|]. intros ch. simpl.
    by rewrite isGraduatingSoon_monthsLeft. }
  assert (ClassStats.graduatingSoon s
          = filter (λ ch, assigned cls d (Classroom.id c) ch
                          ∧ monthsLeftAtMost parseISO differenceInMonths d 3 c ch = true) chs)
    as Hsoon.
  { unfold s, statsFor. rewrite forecast_lookup.
    rewrite decide_True by by apply list_elem_of_fmap_2. simpl.
    apply list_filter_iff. intros ch. by rewrite within_NoDup. }
  assert (ClassStats.graduatingNextMonth s
          = Z.of_nat (length (filter
              (λ ch, assigned cls d (Classroom.id c) ch
                     ∧ monthsLeftAtMost parseISO differenceInMonths d 3 c ch = true
                     ∧ monthsLeftAtMost parseISO differenceInMonths d 1 c ch = true) chs)))
    as Hnext.
  { unfold s, statsFor. rewrite forecast_lookup.
    rewrite decide_True by by apply list_elem_of_fmap_2. simpl. do 2 f_equal.
    apply list_filter_iff. intros ch. by rewrite !within_NoDup. }
  assert (ClassStats.graduatingNextMonth s
          ≤ Z.of_nat (length highlighted)
            + (Z.of_nat (length (ClassStats.enrolled s)) - Z.of_nat (length rows))) as Hbadge.
  { rewrite Hnext, Hhigh, Henrolled, Hrows.
    pose proof (filter_length_hidden
                  (λ ch, assigned cls d (Classroom.id c) ch
                         ∧ monthsLeftAtMost parseISO differenceInMonths d 3 c ch = true
                         ∧ monthsLeftAtMost parseISO differenceInMonths d 1 c ch = true)
                  (λ ch, monthsLeftAtMost parseISO differenceInMonths d 2 c ch = true
                         ∧ matches ch ∧ assigned cls d (Classroom.id c) ch)
                  (assigned cls d (Classroom.id c))
                  (λ ch, matches ch ∧ assigned cls d (Classroom.id c) ch) chs) as Hlen.
    cut (length (filter
                   (λ ch, assigned cls d (Classroom.id c) ch
                          ∧ monthsLeftAtMost parseISO differenceInMonths d 3 c ch = true
                          ∧ monthsLeftAtMost parseISO differenceInMonths d 1 c ch = true) chs)
         + length (filter (λ ch, matches ch ∧ assigned cls d (Classroom.id c) ch) chs)
         ≤ length (filter
                     (λ ch, monthsLeftAtMost parseISO differenceInMonths d 2 c ch = true
                            ∧ matches ch ∧ assigned cls d (Classroom.id c) ch) chs)
           + length (filter (assigned cls d (Classroom.id c)) chs))%nat; [lia|].
    apply Hlen.
    - by intros ch [_ ?].
    - by intros ch [? _].
    - intros ch (Ha & _ & H1) [Hm _]. split; [|done]. by apply (monthsLeft_mono d 1 2). }
  assert ((∀ ch, ch ∈ ClassStats.enrolled s → matches ch) →
          rows = ClassStats.enrolled s
          ∧ ClassStats.graduatingNextMonth s ≤ Z.of_nat (length highlighted)) as Hall.
  { intros Hmatch.
    assert (rows = ClassStats.enrolled s) as Heq by by apply filter_all.
    split; [done|]. rewrite Heq in Hbadge. lia. }
  split; [|split; [|split; [|split; [|split]]]].
  - rewrite Hsoon, Hhigh. apply sublist_length, filter_sublist_impl.
    intros ch (H2 & _ & ?). split; [done|]. by apply (monthsLeft_mono d 2 3).
  - intros ch Hch. rewrite Hhigh in Hch.
    apply list_elem_of_filter in Hch as [(H2 & _ & Ha) Hin]. rewrite Hsoon.
    apply list_elem_of_filter.
    split; [|done]. split; [done|]. by apply (monthsLeft_mono d 2 3).
  - apply sublist_filter.
  - exact Hbadge.
  - exact Hall.
  - intros ->. apply Hall. by intros ch _.
Qed.

(** X4. The badge of a roster row never reads the name of a classroom that
    does not exist: whatever the classroom list and the position of the
    card, [moveTooltip] returns; it is rendered only on a card that has a
    next one, and never on the last card. *)
Theorem move_tooltip_never_throws
    (cls : list Classroom.t) (d : Date) (index : nat) (c : Classroom.t) (ch : Child.t) :
  ∃ text,
    moveTooltip parseISO differenceInMonths cls d index c ch = Returned text
    ∧ (is_Some text →
         isGraduatingSoon parseISO differenceInMonths d c ch = true
         ∧ is_Some (cls !! S index))
    ∧ (S index = length cls → text = None).
Proof.
  unfold moveTooltip.
  destruct (isGraduatingSoon _ _ _ _ _) eqn:Hsoon; simpl.
  - case_bool_decide as Hindex.
    + destruct (cls !! S index) as [next|] eqn:Hnext.
      * eexists. split; [done|]. split; [eauto|]. lia.
      * apply lookup_ge_None in Hnext. lia.
    + eexists. split; [done|]. split; [by intros [? ?]|done].
  - eexists. split; [done|]. split; [by intros [? ?]|done].
Qed.

(** X5. When the age bands follow each other in list order, the badge is
    right: a child with [m] months left in the classroom at position [i],
    whose band ends where the next one starts, is assigned to the classroom
    at position [i + 1] at any date at which the child is [m] months older. *)
Theorem child_moves_to_next_classroom
    (cls : list Classroom.t) (d d' : Date) (i : nat) (c next : Classroom.t)
    (ch : Child.t) (a m : Z) :
  cls !! i = Some c →
  cls !! S i = Some next →
  Classroom.maxAgeMonths c = Classroom.minAgeMonths next →
  Classroom.minAgeMonths next < Classroom.maxAgeMonths next →
  (∀ j c', (j ≤ i)%nat → cls !! j = Some c' →
           Classroom.maxAgeMonths c' ≤ Classroom.maxAgeMonths c) →
  age ch d = Some a →
  monthsToGraduation parseISO differenceInMonths d c ch = Some m →
  age ch d' = Some (a + m) →
  classroomOf ch d' cls = Some (Classroom.id next).
Proof.
  intros Hi Hnext Hcontig Hband Hbefore Ha Hm Ha'.
  unfold monthsToGraduation in Hm. rewrite Ha in Hm. injection Hm as <-.
  apply classroomOf_Some. exists next. split; [|done].
  apply find_first. exists (take (S i) cls), (drop (S (S i)) cls). split; [|split].
  - rewrite <-(take_drop_middle cls (S i) next Hnext) at 1. done.
  - rewrite Ha'. apply inBand_spec. eexists. split; [done|]. lia.
  - apply Forall_forall. intros c' Hc'. apply not_true_is_false.
    rewrite Ha'. intros (n & [= <-] & Hn)%inBand_spec.
    apply list_elem_of_lookup in Hc' as [j Hj].
    pose proof (lookup_lt_Some _ _ _ Hj) as Hlen. rewrite length_take in Hlen.
    rewrite lookup_take_lt in Hj by lia.
    specialize (Hbefore j c' ltac:(lia) Hj). lia.
Qed.

End MoreEngineFacts.

(** ** What the engine reads of a child *)

Lemma fmap_filter_respect {A B} (f : A → B) (P : A → Prop) `{!∀ x, Decision (P x)}
    (l l' : list A) :
  (∀ x y, f x = f y → P x ↔ P y) →
  f <$> l = f <$> l' → f <$> filter P l = f <$> filter P l'.
Proof.
  intros HP. revert l'. induction l as [|x l IH]; intros [|x' l'] Hl; try done.
  rewrite !fmap_cons in Hl. injection Hl as Hx Hl.
  rewrite !filter_cons. pose proof (HP x x' Hx) as Hiff.
  destruct (decide (P x)) as [Hp|Hp], (decide (P x')) as [Hp'|Hp'].
  - rewrite !fmap_cons. f_equal; [done|by apply IH].
  - exfalso. by apply Hp', Hiff.
  - exfalso. by apply Hp, Hiff.
  - by apply IH.
Qed.

Lemma length_filter_respect {A B} (f : A → B) (P : A → Prop) `{!∀ x, Decision (P x)}
    (l l' : list A) :
  (∀ x y, f x = f y → P x ↔ P y) →
  f <$> l = f <$> l' → length (filter P l) = length (filter P l').
Proof.
  intros HP Hl. rewrite <-(length_fmap f (filter P l)), <-(length_fmap f (filter P l')).
  f_equal. by apply fmap_filter_respect.
Qed.

Lemma fmap_sort_insert {A B} (f : A → B) (cmp : A → A → Z) (x x' : A) (l l' : list A) :
  (∀ a b a' b', f a = f a' → f b = f b' → cmp a b = cmp a' b') →
  f x = f x' → f <$> l = f <$> l' →
  f <$> sort_insert cmp x l = f <$> sort_insert cmp x' l'.
Proof.
  intros Hcmp Hx. revert l'. induction l as [|y l IH]; intros [|y' l'] Hl; try done.
  - simpl. by rewrite Hx.
  - rewrite !fmap_cons in Hl. injection Hl as Hy Hl. simpl.
    rewrite (Hcmp x y x' y' Hx Hy). case_bool_decide.
    + rewrite !fmap_cons. by rewrite Hx, Hy, Hl.
    + rewrite !fmap_cons, Hy. f_equal. by apply IH.
Qed.

Lemma fmap_array_sort {A B} (f : A → B) (cmp : A → A → Z) (l l' : list A) :
  (∀ a b a' b', f a = f a' → f b = f b' → cmp a b = cmp a' b') →
  f <$> l = f <$> l' →
  f <$> array_sort cmp l = f <$> array_sort cmp l'.
Proof.
  intros Hcmp. revert l'. induction l as [|x l IH]; intros [|x' l'] Hl; try done.
  rewrite !fmap_cons in Hl. injection Hl as Hx Hl. simpl.
  apply fmap_sort_insert; [done|done|by apply IH].
Qed.

Section InputFacts.
Context {Date : Type}.
Variable parseISO : string → Date.
Variable differenceInMonths : Date → Date → option Z.
Variable addMonths : Date → Z → Date.
Variable format : Date → string.

Local Abbreviation age ch d := (getChildAgeInMonths parseISO differenceInMonths (Child.birthDate ch) d).
Local Abbreviation classroomOf := (getClassroomForChild parseISO differenceInMonths).
Local Abbreviation assigned := (assignedTo parseISO differenceInMonths).
Local Abbreviation within := (graduatesWithin parseISO differenceInMonths).
Local Abbreviation forecast := (forecastStats parseISO differenceInMonths).
Local Abbreviation trend := (trendData parseISO differenceInMonths addMonths format).
Local Abbreviation byAge := (byAgeDescending parseISO differenceInMonths).
Local Abbreviation ids cls := (Classroom.id <$> cls).

(** X6. The dictionaries [forecastStats] and [trendData] have exactly the
    classroom ids as keys, whatever the children: the fallbacks
    [forecastStats[classroom.id] || {...}] and [trendData[classroom.id] || []]
    are never taken for a classroom of the list. *)
Theorem stats_and_trend_keys
    (cls : list Classroom.t) (d : Date) (chs : list Child.t) (k : Z) :
  (is_Some (forecast cls d chs !! k) ↔ k ∈ ids cls)
  ∧ (is_Some (trend cls d chs !! k) ↔ k ∈ ids cls).
Proof.
  split.
  - rewrite forecast_lookup. case_decide; split; try done; by intros [? ?].
  - unfold trendData. rewrite trendMonths_lookup, foldl_init_lookup.
    case_decide; simpl; split; try done; rewrite lookup_empty; by intros [? ?].
Qed.

Lemma assigned_birthDate (cls : list Classroom.t) (d : Date) (k : Z) (ch ch' : Child.t) :
  Child.birthDate ch = Child.birthDate ch' → assigned cls d k ch ↔ assigned cls d k ch'.
Proof. intros Hbirth. unfold assignedTo, getClassroomForChild. by rewrite Hbirth. Qed.

Lemma within_birthDate (cls : list Classroom.t) (d : Date) (n k : Z) (ch ch' : Child.t) :
  Child.birthDate ch = Child.birthDate ch' → within cls d n k ch = within cls d n k ch'.
Proof.
  intros Hbirth. unfold graduatesWithin, monthsLeftAtMost. by rewrite Hbirth.
Qed.

Lemma byAge_birthDate (d : Date) (a b a' b' : Child.t) :
  Child.birthDate a = Child.birthDate a' → Child.birthDate b = Child.birthDate b' →
  byAge d a b = byAge d a' b'.
Proof. intros Ha Hb. unfold byAgeDescending. by rewrite Ha, Hb. Qed.

(** X7. The engine reads nothing of a child but the birth date: two lists of
    children with the same birth dates in the same order give, for every
    classroom, rosters and graduating-soon lists with the same birth dates
    and the same count of children graduating next month, and the same
    alerts, enrolled total and trend series. *)
Theorem engine_reads_birth_dates_only
    (cls : list Classroom.t) (d : Date) (chs chs' : list Child.t) :
  Child.birthDate <$> chs = Child.birthDate <$> chs' →
  (∀ c,
     let s := statsFor (forecast cls d chs) c in
     let s' := statsFor (forecast cls d chs') c in
     Child.birthDate <$> ClassStats.enrolled s = Child.birthDate <$> ClassStats.enrolled s'
     ∧ Child.birthDate <$> ClassStats.graduatingSoon s
       = Child.birthDate <$> ClassStats.graduatingSoon s'
     ∧ ClassStats.graduatingNextMonth s = ClassStats.graduatingNextMonth s')
  ∧ capacityInsights cls (forecast cls d chs) = capacityInsights cls (forecast cls d chs')
  ∧ totalEnrolled (forecast cls d chs) = totalEnrolled (forecast cls d chs')
  ∧ trend cls d chs = trend cls d chs'.
Proof.
  intros Hbirth.
  assert (∀ d' k, length (filter (assigned cls d' k) chs)
                  = length (filter (assigned cls d' k) chs')) as Hlen.
  { intros d' k. apply (length_filter_respect Child.birthDate); [|done].
    intros x y. apply assigned_birthDate. }
  split; [|split; [|split]].
  - intros c s s'. unfold s, s', statsFor. rewrite !forecast_lookup.
    case_decide; simpl; [|done]. split; [|split].
    + apply fmap_array_sort; [intros; by apply byAge_birthDate|].
      apply fmap_filter_respect; [|done]. intros x y. apply assigned_birthDate.
    + apply fmap_filter_respect; [|done]. intros x y Hxy.
      by rewrite (assigned_birthDate cls d _ x y Hxy), (within_birthDate cls d 3 _ x y Hxy).
    + f_equal. apply (length_filter_respect Child.birthDate); [|done]. intros x y Hxy.
      by rewrite (assigned_birthDate cls d _ x y Hxy), (within_birthDate cls d 3 _ x y Hxy),
        (within_birthDate cls d 1 _ x y Hxy).
  - rewrite !capacityInsights_concat. f_equal. apply list_fmap_ext. intros i c _.
    unfold pushInsight. rewrite !forecast_lookup. case_decide; [|done]. simpl.
    by rewrite !array_sort_Permutation, Hlen.
  - rewrite !totalEnrolled_placed. f_equal.
    apply (length_filter_respect Child.birthDate); [|done]. intros x y Hxy.
    by rewrite (classroomOf_birthDate parseISO differenceInMonths cls d x y Hxy).
  - apply map_eq. intros k. unfold trendData. generalize (seqZ (-12) 25) as months.
    intros months. rewrite !trendMonths_lookup.
    destruct (foldl _ ∅ cls !! k) as [points|]; [|done]. simpl. do 3 f_equal.
    apply list_fmap_ext. intros i m _. apply list_fmap_ext. intros j c _.
    by rewrite Hlen.
Qed.

(** X8. Each of the 25 columns of the chart adds up to the enrolled total of
    its month: the counts of the points at position [i] of all classrooms sum
    to [totalEnrolled] of the forecast at the date shifted by [i - 12]
    months. *)
Theorem trend_points_add_up_to_total
    (cls : list Classroom.t) (d : Date) (chs : list Child.t) (i : nat) :
  NoDup (ids cls) → (i < 25)%nat →
  Zsum ((λ c, default 0 (pointAt (trend cls d chs) c i ≫= TrendPoint.enrolled)) <$> cls)
  = totalEnrolled (forecast cls (addMonths d (Z.of_nat i - 12)) chs).
Proof.
  intros Hnd Hi. rewrite totalEnrolled_per_classroom by done.
  apply Zsum_fmap_ext. intros c Hc.
  rewrite pointAt_trend by done. simpl. by rewrite forecast_enrolled_length.
Qed.

Lemma classroomOf_no_age (cls : list Classroom.t) (d : Date) (ch : Child.t) :
  age ch d = None → classroomOf ch d cls = None.
Proof.
  unfold getChildAgeInMonths, getClassroomForChild. intros ->.
  by induction cls as [|c cls IH].
Qed.

Lemma filter_assigned_no_age (cls : list Classroom.t) (d : Date) (k : Z)
    (chs1 chs2 : list Child.t) (ch : Child.t) :
  age ch d = None →
  filter (assigned cls d k) (chs1 ++ ch :: chs2) = filter (assigned cls d k) (chs1 ++ chs2).
Proof.
  intros Hage. rewrite !filter_app, filter_cons, decide_False; [done|].
  unfold assignedTo. by rewrite classroomOf_no_age.
Qed.

(** A child whose age is [NaN] at every date leaves the whole dashboard as
    it is without the child. *)
Lemma engine_skips_child_without_age
    (cls : list Classroom.t) (d : Date) (chs1 chs2 : list Child.t) (ch : Child.t) :
  (∀ d', age ch d' = None) →
  forecast cls d (chs1 ++ ch :: chs2) = forecast cls d (chs1 ++ chs2)
  ∧ trend cls d (chs1 ++ ch :: chs2) = trend cls d (chs1 ++ chs2).
Proof.
  intros Hage. split.
  - unfold forecastStats. rewrite !foldl_app. cbn [foldl]. f_equal. f_equal.
    generalize (foldl (bucketChild parseISO differenceInMonths cls d) (initStats cls) chs1).
    intros stats. unfold bucketChild. by rewrite (classroomOf_no_age cls d ch (Hage d)).
  - apply map_eq. intros k. unfold trendData. generalize (seqZ (-12) 25) as months.
    intros months. rewrite !trendMonths_lookup.
    destruct (foldl _ ∅ cls !! k) as [points|]; [|done]. simpl. do 3 f_equal.
    apply list_fmap_ext. intros i m _. apply list_fmap_ext. intros j c _.
    by rewrite filter_assigned_no_age.
Qed.

(** X9. [POST /api/children] checks that the three fields are strings and
    nothing of the dates: a child whose birth date does not parse (its age
    is [NaN] at every date) is stored with status 201, and the forecast and
    the trend series of the new list of children are those of the old one. *)
Theorem unparsable_birth_date_is_stored_and_ignored
    (fields : list (string * json)) (name birthDate enrollmentDate : string)
    (db : ChildDb) (cls : list Classroom.t) (d : Date) :
  field "name" fields = Some (JString name) →
  field "birthDate" fields = Some (JString birthDate) →
  field "enrollmentDate" fields = Some (JString enrollmentDate) →
  (∀ d', differenceInMonths d' (parseISO birthDate) = None) →
  let created := Child.mk (children_id_seq db) name birthDate enrollmentDate in
  let db' := (postChild (JObject fields) db).2 in
  (postChild (JObject fields) db).1 = (201, ChildJson created)
  ∧ children_table db' = children_table db ++ [created]
  ∧ forecast cls d (children_table db') = forecast cls d (children_table db)
  ∧ trend cls d (children_table db') = trend cls d (children_table db).
Proof.
  intros Hname Hbirth Henrol Hage created db'.
  assert (postChild (JObject fields) db
          = ((201, ChildJson created),
             mkChildDb (children_table db ++ [created]) (children_id_seq db + 1))) as Hpost.
  { unfold postChild, insertChildSchema. by rewrite Hname, Hbirth, Henrol. }
  unfold db'. rewrite Hpost. simpl. split; [done|]. split; [done|].
  pose proof (engine_skips_child_without_age cls d (children_table db) [] created) as Hskip.
  rewrite app_nil_r in Hskip. apply Hskip. intros d'. apply Hage.
Qed.

End InputFacts.

(** ** The classroom cards and the alerts *)

Lemma badge_threshold_binary64 :
  forallb (λ c, forallb (λ e, half_binary64_agrees e c) (seqZ 0 201)) (seqZ (-20) 221) = true.
Proof. by vm_compute. Qed.

Lemma quot_leb_mono (r : quotient) (a b : Q) :
  Qle a b → quot_leb r a = true → quot_leb r b = true.
Proof.
  intros Hab. destruct r; simpl; try done. rewrite !Qle_bool_iff. intros Hq.
  by apply (Qle_trans _ a).
Qed.

Lemma ratio_le_05 (n cap : Z) :
  0 < cap → quot_leb (js_div n cap) (1 # 2) = true ↔ 2 * n ≤ cap.
Proof.
  intros Hcap. unfold js_div. destruct cap as [|p|p]; [lia| |lia]. simpl.
  rewrite ratio_le_pos. lia.
Qed.

Lemma pushInsight_at_most_one (stats : gmap Z ClassStats.t) (c : Classroom.t) :
  pushInsight stats [] c = []
  ∨ ∃ a, pushInsight stats [] c = [a] ∧ Insight.classroomId a = Classroom.id c.
Proof.
  unfold pushInsight. destruct (stats !! Classroom.id c); [|by left].
  repeat case_match; try (by left); right; by eexists.
Qed.

(** X10. The alerts are listed in the order of the classroom list, at most
    one per position of the list, whatever the statistics: the classroom ids
    of the alerts are a sublist of the ids of the classrooms. *)
Theorem alerts_in_classroom_order (cls : list Classroom.t) (stats : gmap Z ClassStats.t) :
  Insight.classroomId <$> capacityInsights cls stats `sublist_of` Classroom.id <$> cls
  ∧ (length (capacityInsights cls stats) ≤ length cls)%nat.
Proof.
  rewrite capacityInsights_concat.
  induction cls as [|c cls [IHsub IHlen]]; [done|].
  rewrite !fmap_cons. cbn [concat]. rewrite fmap_app, length_app.
  destruct (pushInsight_at_most_one stats c) as [->|(a & -> & Ha)]; simpl.
  - split; [by apply sublist_cons|lia].
  - rewrite Ha. split; [by apply sublist_skip|lia].
Qed.

Section CardFacts.
Context {Date : Type}.
Variable parseISO : string → Date.
Variable differenceInMonths : Date → Date → option Z.

Local Abbreviation forecast := (forecastStats parseISO differenceInMonths).
Local Abbreviation ids cls := (Classroom.id <$> cls).

(** X11. The colour of the [enrolled/capacity] badge of a card follows the
    alert of the classroom: red exactly with a critical alert and orange
    exactly with a warning; the badge is highlighted as having lots of space
    only with an opportunity alert, but for a positive capacity a classroom
    filled above one half and at most six tenths has the opportunity alert
    and the neutral badge. *)
Theorem badge_colour_follows_alert
    (cls : list Classroom.t) (d : Date) (chs : list Child.t) (c : Classroom.t) :
  NoDup (ids cls) → c ∈ cls →
  let stats := forecast cls d chs in
  let enrolled := enrolledCount stats c in
  let colour := getCapacityColor enrolled (Classroom.capacity c) in
  let kinds := Insight.type <$> classroomInsights (capacityInsights cls stats) c in
  (colour = "text-destructive font-bold" ↔ kinds = [Insight.critical])
  ∧ (colour = "text-orange-500 font-medium" ↔ kinds = [Insight.warning])
  ∧ (colour = "text-primary font-medium" → kinds = [Insight.opportunity])
  ∧ (0 < Classroom.capacity c →
       (colour = "text-muted-foreground" ∧ kinds = [Insight.opportunity])
       ↔ Classroom.capacity c < 2 * enrolled ∧ 10 * enrolled ≤ 6 * Classroom.capacity c).
Proof.
  intros Hnd Hc stats enrolled colour kinds. unfold kinds, colour.
  rewrite classroomInsights_capacityInsights by done.
  rewrite pushInsight_cases by by apply forecast_is_Some.
  fold stats. fold enrolled. unfold getCapacityColor.
  pose proof (enrolledCount_nonneg stats c) as Hn. fold enrolled in Hn.
  set (r := js_div enrolled (Classroom.capacity c)).
  assert (quot_leb r (1 # 2) = true → quot_leb r (6 # 10) = true) as Hmono
    by (apply quot_leb_mono; by unfold Qle).
  split; [|split; [|split]].
  - destruct (quot_gtb r 1), (quot_geb r (9 # 10)), (quot_leb r (1 # 2)),
      (quot_leb r (6 # 10)); by split.
  - destruct (quot_gtb r 1), (quot_geb r (9 # 10)), (quot_leb r (1 # 2)),
      (quot_leb r (6 # 10)); by split.
  - destruct (quot_gtb r 1), (quot_geb r (9 # 10)), (quot_leb r (1 # 2)); try done.
    by rewrite Hmono.
  - intros Hcap. unfold r.
    rewrite (bool_of_iff _ _ (ratio_gt_1 enrolled (Classroom.capacity c) Hn
                                (Z.lt_le_incl _ _ Hcap))).
    rewrite (bool_of_iff _ _ (ratio_ge_09 enrolled (Classroom.capacity c) Hcap)).
    rewrite (bool_of_iff _ _ (ratio_le_05 enrolled (Classroom.capacity c) Hcap)).
    rewrite (bool_of_iff _ _ (ratio_le_06 enrolled (Classroom.capacity c) Hcap)).
    repeat case_bool_decide; simpl; split; intros [? ?];
      first [done | lia | by split | split; lia].
Qed.

(** X12. For a capacity that is not negative the card is drawn as over
    capacity exactly when the classroom has the critical alert.  For a
    negative capacity the two disagree: the card is drawn as over capacity
    while the alert is the one for high availability. *)
Theorem card_over_capacity_vs_critical_alert
    (cls : list Classroom.t) (d : Date) (chs : list Child.t) (c : Classroom.t) :
  NoDup (ids cls) → c ∈ cls →
  let stats := forecast cls d chs in
  let enrolled := enrolledCount stats c in
  let kinds := Insight.type <$> classroomInsights (capacityInsights cls stats) c in
  (0 ≤ Classroom.capacity c →
     isOverCapacity stats c = true ↔ kinds = [Insight.critical])
  ∧ (Classroom.capacity c < 0 →
       isOverCapacity stats c = true
       ∧ statusMessage stats c
         = "Over capacity by " +:+ pretty (enrolled - Classroom.capacity c)
       ∧ kinds = [Insight.opportunity]).
Proof.
  intros Hnd Hc stats enrolled kinds. unfold kinds.
  rewrite classroomInsights_capacityInsights by done.
  rewrite pushInsight_cases by by apply forecast_is_Some.
  fold stats. fold enrolled.
  pose proof (enrolledCount_nonneg stats c) as Hn. fold enrolled in Hn.
  unfold statusMessage, isOverCapacity. fold enrolled. split.
  - intros Hcap. rewrite bool_decide_eq_true.
    rewrite <-(ratio_gt_1 enrolled (Classroom.capacity c)) by done.
    destruct (quot_gtb _ 1); [done|]. split; [done|]. by repeat case_match.
  - intros Hcap.
    destruct (ratio_negative_capacity enrolled (Classroom.capacity c) Hn Hcap)
      as (-> & -> & ->).
    rewrite bool_decide_true by lia. done.
Qed.

End CardFacts.

(** ** Storage round trips *)





Lemma deleteClassroom_primary_key (id : Z) (db : Db) :
  primary_key db → primary_key (deleteClassroom id db).2.
Proof.
  intros [Hnd Hlt]. unfold deleteClassroom. split; simpl.
  - apply (sublist_NoDup _ _ Hnd), fmap_sublist, sublist_filter.
  - intros row [_ Hrow]%list_elem_of_filter. by apply Hlt.
Qed.

Lemma applyPatch_idempotent (data : ClassroomPatch.t) (row : Classroom.t) :
  applyPatch data (applyPatch data row) = applyPatch data row.
Proof. unfold applyPatch. destruct data as [[?|] [?|] [?|] [?|] [?|] [?|]]; done. Qed.


Lemma updated_rows_same (id : Z) (data : ClassroomPatch.t) (table : list Classroom.t) :
  filter (λ r, Classroom.id r = id)
    (filter (λ r, Classroom.id r ≠ id) table
       ++ (applyPatch data <$> filter (λ r, Classroom.id r = id) table))
  = applyPatch data <$> filter (λ r, Classroom.id r = id) table.
Proof.
  rewrite filter_app, (filter_none _ (filter _ table)), app_nil_l.
  - apply filter_all.
    by intros row (row0 & -> & [Hrow0 _]%list_elem_of_filter)%list_elem_of_fmap.
  - by intros row [Hne _]%list_elem_of_filter.
Qed.

Lemma updated_rows_other (id : Z) (data : ClassroomPatch.t) (table : list Classroom.t) :
  filter (λ r, Classroom.id r ≠ id)
    (filter (λ r, Classroom.id r ≠ id) table
       ++ (applyPatch data <$> filter (λ r, Classroom.id r = id) table))
  = filter (λ r, Classroom.id r ≠ id) table.
Proof.
  rewrite filter_app, list_filter_filter_l by done.
  rewrite (filter_none _ (applyPatch data <$> _)); [by rewrite app_nil_r|].
  intros row (row0 & -> & [Hrow0 _]%list_elem_of_filter)%list_elem_of_fmap Hne.
  by apply Hne.
Qed.

(** X14. Round trip of an update: when the record with the id exists and
    the patch sets at least one field, the update returns the patched
    record, fetching the id afterwards gives that same record, fetching
    another id gives what it gave before, and sending the same patch again
    returns the same record and changes nothing. *)
Theorem update_then_get (id : Z) (data : ClassroomPatch.t) (db : Db) (row : Classroom.t) :
  ClassroomPatch.is_empty data = false →
  getClassroom id db = Some row →
  let row' := applyPatch data row in
  let db' := (updateClassroom id data db).2 in
  updateClassroom id data db = (Returned (Some row'), db')
  ∧ getClassroom id db' = Some row'
  ∧ (∀ id', id' ≠ id → getClassroom id' db' = getClassroom id' db)
  ∧ updateClassroom id data db' = (Returned (Some row'), db').
Proof.
  intros Hdata Hrow row' db'.
  pose proof (getClassroom_update id id data db Hdata) as Hsame.
  rewrite decide_True in Hsame by done. fold db' in Hsame. rewrite Hrow in Hsame.
  assert (db' = mkDb (filter (λ r, Classroom.id r ≠ id) (classrooms_table db)
                        ++ (applyPatch data
                              <$> filter (λ r, Classroom.id r = id) (classrooms_table db)))
                  (classrooms_id_seq db)) as Hdb'
    by (unfold db'; by rewrite updateClassroom_table).
  unfold getClassroom in Hrow.
  split; [|split; [done|split]].
  - rewrite updateClassroom_table by done. rewrite <-Hdb'. by rewrite head_fmap, Hrow.
  - intros id' Hne. pose proof (getClassroom_update id id' data db Hdata) as Hother.
    by rewrite decide_False in Hother.
  - rewrite updateClassroom_table by done. rewrite Hdb'.
    cbn [classrooms_table classrooms_id_seq].
    rewrite (updated_rows_same id data), (updated_rows_other id data).
    rewrite <-list_fmap_compose.
    rewrite (list_fmap_ext (applyPatch data ∘ applyPatch data) (applyPatch data)
               (filter (λ r, Classroom.id r = id) (classrooms_table db)))
      by (intros i r _; apply applyPatch_idempotent).
    by rewrite head_fmap, Hrow.
Qed.

Section RouteFacts.
Variable parseInt : string → option Z.
Variable int4_checked : bool.


(** X16. The primary key is an invariant of the classroom routes: when the
    ids of the table are distinct and below the next value of the sequence,
    they still are after a POST, a PATCH or a DELETE request, whatever the
    request; so the list that [GET /api/classrooms] returns never has two
    classrooms with the same id. *)
Theorem routes_keep_primary_key (idParam : string) (reqBody : json) (db : Db) :
  primary_key db →
  primary_key (postClassroom int4_checked reqBody db).2
  ∧ primary_key (patchClassroom parseInt int4_checked idParam reqBody db).2
  ∧ primary_key (deleteClassroomRoute parseInt idParam db).2
  ∧ NoDup (Classroom.id <$> getClassrooms db).
Proof.
  intros Hkey. split; [|split; [|split]].
  - unfold postClassroom.
    destruct (insertClassroomSchema int4_checked reqBody) as [[data|]|]; [|done..].
    by apply createClassroom_primary_key.
  - unfold patchClassroom. destruct (parseInt idParam) as [id|]; [|done].
    destruct (insertClassroomSchema_partial int4_checked reqBody) as [[data|]|]; [|done..].
    pose proof (updateClassroom_primary_key id data db Hkey) as Hupdated.
    by destruct (updateClassroom id data db) as [[[?|]|?] ?].
  - unfold deleteClassroomRoute. destruct (parseInt idParam) as [id|]; [|done].
    pose proof (deleteClassroom_primary_key id db Hkey) as Hdeleted.
    by destruct (deleteClassroom id db) as [[|] ?].
  - by apply getClassrooms_NoDup.
Qed.


End RouteFacts.

(** ** Seeding *)

Lemma insertClassrooms_length (rows : list InsertClassroom.t) (db : Db) :
  length (classrooms_table (insertClassrooms rows db))
  = (length (classrooms_table db) + length rows)%nat.
Proof.
  unfold insertClassrooms. revert db. induction rows as [|row rows IH]; intros db.
  - simpl. lia.
  - cbn [foldl]. rewrite IH. unfold createClassroom. simpl. rewrite length_app. simpl. lia.
Qed.

Lemma insertChildren_table (rows : list InsertChild.t) (db : ChildDb) :
  ∃ created,
    children_table (insertChildren rows db) = children_table db ++ created
    ∧ Child.birthDate <$> created = InsertChild.birthDate <$> rows.
Proof.
  unfold insertChildren. revert db. induction rows as [|row rows IH]; intros db.
  - exists []. by rewrite app_nil_r.
  - cbn [foldl]. destruct (IH (createChild row db).2) as (created & Htable & Hbirth).
    exists ((createChild row db).1 :: created). rewrite Htable. unfold createChild.
    cbn [fst snd children_table]. rewrite <-app_assoc. split; [done|].
    rewrite !fmap_cons. by rewrite Hbirth.
Qed.

Section SeedFacts.
Context {Date : Type}.
Variable parseISO : string → Date.
Variable differenceInMonths : Date → Date → option Z.
Variable addMonths : Date → Z → Date.
Variable formatYMD : Date → string.

Local Abbreviation classroomOf := (getClassroomForChild parseISO differenceInMonths).
Local Abbreviation forecast := (forecastStats parseISO differenceInMonths).

(** X18. Seeding is done once: whatever the first run of [seed] did, a
    later run, at any date and with any random numbers, returns without
    touching the two tables.  In particular a run that failed after the
    classrooms were inserted is not completed by a later run. *)
Theorem seed_runs_once
    (random random' : nat → Q) (today today' : Date) (db : Db * ChildDb) :
  let db' := (seed addMonths formatYMD random today db).2 in
  seed addMonths formatYMD random' today' db' = (Returned (), db')
  ∧ (0 < length (getClassrooms db'.1))%nat.
Proof.
  intros db'.
  assert (0 < length (getClassrooms db'.1))%nat as Hseeded.
  { unfold db', seed. case_bool_decide as Hexisting; [done|].
    pose proof (insertClassrooms_length CLASSROOMS_DATA db.1) as Hlen.
    destruct (generateChildren _ _ _ _); unfold getClassrooms; simpl in *; lia. }
  split; [|done]. unfold seed at 1. by rewrite bool_decide_true.
Qed.

Section Draws.
Variable random : nat → Q.
Variable today : Date.
Hypothesis random_range : ∀ n, (0 <= random n)%Q ∧ (random n < 1)%Q.

Lemma rng_range (n : nat) (max : Z) : 0 < max → 0 ≤ rng random n max < max.
Proof.
  intros Hmax. destruct (random_range n) as [H0 H1]. unfold rng.
  assert (0 < inject_Z max)%Q as Hpos
    by (change 0%Q with (inject_Z 0); by rewrite <-Zlt_Qlt).
  split.
  - rewrite <-(Qfloor_Z 0). apply Qfloor_resp_le.
    apply Qmult_le_0_compat; [done|]. by apply Qlt_le_weak.
  - rewrite Zlt_Qlt. apply (Qle_lt_trans _ (random n * inject_Z max)); [apply Qfloor_le|].
    rewrite <-(Qmult_1_l (inject_Z max)) at 2. by apply Qmult_lt_compat_r.
Qed.

Lemma generateChild_Returned (n : nat) :
  ∃ child a,
    generateChild addMonths formatYMD random today n = Returned child
    ∧ 1 ≤ a ≤ 58
    ∧ InsertChild.birthDate child = formatYMD (addMonths today (- a)).
Proof.
  unfold generateChild.
  pose proof (rng_range n 58 ltac:(lia)) as Hage.
  pose proof (rng_range (n + 2) (Z.of_nat (length lastNames)) ltac:(simpl; lia)) as Hlast.
  unfold array_get. rewrite bool_decide_true by lia.
  destruct (lastNames !! Z.to_nat _) as [lastName|] eqn:Hname.
  - eexists _, (rng random n 58 + 1). split; [done|]. split; [lia|done].
  - apply lookup_ge_None in Hname. lia.
Qed.

Lemma generateLoop_Returned (count n : nat) (result : list InsertChild.t) :
  ∃ new,
    generateLoop addMonths formatYMD random today count n result = Returned (result ++ new)
    ∧ length new = count
    ∧ ∀ child, child ∈ new →
        ∃ a, 1 ≤ a ≤ 58 ∧ InsertChild.birthDate child = formatYMD (addMonths today (- a)).
Proof.
  revert n result. induction count as [|count IH]; intros n result.
  - exists []. rewrite app_nil_r. split; [done|]. split; [done|]. by intros child ?%elem_of_nil.
  - cbn [generateLoop]. destruct (generateChild_Returned n) as (child & a & -> & Ha & Hbirth).
    destruct (IH (n + 4)%nat (result ++ [child])) as (new & -> & Hlen & Hnew).
    exists (child :: new). rewrite <-app_assoc. split; [done|]. split; [simpl; lia|].
    intros child' [->|Hin]%elem_of_cons; [by exists a|by apply Hnew].
Qed.

End Draws.

(** The seeded classrooms cover the ages from 0 to 59 months. *)
Lemma seeded_classrooms_cover (next a : Z) :
  0 ≤ a < 60 →
  ∃ c, find (inBand (Some a)) (classrooms_table (insertClassrooms CLASSROOMS_DATA (mkDb [] next)))
       = Some c.
Proof.
  intros Ha. unfold insertClassrooms, CLASSROOMS_DATA, createClassroom. cbn [foldl snd].
  cbn [classrooms_table classrooms_id_seq app]. unfold inBand, num_geb, num_ltb. cbn [find].
  cbn [Classroom.minAgeMonths Classroom.maxAgeMonths InsertClassroom.minAgeMonths
       InsertClassroom.maxAgeMonths].
  repeat (case_bool_decide; cbn [andb]; try (by eexists)); lia.
Qed.

(** X19. On empty tables the seeding succeeds and every seeded child has a
    place: for random numbers in [0, 1) and a calendar in which a birth date
    written [a] months before today reads as an age of [a] months, [seed]
    returns, stores 5 classrooms and 55 children, and on the day of the
    seeding each child is between 1 and 58 months old and is assigned to one
    of the seeded classrooms, so that the enrolled total is 55. *)
Theorem seeded_children_all_placed
    (random : nat → Q) (today : Date) (db : Db * ChildDb) :
  (∀ n, (0 <= random n)%Q ∧ (random n < 1)%Q) →
  (∀ a, 1 ≤ a ≤ 58 →
        differenceInMonths today (parseISO (formatYMD (addMonths today (- a)))) = Some a) →
  classrooms_table db.1 = [] → children_table db.2 = [] →
  let db' := (seed addMonths formatYMD random today db).2 in
  let cls := getClassrooms db'.1 in
  let chs := children_table db'.2 in
  (seed addMonths formatYMD random today db).1 = Returned ()
  ∧ length cls = 5%nat ∧ length chs = 55%nat
  ∧ (∀ ch, ch ∈ chs →
       ∃ a, getChildAgeInMonths parseISO differenceInMonths (Child.birthDate ch) today = Some a
            ∧ 1 ≤ a ≤ 58 ∧ is_Some (classroomOf ch today cls))
  ∧ totalEnrolled (forecast cls today chs) = 55.
Proof.
  intros Hrandom Hcalendar Hcls Hchs db' cls chs.
  destruct db as [[table next] [children next_child]]. simpl in Hcls, Hchs. subst table children.
  destruct (generateLoop_Returned random today Hrandom 55 0 []) as (rows & Hloop & Hlen & Hrows).
  rewrite app_nil_l in Hloop.
  destruct (insertChildren_table rows (mkChildDb [] next_child))
    as (created & Htable & Hbirth).
  rewrite app_nil_l in Htable.
  assert (seed addMonths formatYMD random today (mkDb [] next, mkChildDb [] next_child)
          = (Returned (),
             (insertClassrooms CLASSROOMS_DATA (mkDb [] next),
              insertChildren rows (mkChildDb [] next_child)))) as Hseed.
  { unfold seed, generateChildren. cbn [fst snd getClassrooms classrooms_table length].
    rewrite bool_decide_false by lia. by rewrite Hloop. }
  subst chs cls db'. rewrite Hseed. cbn [fst snd]. rewrite Htable. unfold getClassrooms.
  assert (∀ ch, ch ∈ created →
            ∃ a, getChildAgeInMonths parseISO differenceInMonths (Child.birthDate ch) today
                 = Some a
                 ∧ 1 ≤ a ≤ 58
                 ∧ is_Some (classroomOf ch today
                              (classrooms_table (insertClassrooms CLASSROOMS_DATA
                                                   (mkDb [] next))))) as Hplaced.
  { intros ch Hch.
    assert (Child.birthDate ch ∈ InsertChild.birthDate <$> rows) as Hin
      by (rewrite <-Hbirth; by apply list_elem_of_fmap_2).
    apply list_elem_of_fmap in Hin as (row & Hrow & Hin).
    destruct (Hrows row Hin) as (a & Ha & Hdate).
    exists a. unfold getChildAgeInMonths, getClassroomForChild.
    rewrite Hrow, Hdate, (Hcalendar a Ha). split; [done|]. split; [done|].
    destruct (seeded_classrooms_cover next a ltac:(lia)) as [c Hc]. by rewrite Hc. }
  assert (length created = 55%nat) as Hlength.
  { by rewrite <-(length_fmap Child.birthDate), Hbirth, length_fmap. }
  split; [done|]. split; [by rewrite insertClassrooms_length|].
  split; [done|]. split; [done|].
  rewrite totalEnrolled_placed, filter_all, Hlength; [done|].
  intros ch Hch. by destruct (Hplaced ch Hch) as (a & _ & _ & Hsome).
Qed.

End SeedFacts.

(** ** The age label of a roster row *)

Lemma pretty_N_char_spaceless (x : N) : Ascii.eqb (pretty_N_char x) " " = false.
Proof. unfold pretty_N_char. by repeat case_match. Qed.

Lemma pretty_N_go_spaceless (x : N) (s : string) :
  spaceless s = true → spaceless (pretty_N_go x s) = true.
Proof.
  revert s. induction (N.lt_wf_0 x) as [x _ IH]. intros s Hs.
  destruct (decide (x = 0%N)) as [->|Hx]; [by rewrite pretty_N_go_0|].
  rewrite pretty_N_go_step by lia. apply IH.
  - apply N.div_lt; lia.
  - simpl. by rewrite pretty_N_char_spaceless, Hs.
Qed.

Lemma pretty_Z_spaceless (z : Z) : spaceless (pretty z) = true.
Proof.
  assert (∀ p : positive, spaceless (pretty p) = true) as Hpos.
  { intros p. unfold pretty, pretty_positive, pretty, pretty_N.
    rewrite decide_False by done. by apply pretty_N_go_spaceless. }
  destruct z as [|p|p]; [done|apply Hpos|].
  unfold pretty, pretty_Z. simpl. apply Hpos.
Qed.

(** Two strings that agree, each a word without space followed by a space,
    agree on the word and on what follows it. *)
Lemma first_word_inj (s1 s2 r1 r2 : string) :
  spaceless s1 = true → spaceless s2 = true →
  s1 +:+ String " " r1 = s2 +:+ String " " r2 → s1 = s2 ∧ r1 = r2.
Proof.
  revert s2. induction s1 as [|a s1 IH]; intros [|b s2]; simpl.
  - by intros _ _ [= ->].
  - intros _ Hb [= <- _]. done.
  - intros Ha _ [= -> _]. done.
  - intros [_ Hs1]%andb_true_iff [_ Hs2]%andb_true_iff [= -> Heq].
    by destruct (IH s2 Hs1 Hs2 Heq) as [-> ->].
Qed.

(** X20. The age label of a roster row determines the age: two different
    numbers of months are never shown with the same label. *)
Theorem age_labels_are_distinct (n n' : Z) :
  formatAgeInMonths n = formatAgeInMonths n' → n = n'.
Proof.
  unfold formatAgeInMonths. intros Hlabel.
  pose proof (Z.div_mod n 12 ltac:(lia)) as Hn.
  pose proof (Z.div_mod n' 12 ltac:(lia)) as Hn'.
  repeat case_bool_decide; cbn [String.append] in Hlabel;
    apply first_word_inj in Hlabel as [Hword%(inj pretty) Hrest];
    try apply pretty_Z_spaceless; try discriminate Hrest; try lia.
  all: injection Hrest as Hrest;
    apply first_word_inj in Hrest as [Hmonths%(inj pretty) _];
    try apply pretty_Z_spaceless; lia.
Qed.

(** ** The classroom list and the assignment of children *)




Section ListFacts.
Context {Date : Type}.
Variable parseISO : string → Date.
Variable differenceInMonths : Date → Date → option Z.

Local Abbreviation age ch d := (getChildAgeInMonths parseISO differenceInMonths (Child.birthDate ch) d).
Local Abbreviation classroomOf := (getClassroomForChild parseISO differenceInMonths).
Local Abbreviation assigned := (assignedTo parseISO differenceInMonths).
Local Abbreviation within := (graduatesWithin parseISO differenceInMonths).
Local Abbreviation forecast := (forecastStats parseISO differenceInMonths).
Local Abbreviation ids cls := (Classroom.id <$> cls).

(** X21. Bands that follow each other without a gap leave no child of the
    covered ages out: when each classroom's band ends where the band of the
    next classroom in the list starts, a child whose age is at least the
    first classroom's minimum and below the last classroom's maximum is
    assigned to a classroom of the list whose band contains the age. *)
Theorem contiguous_bands_place_every_age
    (cls : list Classroom.t) (d : Date) (ch : Child.t) (a : Z)
    (first_classroom last_classroom : Classroom.t) :
  head cls = Some first_classroom → last cls = Some last_classroom →
  (∀ i c c', cls !! i = Some c → cls !! S i = Some c' →
             Classroom.maxAgeMonths c = Classroom.minAgeMonths c') →
  age ch d = Some a →
  Classroom.minAgeMonths first_classroom ≤ a < Classroom.maxAgeMonths last_classroom →
  ∃ c, c ∈ cls
       ∧ classroomOf ch d cls = Some (Classroom.id c)
       ∧ Classroom.minAgeMonths c ≤ a < Classroom.maxAgeMonths c.
Proof.
  intros Hhead Hlast Hcontig Hage. unfold getChildAgeInMonths in Hage.
  revert first_classroom Hhead Hlast Hcontig.
  induction cls as [|c0 rest IH]; intros first_classroom Hhead Hlast Hcontig Ha; [done|].
  injection Hhead as <-. unfold getClassroomForChild. rewrite Hage. simpl.
  destruct (inBand (Some a) c0) eqn:Hband.
  - exists c0. split; [apply elem_of_cons; by left|]. split; [done|].
    apply inBand_spec in Hband as (n & [= <-] & Hn). done.
  - assert (Classroom.maxAgeMonths c0 ≤ a) as Hbeyond.
    { apply not_true_iff_false in Hband. rewrite inBand_spec in Hband.
      destruct (decide (a < Classroom.maxAgeMonths c0)); [|lia].
      exfalso. apply Hband. exists a. split; [done|lia]. }
    destruct rest as [|c1 rest]; [injection Hlast as <-; lia|].
    destruct (IH c1) as (c & Hin & Hfound & Hc).
    + done.
    + by rewrite last_cons_cons in Hlast.
    + intros i c c' Hi Hi'. by apply (Hcontig (S i)).
    + rewrite <-(Hcontig 0%nat c0 c1) by done. lia.
    + exists c. split; [apply elem_of_cons; by right|]. split; [|done].
      unfold getClassroomForChild in Hfound. by rewrite Hage in Hfound.
Qed.




(** X23. Deleting a classroom moves no child of another classroom: a child
    assigned to a classroom other than the deleted one is still assigned to
    it with the remaining list, so the roster of a remaining classroom can
    only grow (by children of the deleted classroom whose age is in its band
    too). *)
Theorem deletion_moves_no_other_child
    (id : Z) (db : Db) (d : Date) (chs : list Child.t) :
  let cls := getClassrooms db in
  let cls' := getClassrooms (deleteClassroom id db).2 in
  (∀ ch k, classroomOf ch d cls = Some k → k ≠ id → classroomOf ch d cls' = Some k)
  ∧ (∀ c, c ∈ cls → Classroom.id c ≠ id →
       c ∈ cls'
       ∧ enrolledCount (forecast cls d chs) c ≤ enrolledCount (forecast cls' d chs) c).
Proof.
  intros cls cls'.
  assert (∀ ch k, classroomOf ch d cls = Some k → k ≠ id → classroomOf ch d cls' = Some k)
    as Hstay.
  { intros ch k Hk Hne. apply classroomOf_Some in Hk as (c & Hfind & Hid).
    apply find_first in Hfind as (l1 & l2 & Hcls & Hband & Hbefore).
    apply classroomOf_Some. exists c. split; [|done]. apply find_first.
    exists (filter (λ row, Classroom.id row ≠ id) l1),
           (filter (λ row, Classroom.id row ≠ id) l2).
    split; [|split; [done|]].
    - unfold cls', getClassrooms, deleteClassroom. simpl. fold (getClassrooms db).
      fold cls. rewrite Hcls, filter_app, filter_cons, decide_True; [done|congruence].
    - apply Forall_forall. intros c' [_ Hc']%list_elem_of_filter.
      by apply (proj1 (Forall_forall _ _) Hbefore). }
  split; [done|]. intros c Hc Hne.
  assert (c ∈ cls') as Hc'.
  { unfold cls', getClassrooms, deleteClassroom. simpl. by apply list_elem_of_filter. }
  split; [done|]. rewrite !forecast_enrolled_length by done.
  apply inj_le, sublist_length, filter_sublist_impl. intros ch Hch. by apply Hstay.
Qed.


(** No age is in the bands of two classrooms with different ids. *)
Local Abbreviation bands_disjoint cls :=
  (∀ c c' a, c ∈ cls → c' ∈ cls →
     Classroom.minAgeMonths c ≤ a < Classroom.maxAgeMonths c →
     Classroom.minAgeMonths c' ≤ a < Classroom.maxAgeMonths c' →
     Classroom.id c = Classroom.id c').







(** X25. The highlighted rows are at the top of a roster: in the roster
    of a card, which is sorted by descending age, every row above a row that
    is highlighted as graduating soon is highlighted too. *)
Theorem highlighted_rows_come_first
    (cls : list Classroom.t) (d : Date) (chs : list Child.t) (k : Z) (s : ClassStats.t)
    (c : Classroom.t) (i j : nat) (a b : Child.t) :
  forecast cls d chs !! k = Some s → (i < j)%nat →
  ClassStats.enrolled s !! i = Some a →
  ClassStats.enrolled s !! j = Some b →
  isGraduatingSoon parseISO differenceInMonths d c b = true →
  isGraduatingSoon parseISO differenceInMonths d c a = true.
Proof.
  rewrite forecast_lookup. case_decide as Hk; [|done]. intros [= <-] Hij. simpl.
  intros Ha Hb.
  assert (a ∈ filter (assigned cls d k) chs) as [[x Hx]%assigned_age _]%list_elem_of_filter.
  { rewrite <-(array_sort_Permutation (byAgeDescending parseISO differenceInMonths d)).
    by eapply list_elem_of_lookup_2. }
  assert (b ∈ filter (assigned cls d k) chs) as [[y Hy]%assigned_age _]%list_elem_of_filter.
  { rewrite <-(array_sort_Permutation (byAgeDescending parseISO differenceInMonths d)).
    by eapply list_elem_of_lookup_2. }
  pose proof (StronglySorted_lookup _ _ i j a b
                (roster_sorted parseISO differenceInMonths cls d chs k) Hij Ha Hb) as Hle.
  simpl in Hle. rewrite Hx, Hy in Hle. simpl in Hle.
  unfold isGraduatingSoon, monthsToGraduation. rewrite Hx, Hy. simpl.
  rewrite !bool_decide_eq_true. lia.
Qed.

End ListFacts.

(** * The further properties on the sample data *)

Lemma sample_random_range n : (0 <= sample_random n)%Q ∧ (sample_random n < 1)%Q.
Proof.
  unfold sample_random, Qle, Qlt. cbn [Qnum Qden].
  pose proof (Nat.mod_upper_bound (37 * n + 11) 100 ltac:(lia)). lia.
Qed.

(** On the sample date a birth date written [a] months earlier reads as an
    age of [a] months. *)
Lemma sample_calendar_law (a : Z) :
  1 ≤ a ≤ 58 →
  Calendar.differenceInMonths sample_date
    (Calendar.parseISO (Calendar.formatYMD (Calendar.addMonths sample_date (- a)))) = Some a.
Proof.
  intros Ha.
  assert (forallb (λ a, bool_decide
            (Calendar.differenceInMonths sample_date
               (Calendar.parseISO (Calendar.formatYMD (Calendar.addMonths sample_date (- a))))
             = Some a)) (seqZ 1 58) = true) as Hall by by vm_compute.
  rewrite forallb_forall in Hall. apply (bool_decide_eq_true_1 _), Hall.
  apply list_elem_of_In, elem_of_seqZ. lia.
Qed.

Lemma no_date_has_no_age (d : Calendar.date) :
  Calendar.differenceInMonths d (Calendar.parseISO "next spring") = None.
Proof. by destruct d as [[[y m] day]|]. Qed.

Lemma stats_entry_witness :
  let s := statsFor (sample_forecast sample_date sample_children) wobblers in
  ClassStats.graduatingSoon s ⊆+ ClassStats.enrolled s
  ∧ ClassStats.enrolled s ⊆+ sample_children
  ∧ 0 ≤ ClassStats.graduatingNextMonth s ≤ Z.of_nat (length (ClassStats.graduatingSoon s))
  ∧ (length (ClassStats.graduatingSoon s) ≤ length (ClassStats.enrolled s))%nat.
Proof.
  apply (stats_entry_invariants Calendar.parseISO Calendar.differenceInMonths
           sample_classrooms sample_date sample_children 2). by vm_compute.
Defined.

Lemma highlighted_rows_witness :
  let s := statsFor (sample_forecast sample_date sample_children) infants in
  let rows := rosterRows ascii_toLowerCase ascii_includes "liam" s in
  let highlighted :=
    filter (λ ch, isGraduatingSoon Calendar.parseISO Calendar.differenceInMonths
                    sample_date infants ch = true) rows in
  (ClassStats.graduatingNextMonth s = 1 ∧ ClassStats.enrolled s = [emma] ∧ rows = [])
  ∧ (length highlighted ≤ length (ClassStats.graduatingSoon s))%nat
  ∧ (∀ ch, ch ∈ highlighted → ch ∈ ClassStats.graduatingSoon s)
  ∧ rows `sublist_of` ClassStats.enrolled s
  ∧ ClassStats.graduatingNextMonth s
    ≤ Z.of_nat (length highlighted)
      + (Z.of_nat (length (ClassStats.enrolled s)) - Z.of_nat (length rows))
  ∧ ((∀ ch, ch ∈ ClassStats.enrolled s →
            matchesSearch ascii_toLowerCase ascii_includes "liam" ch = true) →
       rows = ClassStats.enrolled s
       ∧ ClassStats.graduatingNextMonth s ≤ Z.of_nat (length highlighted))
  ∧ ("liam" = "" →
       rows = ClassStats.enrolled s
       ∧ ClassStats.graduatingNextMonth s ≤ Z.of_nat (length highlighted)).
Proof.
  split; [by vm_compute|].
  apply (highlighted_rows_between_badge_and_graduating_soon
           Calendar.parseISO Calendar.differenceInMonths
           ascii_toLowerCase ascii_includes
           sample_classrooms sample_date sample_children infants "liam").
  - exact sample_ids_NoDup.
  - by apply (list_elem_of_lookup_2 _ 0).
Defined.

(** Emma, 11 months old with one month left with the infants, is with the
    wobblers a month later. *)
Lemma next_classroom_witness :
  getClassroomForChild Calendar.parseISO Calendar.differenceInMonths emma next_month
    sample_classrooms = Some (Classroom.id wobblers).
Proof.
  apply (child_moves_to_next_classroom Calendar.parseISO Calendar.differenceInMonths
           sample_classrooms sample_date next_month 0 infants wobblers emma 11 1);
    try reflexivity; try (simpl; lia).
  intros [|j] c' Hj; [|lia]. intros [= <-]. simpl. lia.
Defined.

Lemma birth_dates_only_witness :
  (∀ c,
     let s := statsFor (sample_forecast sample_date sample_children) c in
     let s' := statsFor (sample_forecast sample_date renamed_children) c in
     Child.birthDate <$> ClassStats.enrolled s = Child.birthDate <$> ClassStats.enrolled s'
     ∧ Child.birthDate <$> ClassStats.graduatingSoon s
       = Child.birthDate <$> ClassStats.graduatingSoon s'
     ∧ ClassStats.graduatingNextMonth s = ClassStats.graduatingNextMonth s')
  ∧ capacityInsights sample_classrooms (sample_forecast sample_date sample_children)
    = capacityInsights sample_classrooms (sample_forecast sample_date renamed_children)
  ∧ totalEnrolled (sample_forecast sample_date sample_children)
    = totalEnrolled (sample_forecast sample_date renamed_children)
  ∧ sample_trend sample_date sample_children = sample_trend sample_date renamed_children.
Proof.
  apply (engine_reads_birth_dates_only Calendar.parseISO Calendar.differenceInMonths
           Calendar.addMonths Calendar.format
           sample_classrooms sample_date sample_children renamed_children).
  reflexivity.
Defined.

Lemma trend_total_witness :
  Zsum ((λ c, default 0 (pointAt (sample_trend sample_date sample_children) c 12
                           ≫= TrendPoint.enrolled)) <$> sample_classrooms)
  = totalEnrolled (sample_forecast (Calendar.addMonths sample_date (Z.of_nat 12 - 12))
                     sample_children).
Proof.
  apply (trend_points_add_up_to_total Calendar.parseISO Calendar.differenceInMonths
           Calendar.addMonths Calendar.format sample_classrooms sample_date sample_children 12).
  - exact sample_ids_NoDup.
  - lia.
Defined.

Lemma unparsable_birth_date_witness :
  let created := Child.mk 8 "Zoe K." "next spring" "2025-01-01" in
  let db' := (postChild (JObject undated_child_fields) sample_child_db).2 in
  (postChild (JObject undated_child_fields) sample_child_db).1 = (201, ChildJson created)
  ∧ children_table db' = sample_children ++ [created]
  ∧ sample_forecast sample_date (children_table db')
    = sample_forecast sample_date sample_children
  ∧ sample_trend sample_date (children_table db') = sample_trend sample_date sample_children.
Proof.
  apply (unparsable_birth_date_is_stored_and_ignored
           Calendar.parseISO Calendar.differenceInMonths Calendar.addMonths Calendar.format
           undated_child_fields "Zoe K." "next spring" "2025-01-01" sample_child_db
           sample_classrooms sample_date); try reflexivity.
  exact no_date_has_no_age.
Defined.

Lemma badge_colour_witness :
  let stats := sample_forecast sample_date sample_children in
  let enrolled := enrolledCount stats toddlers in
  let colour := getCapacityColor enrolled (Classroom.capacity toddlers) in
  let kinds := Insight.type <$> classroomInsights (capacityInsights sample_classrooms stats)
                                  toddlers in
  (colour = "text-destructive font-bold" ↔ kinds = [Insight.critical])
  ∧ (colour = "text-orange-500 font-medium" ↔ kinds = [Insight.warning])
  ∧ (colour = "text-primary font-medium" → kinds = [Insight.opportunity])
  ∧ (0 < Classroom.capacity toddlers →
       (colour = "text-muted-foreground" ∧ kinds = [Insight.opportunity])
       ↔ Classroom.capacity toddlers < 2 * enrolled
         ∧ 10 * enrolled ≤ 6 * Classroom.capacity toddlers).
Proof.
  apply (badge_colour_follows_alert Calendar.parseISO Calendar.differenceInMonths
           sample_classrooms sample_date sample_children toddlers).
  - exact sample_ids_NoDup.
  - by apply (list_elem_of_lookup_2 _ 2).
Defined.

Lemma card_over_capacity_witness :
  let stats := sample_forecast sample_date sample_children in
  let enrolled := enrolledCount stats toddlers in
  let kinds := Insight.type <$> classroomInsights (capacityInsights sample_classrooms stats)
                                  toddlers in
  (0 ≤ Classroom.capacity toddlers →
     isOverCapacity stats toddlers = true ↔ kinds = [Insight.critical])
  ∧ (Classroom.capacity toddlers < 0 →
       isOverCapacity stats toddlers = true
       ∧ statusMessage stats toddlers
         = "Over capacity by " +:+ pretty (enrolled - Classroom.capacity toddlers)
       ∧ kinds = [Insight.opportunity]).
Proof.
  apply (card_over_capacity_vs_critical_alert Calendar.parseISO Calendar.differenceInMonths
           sample_classrooms sample_date sample_children toddlers).
  - exact sample_ids_NoDup.
  - by apply (list_elem_of_lookup_2 _ 2).
Defined.


Lemma update_then_get_witness :
  let row' := applyPatch rename_patch infants in
  let db' := (updateClassroom 1 rename_patch sample_db).2 in
  updateClassroom 1 rename_patch sample_db = (Returned (Some row'), db')
  ∧ getClassroom 1 db' = Some row'
  ∧ (∀ id', id' ≠ 1 → getClassroom id' db' = getClassroom id' sample_db)
  ∧ updateClassroom 1 rename_patch db' = (Returned (Some row'), db').
Proof.
  apply (update_then_get 1 rename_patch sample_db infants); reflexivity.
Defined.


Lemma primary_key_witness :
  primary_key (postClassroom true rename_body sample_db).2
  ∧ primary_key (patchClassroom decimal true "2" rename_body sample_db).2
  ∧ primary_key (deleteClassroomRoute decimal "2" sample_db).2
  ∧ NoDup (Classroom.id <$> getClassrooms sample_db).
Proof.
  apply (routes_keep_primary_key decimal true "2" rename_body sample_db).
  exact sample_db_primary_key.
Defined.

Lemma seeding_witness :
  let db' := (seed Calendar.addMonths Calendar.formatYMD sample_random sample_date
                (empty_db, mkChildDb [] 1)).2 in
  let cls := getClassrooms db'.1 in
  let chs := children_table db'.2 in
  (seed Calendar.addMonths Calendar.formatYMD sample_random sample_date
     (empty_db, mkChildDb [] 1)).1 = Returned ()
  ∧ length cls = 5%nat ∧ length chs = 55%nat
  ∧ (∀ ch, ch ∈ chs →
       ∃ a, getChildAgeInMonths Calendar.parseISO Calendar.differenceInMonths
              (Child.birthDate ch) sample_date = Some a
            ∧ 1 ≤ a ≤ 58
            ∧ is_Some (getClassroomForChild Calendar.parseISO Calendar.differenceInMonths
                         ch sample_date cls))
  ∧ totalEnrolled (forecastStats Calendar.parseISO Calendar.differenceInMonths
                     cls sample_date chs) = 55.
Proof.
  apply (seeded_children_all_placed Calendar.parseISO Calendar.differenceInMonths
           Calendar.addMonths Calendar.formatYMD sample_random sample_date
           (empty_db, mkChildDb [] 1)).
  - exact sample_random_range.
  - exact sample_calendar_law.
  - reflexivity.
  - reflexivity.
Defined.

Lemma age_label_witness :
  formatAgeInMonths 14 = formatAgeInMonths (12 + 2) ∧ 14 = 12 + 2.
Proof.
  split; [reflexivity|]. apply (age_labels_are_distinct 14 (12 + 2)). reflexivity.
Defined.

Lemma contiguous_bands_witness :
  ∃ c, c ∈ sample_classrooms
       ∧ getClassroomForChild Calendar.parseISO Calendar.differenceInMonths emma sample_date
           sample_classrooms = Some (Classroom.id c)
       ∧ Classroom.minAgeMonths c ≤ 11 < Classroom.maxAgeMonths c.
Proof.
  apply (contiguous_bands_place_every_age Calendar.parseISO Calendar.differenceInMonths
           sample_classrooms sample_date emma 11 infants toddlers);
    try reflexivity; [|simpl; lia].
  intros [|[|[|i]]] c c' Hc Hc'; simpl in Hc, Hc'; try discriminate;
    injection Hc as <-; injection Hc' as <-; reflexivity.
Defined.



(** With overlapping bands the order of the rows decides: after a rename of
    the first of two classrooms with bands [0, 24) and [12, 36), Olivia, 13
    months old, is placed in the second one. *)
Example rename_moves_child_between_overlapping_bands :
  let younger := Classroom.mk 1 "Infants" "bg-blue-100" 0 24 8 "1:4" in
  let older := Classroom.mk 2 "Wobblers" "bg-green-100" 12 36 8 "1:5" in
  let olivia := Child.mk 3 "Olivia W." "2024-05-01" "2024-08-01" in
  let db := mkDb [younger; older] 3 in
  let db' := (updateClassroom 1 rename_patch db).2 in
  getChildAgeInMonths Calendar.parseISO Calendar.differenceInMonths
    (Child.birthDate olivia) sample_date = Some 13
  ∧ getClassrooms db' = [older; applyPatch rename_patch younger]
  ∧ getClassroomForChild Calendar.parseISO Calendar.differenceInMonths
      olivia sample_date (getClassrooms db) = Some 1
  ∧ getClassroomForChild Calendar.parseISO Calendar.differenceInMonths
      olivia sample_date (getClassrooms db') = Some 2.
Proof. by vm_compute. Qed.


(** In the autumn Oliver and Mia, both with two months left, head the roster
    of the toddlers. *)
Lemma highlighted_first_witness :
  isGraduatingSoon Calendar.parseISO Calendar.differenceInMonths autumn_date toddlers
    (Child.mk 6 "Oliver G." "2022-11-30" "2023-02-28") = true.
Proof.
  apply (highlighted_rows_come_first Calendar.parseISO Calendar.differenceInMonths
           sample_classrooms autumn_date sample_children 3
           (statsFor (sample_forecast autumn_date sample_children) toddlers) toddlers 0 1
           (Child.mk 6 "Oliver G." "2022-11-30" "2023-02-28")
           (Child.mk 7 "Mia M." "2022-12-01" "2023-03-01"));
    first [lia | by vm_compute].
Defined.
